(* ===== verification/_CoqProject ===== *)
-Q . S2P
Prelude.v
JsSort.v
Timetoken.v
Message.v
ClassList.v
ClassEvents.v
HooksList.v
HooksEvents.v
TypingIndicator.v
Clock.v
ChannelList.v
LiveEventsLayout.v
Senders.v
Provider.v
ClassRender.v
HooksRender.v
MetroConfig.v
StorybookPreview.v
ReactNativeApp.v
LiveEventsApp.v
