(* ===== verification/Prelude.v ===== *)
(** * A verification library for the PubNub chat components (React-Chat-Channel)

    The repository is a React component library on top of the PubNub SDK.
    Its state-carrying logic sits in the message list, which appears twice:

    - [src/src/message-list/message-list.tsx]: the class component
      [MessageList] (React state [MessageListState], handlers
      [handleHistoryFetch], [handleOnMessage], [handleBottomScroll],
      [fetchMoreHistory], [fetchMessageSenders], [componentDidMount]);
    - [src/lib/src/message-list/message-list.tsx]: the hook component
      [MessageList] (Recoil atoms for channel, messages and pagination, local
      state [scrolledBottom], [prevMessages], [unreadMessages],
      [fetchingMessages], the emoji picker, and reactions).

    Both merge a history page into the list with
    [[...messages, ...newMessages].sort((a, b) => a.timetoken - b.timetoken)],
    append live messages, and count unread messages while the list is not
    scrolled to the bottom.  Around them: the channel list's
    map/filter/sort pipeline ([src/src/channel-list]), the typing
    indicator's activity filter ([src/src/typing-indicator]), the context
    provider ([src/src/pubnub-provider]), the live-events and React Native
    samples, the Storybook preview, the metro configuration and jest
    mocks.  The
    components meet through the Recoil atoms and callbacks: the channel
    list's [onChannelSwitched] sets the current channel the hook list
    reads, modelled there as the event [ev_switch]; the provider's context
    value is what the class list reads as [this.context]; both lists label
    messages with the same [getTime].

    ** Files (in dependency order)

    - [Prelude] (this file): the [chat_scope], the [result] type of code
      that throws, the [js] monad (state, emitted effects, exceptions;
      state written before a throw persists), the invariant and effect
      combinators [js_preserves] and [js_emits_only] with the tactics
      [js_preserve] and [js_emits], the [chat] hint database, generic list
      and string lemmas, JavaScript's truthiness and [||] on strings, and
      [js_prop], a JSON object's property.
    - [JsSort]: [Array.prototype.sort] with a numeric comparator as the
      stable insertion sort [sort_by]; a sorted, stable permutation, and the
      unique function with these properties ([sort_by_spec_unique]).
    - [Timetoken]: the double a timetoken becomes ([js_number], 53-bit
      significand, ties to even): exact below 2^53, the ties between
      17-digit timetokens in both directions, and an error of at most 8
      for 17-digit timetokens.
    - [Message]: the records of messages (with the hook list's [sender]
      and [attachments]), users and history responses, the sender
      expression and the merge [merge_history] of both lists (C11:
      distinct 17-digit timetokens can be misordered).
    - [ClassList], [ClassEvents]: the class [MessageList]
      ([src/src/message-list/message-list.tsx]).  [ClassList] has every
      handler as a [js] computation split at its [await]s (C1, C4, C9,
      C10), with the well-formedness of the pagination cursor that every
      handler keeps (C27); [ClassEvents] the transition system of mount,
      settled requests, live messages and observer callbacks, with
      reachability (C2, C3, C5-C8) and the refinement of an abstract
      message log: the list is the pages merged in and the live messages
      appended, in event order (C25).
    - [HooksList], [HooksEvents]: the hook [MessageList]
      ([src/lib/src/message-list/message-list.tsx]): the Recoil atoms as a
      per-channel store next to the [useState] values, the commands, event
      handlers and the two effects (C15, C16, C17), and the transition
      system with channel switches, responses settling in any order and
      React's effect order, with the invariants that a list at the bottom
      shows no unread count (C14) and that [fetchingMessages] is only set
      while a first-page request is in flight (C24), the refinement of
      per-channel logs by the messages atoms: a page goes to the channel
      shown when it settles, a live message to its own channel (C26), the
      stale-response and channel-switch counterexamples (C12, C13) and the
      run on an empty channel.
    - [TypingIndicator] ([src/src/typing-indicator]): [parseInt] as the
      ECMAScript algorithm, the decimal round trip, the activity
      window (C18), that typists only drop out as time passes, and the
      returned fragment: the themed label with its [&nbsp;], or one bubble
      per active user with its key, avatar and author.
    - [Clock]: [getTime] of both lists, with the double division by 10000,
      [TimeClip] and the host's local time as the [TimeZone] interface:
      the label is the time of an instant less than 1 ms from the
      timetoken's (C28), and a timetoken in the last 100 microseconds of a
      minute is labelled with the next minute (C29).
    - [ChannelList] ([src/src/channel-list]): the map/filter/sort pipeline
      against a [Collator] interface for [localeCompare] (C19), and the
      returned tree as a value: with distinct ids at most one channel is
      marked active ([render_one_active]).
    - [LiveEventsLayout] ([src/samples/live-events]): the two layout
      effects with [usePrevious] as a render-to-render system; three
      renders always settle (C20, the fuel of [settle] is enough), opening
      a panel on [md] closes the other, and a widened window keeps both
      open (C21); the [Chat] channels prop (the current channel and the
      [-pnpres] channel of each event channel) and the main class.
    - [Senders]: the loop of [fetchMessageSenders] of the class list and
      concurrent runs of it (C22, C23).
    - [Provider] ([src/src/pubnub-provider]): the context value of
      [PubNubProvider] and the default context, composed with the class
      list's transition system: outside a provider or with an empty channel
      the list is stuck after logging its error (C30), inside one it
      subscribes and requests the provider's channel (C31).
    - [ClassRender], [HooksRender]: what [render] and the renderers of
      both lists show, as view values; composed with [Senders], a page
      whose first sender is known renders its unknown senders as "Unknown
      User" (C32), and the hook list's reaction chips agree with the click
      handler (C33).
    - [MetroConfig] ([src/load-tests/react-native/metro.config.js]): Node's
      [path.resolve] and [normalizeString] on POSIX paths, and the
      configuration built from them: the watched folder and the module
      paths for a normal [__dirname] (C34), and for any [__dirname],
      relative ones resolved against the working directory, the
      configuration of the directory it resolves to (C35).
    - [StorybookPreview] ([src/.storybook/preview.js]): the decorator's
      [ChatComponents] props, the [argTypesRegex] test (of the components'
      props, exactly the event callbacks become actions) and the
      [storySort] order.
    - [ReactNativeApp] ([src/samples/getting-started-react-native]): the
      returned tree with the platform-dependent keyboard behaviour.
    - [LiveEventsApp] ([src/samples/live-events]): the application around
      the layout: dark mode, current channel, presence lookups and the
      props of the three views, with the views' events as a reachability
      relation; the render fails exactly on an empty event list (C36), and
      the panels it passes on are always settled (C37, composed with
      [LiveEventsLayout]'s [settle]).

    ** Bounds and fuel

    Fuel appears twice and is proved enough: [settle] renders at most
    three times after an update (C20), and the decimal printer
    [to_decimal] is given [log2 n + 1] digits, at least the number of
    decimal digits of [n].  The loops over events and over path segments
    are structural.  The doubles of [Clock] are exact rationals [m * 2^e]
    with a 53-bit significand: the division of a 17-digit timetoken by
    10000 has an exponent of at most -9, so its rounding error is below
    0.001 ms.

    Not modelled: the JSX markup and CSS beyond the view values (the
    picker's position and emoji-mart options are DOM), the PubNub SDK,
    Recoil, [Intl], expo's [getDefaultConfig] and Storybook's story
    sorting themselves (their calls are effects, inputs or parameters of
    the model), the host's time zone data (an interface), the views of
    the live-events sample (outside the sources; their calls of the
    setters are the events of [LiveEventsApp]), and the jest mocks of
    [src/packages] ([jest.fn] stubs of expo modules and an emoji picker
    for packages outside the sources). *)

From Stdlib Require Import ZArith Lia Sorted Permutation String.
From stdpp Require Import base list strings.

Declare Scope chat_scope.
Delimit Scope chat_scope with chat.

(** ** Errors: JavaScript code that throws *)

(** A computation of the code either returns a value ([Ok]) or throws
    ([Err]); the components catch every exception with [console.error] or
    [onError], so the error is a value the caller inspects. *)
Inductive result (E A : Type) : Type :=
| Ok (a : A)
| Err (e : E).
Arguments Ok {E A} a.
Arguments Err {E A} e.

#[export] Instance result_ret {E} : MRet (result E) := fun _ x => Ok x.
#[export] Instance result_bind {E} : MBind (result E) :=
  fun _ _ f r => match r with Ok a => f a | Err e => Err e end.

Definition is_ok {E A} (r : result E A) : bool :=
  match r with Ok _ => true | Err _ => false end.

(** A string as a condition: [undefined], [null] and [""] are falsy. *)
Definition truthy_str (o : option string) : option string :=
  match o with Some s => if String.eqb s "" then None else Some s | None => None end.

(** [o || d] for a value of type [string | undefined]: JavaScript's [||]
    also falls back on the empty string, which is falsy. *)
Definition js_or_str (o : option string) (d : string) : string :=
  match o with
  | Some s => if String.eqb s "" then d else s
  | None => d
  end.

(** ** Tactics and hints *)

Create HintDb chat.
Create Rewrite HintDb chat.

Ltac invc H := inversion H; subst; clear H.

(** Unfold the definitions given, simplify, and split the [if]s and
    [match]es on booleans and options the code branches on. *)
Ltac chat_simpl :=
  repeat (simpl in *; try case_match; simplify_eq; try done).

(** Replace powers of integer literals by their value, so that [lia] sees
    the constants (it treats [2 ^ 53] as an opaque atom otherwise). *)
Ltac eval_pow :=
  repeat match goal with
    | |- context [(Z.pos ?b ^ Z.pos ?e)%Z] =>
        let v := eval vm_compute in (Z.pos b ^ Z.pos e)%Z in
        change (Z.pos b ^ Z.pos e)%Z with v
    | H : context [(Z.pos ?b ^ Z.pos ?e)%Z] |- _ =>
        let v := eval vm_compute in (Z.pos b ^ Z.pos e)%Z in
        change (Z.pos b ^ Z.pos e)%Z with v in H
    end.

(** [lia] for goals with [/] and [mod] by constants: name the quotients
    and remainders first. *)
Ltac zlia := Z.to_euclidean_division_equations; lia.

(** ** Generic lemmas on lists *)

Section lists.
Context {A : Type}.

Lemma Forall_snoc (P : A -> Prop) (l : list A) (x : A) :
  Forall P (l ++ [x]) <-> Forall P l /\ P x.
Proof. rewrite Forall_app, Forall_singleton. done. Qed.

(** A list sorted for a transitive relation has its head below every
    element of its tail. *)
Lemma Sorted_head_le (R : relation A) `{!Transitive R} x (l : list A) :
  Sorted R (x :: l) -> Forall (R x) l.
Proof.
  intros Hs. apply Sorted_StronglySorted in Hs; [|done].
  by inversion Hs.
Qed.

Lemma Sorted_snoc (R : relation A) `{!Transitive R} (l : list A) x :
  Sorted R l -> Forall (fun y => R y x) l -> Sorted R (l ++ [x]).
Proof.
  induction l as [|y l IH]; intros Hs Hf; simpl; [by constructor|].
  invc Hs. invc Hf. constructor; [by apply IH|].
  match goal with H : HdRel _ _ _ |- _ => destruct l; simpl; invc H end;
    by constructor.
Qed.
Lemma Sorted_snoc_inv (R : relation A) `{!Transitive R} (l : list A) x :
  Sorted R (l ++ [x]) -> Forall (fun y => R y x) l.
Proof.
  intros Hs. apply Sorted_StronglySorted in Hs; [|done].
  induction l as [|y l IH]; simpl in *; [done|].
  invc Hs. constructor; [|by apply IH].
  match goal with H : Forall _ (l ++ [x]) |- _ =>
    apply Forall_app in H as [_ Hx]; by invc Hx end.
Qed.

Lemma Sorted_snoc_iff (R : relation A) `{!Transitive R} (l : list A) x :
  Sorted R l -> Sorted R (l ++ [x]) <-> Forall (fun y => R y x) l.
Proof.
  intros Hs. split; [apply (Sorted_snoc_inv R l x)|]. intros Hf. by apply (Sorted_snoc R l x).
Qed.
End lists.

#[export] Hint Resolve Sorted_head_le Sorted_snoc : chat.

(** ** JavaScript statements: state, emitted effects, exceptions *)

(** A handler of a component runs statements that read and write the
    component's state ([this.state] or the hooks' atoms), call out to the
    outside world (the PubNub SDK, the DOM, callbacks: the emitted effects, in
    order) and may throw.  State written before a throw persists, as in
    JavaScript, so a failed run still returns the state it reached. *)
Section js.
Context {S Ev Er : Type}.

Definition js (A : Type) : Type := S -> list Ev * S * result Er A.

Definition js_ret {A} (a : A) : js A := fun s => ([], s, Ok a).

Definition js_bind {A B} (f : A -> js B) (m : js A) : js B :=
  fun s =>
    match m s with
    | (e1, s1, Ok a) => let '(e2, s2, r) := f a s1 in (e1 ++ e2, s2, r)
    | (e1, s1, Err er) => (e1, s1, Err er)
    end.

Definition js_state : js S := fun s => ([], s, Ok s).
Definition js_modify (f : S -> S) : js unit := fun s => ([], f s, Ok tt).
Definition js_emit (e : Ev) : js unit := fun s => ([e], s, Ok tt).
Definition js_throw {A} (er : Er) : js A := fun s => ([], s, Err er).

(** [try { m } catch (e) { h(e) }] *)
Definition js_catch {A} (m : js A) (h : Er -> js A) : js A :=
  fun s =>
    match m s with
    | (e1, s1, Err er) => let '(e2, s2, r) := h er s1 in (e1 ++ e2, s2, r)
    | o => o
    end.

(** [await] on a settled promise: its value, or a throw of its reason. *)
Definition js_await {A} (p : result Er A) : js A :=
  match p with Ok a => js_ret a | Err er => js_throw er end.

(** The final state and the effects of a run. *)
Definition js_exec {A} (m : js A) (s : S) : S := (m s).1.2.
Definition js_effects {A} (m : js A) (s : S) : list Ev := (m s).1.1.

Lemma js_bind_ret_l {A B} (a : A) (f : A -> js B) s :
  js_bind f (js_ret a) s = f a s.
Proof. unfold js_bind, js_ret. simpl. by destruct (f a s) as [[??]?]. Qed.

Lemma js_exec_bind_ok {A B} (m : js A) (f : A -> js B) s a :
  (m s).2 = Ok a -> js_exec (js_bind f m) s = js_exec (f a) (js_exec m s).
Proof.
  unfold js_exec, js_bind. destruct (m s) as [[e1 s1] r]. simpl. intros ->.
  by destruct (f a s1) as [[??]?].
Qed.

Lemma js_effects_bind_ok {A B} (m : js A) (f : A -> js B) s a :
  (m s).2 = Ok a -> js_effects (js_bind f m) s = js_effects m s ++ js_effects (f a) (js_exec m s).
Proof.
  unfold js_exec, js_effects, js_bind. destruct (m s) as [[e1 s1] r]. simpl. intros ->.
  by destruct (f a s1) as [[??]?].
Qed.

Lemma js_bind_assoc {A B C} (m : js A) (f : A -> js B) (g : B -> js C) s :
  js_bind g (js_bind f m) s = js_bind (fun a => js_bind g (f a)) m s.
Proof.
  unfold js_bind. destruct (m s) as [[e1 s1] [a|er]]; [|done].
  destruct (f a s1) as [[e2 s2] [b|er]]; [|done].
  destruct (g b s2) as [[e3 s3] r]. by rewrite app_assoc.
Qed.
End js.

#[export] Instance js_mret {S Ev Er} : MRet (@js S Ev Er) := @js_ret S Ev Er.
#[export] Instance js_mbind {S Ev Er} : MBind (@js S Ev Er) := @js_bind S Ev Er.

#[export] Hint Rewrite @js_bind_ret_l @js_bind_assoc : chat.

(** Unfold the monad's combinators in a goal about a concrete handler. *)
Ltac js_run :=
  unfold mbind, mret, js_mbind, js_mret, js_bind, js_ret, js_state, js_emit,
    js_modify, js_throw, js_catch, js_await, js_exec, js_effects; simpl.

(** ** Invariants of the state *)

(** [m] keeps [P] of the state: every run from a state satisfying [P]
    ends in one, also when it throws. *)
Section preserves.
Context {S Ev Er : Type} (P : S -> Prop).

Definition js_preserves {A} (m : @js S Ev Er A) : Prop := forall s, P s -> P (js_exec m s).

Lemma js_preserves_bind {A B} (m : js A) (f : A -> js B) :
  js_preserves m -> (forall a, js_preserves (f a)) -> js_preserves (js_bind f m).
Proof.
  intros Hm Hf s Hs. specialize (Hm s Hs). unfold js_exec, js_bind in *.
  destruct (m s) as [[e1 s1] [a|er]]; [|done].
  specialize (Hf a s1 Hm). unfold js_exec in Hf. destruct (f a s1) as [[e2 s2] r]. done.
Qed.

(** A handler that reads the state first: [P] of the state it read. *)
Lemma js_preserves_read {A} (f : S -> js A) :
  (forall s, P s -> P (js_exec (f s) s)) -> js_preserves (js_bind f js_state).
Proof.
  intros Hf s Hs. specialize (Hf s Hs). unfold js_exec, js_bind, js_state in *. simpl.
  destruct (f s s) as [[e2 s2] r]. done.
Qed.

Lemma js_preserves_ret {A} (a : A) : js_preserves (js_ret a).
Proof. intros s Hs. done. Qed.

Lemma js_preserves_state : js_preserves js_state.
Proof. intros s Hs. done. Qed.

Lemma js_preserves_emit e : js_preserves (js_emit e).
Proof. intros s Hs. done. Qed.

Lemma js_preserves_throw {A} er : js_preserves (@js_throw S Ev Er A er).
Proof. intros s Hs. done. Qed.

Lemma js_preserves_await {A} (p : result Er A) : js_preserves (js_await p).
Proof. destruct p; [apply js_preserves_ret|apply js_preserves_throw]. Qed.

Lemma js_preserves_modify f : (forall s, P s -> P (f s)) -> js_preserves (js_modify f).
Proof. intros Hf s Hs. by apply Hf. Qed.

Lemma js_preserves_catch {A} (m : js A) h :
  js_preserves m -> (forall er, js_preserves (h er)) -> js_preserves (js_catch m h).
Proof.
  intros Hm Hh s Hs. specialize (Hm s Hs). unfold js_exec, js_catch in *.
  destruct (m s) as [[e1 s1] [a|er]]; [done|].
  specialize (Hh er s1 Hm). unfold js_exec in Hh. destruct (h er s1) as [[e2 s2] r]. done.
Qed.
End preserves.

(** [m] emits only effects satisfying [Q], from every state. *)
Section emits_only.
Context {S Ev Er : Type} (Q : Ev -> Prop).

Definition js_emits_only {A} (m : @js S Ev Er A) : Prop := forall s, Forall Q (js_effects m s).

Lemma js_emits_only_bind {A B} (m : js A) (f : A -> js B) :
  js_emits_only m -> (forall a, js_emits_only (f a)) -> js_emits_only (js_bind f m).
Proof.
  intros Hm Hf s. specialize (Hm s). unfold js_effects, js_bind in *.
  destruct (m s) as [[e1 s1] [a|er]]; [|done].
  specialize (Hf a s1). unfold js_effects in Hf. destruct (f a s1) as [[e2 s2] r].
  by apply Forall_app.
Qed.

Lemma js_emits_only_catch {A} (m : js A) h :
  js_emits_only m -> (forall er, js_emits_only (h er)) -> js_emits_only (js_catch m h).
Proof.
  intros Hm Hh s. specialize (Hm s). unfold js_effects, js_catch in *.
  destruct (m s) as [[e1 s1] [a|er]]; [done|].
  specialize (Hh er s1). unfold js_effects in Hh. destruct (h er s1) as [[e2 s2] r].
  by apply Forall_app.
Qed.

Lemma js_emits_only_ret {A} (a : A) : js_emits_only (js_ret a).
Proof. intros s. constructor. Qed.
Lemma js_emits_only_state : js_emits_only js_state.
Proof. intros s. constructor. Qed.
Lemma js_emits_only_modify f : js_emits_only (js_modify f).
Proof. intros s. constructor. Qed.
Lemma js_emits_only_throw {A} er : js_emits_only (@js_throw S Ev Er A er).
Proof. intros s. constructor. Qed.
Lemma js_emits_only_await {A} (p : result Er A) : js_emits_only (js_await p).
Proof. destruct p; [apply js_emits_only_ret|apply js_emits_only_throw]. Qed.
Lemma js_emits_only_emit e : Q e -> js_emits_only (js_emit e).
Proof. intros He s. by constructor. Qed.
End emits_only.

(** Reduce [js_preserves P m] for a handler [m] to the updates it makes:
    what is left are goals [forall s, P s -> P (f s)], one per
    [js_modify f]. *)
Ltac js_preserve :=
  unfold mbind, mret, js_mbind, js_mret;
  repeat first
    [ assumption
    | apply js_preserves_bind; [|intros ?]
    | apply js_preserves_catch; [|intros ?]
    | apply js_preserves_ret | apply js_preserves_state | apply js_preserves_emit
    | apply js_preserves_throw | apply js_preserves_await
    | apply js_preserves_modify
    | progress case_match ].

(** Reduce [js_emits_only Q m] to [Q e] for the effects [e] it emits. *)
Ltac js_emits :=
  unfold mbind, mret, js_mbind, js_mret;
  repeat first
    [ assumption
    | apply js_emits_only_bind; [|intros ?]
    | apply js_emits_only_catch; [|intros ?]
    | apply js_emits_only_ret | apply js_emits_only_state | apply js_emits_only_modify
    | apply js_emits_only_throw | apply js_emits_only_await
    | apply js_emits_only_emit
    | progress case_match ].

(** ** JavaScript objects used as dictionaries *)

(** [o[k]] on a plain object read from JSON: the first binding of [k], or
    [undefined]. *)
Fixpoint js_prop {V} (k : string) (o : list (string * V)) : option V :=
  match o with
  | [] => None
  | (k', v) :: o' => if String.eqb k k' then Some v else js_prop k o'
  end.

(** On an object read from JSON (distinct keys), [o[k]] is the value bound
    to [k]. *)
Lemma js_prop_elem {V} (o : list (string * V)) k v :
  NoDup (fst <$> o) -> (k, v) ∈ o -> js_prop k o = Some v.
Proof.
  induction o as [|[k' v'] o IH]; simpl; [by intros _ ?%not_elem_of_nil|].
  intros [Hk Hnd]%NoDup_cons [[= -> ->]|Hin]%elem_of_cons.
  - by rewrite String.eqb_refl.
  - destruct (String.eqb_spec k k') as [->|]; [|by apply IH].
    exfalso. apply Hk, list_elem_of_fmap. by exists (k', v).
Qed.

Lemma string_app_assoc (a b c : string) : ((a ++ b) ++ c)%string = (a ++ b ++ c)%string.
Proof. induction a as [|x a IH]; [done|]. exact (f_equal (String x) IH). Qed.
#[export] Hint Rewrite string_app_assoc : chat.

Lemma Sorted_mono {A} (R R' : relation A) (l : list A) :
  (forall x y, R x y -> R' x y) -> Sorted R l -> Sorted R' l.
Proof. intros HR. induction 1 as [|x l _ IH Hhd]; constructor; [done|]. destruct Hhd; constructor; auto. Qed.
