(* ===== verification/JsSort.v ===== *)
(** * [Array.prototype.sort] with a numeric comparator

    Both message lists sort with [(a, b) => key a - key b].  Since ES2019
    [Array.prototype.sort] is stable, and for a comparator that is a
    consistent total preorder the sorted result is then determined: it is
    the permutation of the input that is ordered by the key and keeps the
    input order among elements with equal keys.  [sort_by] computes it by
    stable insertion; [sort_by_spec_unique] shows that every function with
    these three properties (a conforming engine's sort) agrees with it. *)

From Stdlib Require Import ZArith Lia Sorted Permutation.
From stdpp Require Import base list.
From S2P Require Import Prelude.

Section sort_by.
Context {A : Type} (key : A -> Z).

(** Ordered by the comparator [key a - key b <= 0]. *)
Definition key_le (a b : A) : Prop := (key a <= key b)%Z.

#[export] Instance key_le_trans : Transitive key_le.
Proof. unfold key_le. intros ???; lia. Qed.

(** [x] comes before the elements of [l] in the input, so it is put in
    front of the first element whose key is not smaller. *)
Fixpoint insert_by (x : A) (l : list A) : list A :=
  match l with
  | [] => [x]
  | y :: l' => if Z.leb (key x) (key y) then x :: y :: l' else y :: insert_by x l'
  end.

Fixpoint sort_by (l : list A) : list A :=
  match l with
  | [] => []
  | x :: l' => insert_by x (sort_by l')
  end.

(** The elements with key [k], in order. *)
Definition key_class (k : Z) (l : list A) : list A := filter (fun x => key x = k) l.

(** ** Lemmas on [insert_by] *)

Lemma insert_by_perm x l : insert_by x l ≡ₚ x :: l.
Proof.
  induction l as [|y l IH]; simpl; [done|].
  destruct (Z.leb_spec (key x) (key y)); [done|].
  rewrite IH. apply perm_swap.
Qed.

Lemma insert_by_sorted x l : Sorted key_le l -> Sorted key_le (insert_by x l).
Proof.
  induction 1 as [|y l Hs IH Hhd]; simpl; [by repeat constructor|].
  destruct (Z.leb_spec (key x) (key y)) as [Hle|Hlt].
  { by repeat constructor. }
  constructor; [done|]. destruct l as [|z l]; simpl.
  { constructor. unfold key_le. lia. }
  invc Hhd. destruct (Z.leb_spec (key x) (key z)); constructor; unfold key_le in *; lia.
Qed.

Lemma key_class_insert_by k x l :
  Sorted key_le l ->
  key_class k (insert_by x l) = key_class k (x :: l).
Proof.
  unfold key_class. intros Hs. induction l as [|y l IH]; simpl; [done|].
  destruct (Z.leb_spec (key x) (key y)) as [Hle|Hlt]; [done|].
  pose proof (Sorted_head_le key_le y l Hs) as Hf.
  rewrite filter_cons, IH by (by invc Hs).
  rewrite !filter_cons.
  destruct (decide (key x = k)), (decide (key y = k)); try done; lia.
Qed.

(** ** The three properties of a stable sort *)

Lemma sort_by_perm l : sort_by l ≡ₚ l.
Proof.
  induction l as [|x l IH]; simpl; [done|]. by rewrite insert_by_perm, IH.
Qed.

Lemma sort_by_sorted l : Sorted key_le (sort_by l).
Proof. induction l; simpl; [constructor|]. by apply insert_by_sorted. Qed.

Lemma sort_by_stable k l : key_class k (sort_by l) = key_class k l.
Proof.
  induction l as [|x l IH]; simpl; [done|].
  rewrite key_class_insert_by by apply sort_by_sorted.
  unfold key_class in *. rewrite !filter_cons, IH. done.
Qed.

(** ** Uniqueness *)

(** Two lists ordered by the key that have the same elements of each key,
    in the same order, are equal. *)
Lemma sorted_key_classes_eq l1 l2 :
  Sorted key_le l1 -> Sorted key_le l2 ->
  (forall k, key_class k l1 = key_class k l2) -> l1 = l2.
Proof.
  revert l2. induction l1 as [|x l1 IH]; intros [|y l2] Hs1 Hs2 Hk.
  - done.
  - specialize (Hk (key y)). unfold key_class in Hk.
    rewrite filter_cons_True in Hk by done. done.
  - specialize (Hk (key x)). unfold key_class in Hk.
    rewrite filter_cons_True in Hk by done. done.
  - pose proof (Sorted_head_le key_le x l1 Hs1) as Hf1.
    pose proof (Sorted_head_le key_le y l2 Hs2) as Hf2.
    assert (Hx : x ∈ y :: l2).
    { assert (x ∈ key_class (key x) (x :: l1)) as Hin.
      { unfold key_class. rewrite filter_cons_True by done. left. }
      rewrite Hk in Hin. by apply list_elem_of_filter in Hin as [_ ?]. }
    assert (Hy : y ∈ x :: l1).
    { assert (y ∈ key_class (key y) (y :: l2)) as Hin.
      { unfold key_class. rewrite filter_cons_True by done. left. }
      rewrite <-Hk in Hin. by apply list_elem_of_filter in Hin as [_ ?]. }
    assert (Hxy : key x = key y).
    { apply elem_of_cons in Hx as [->|Hx]; [done|].
      apply elem_of_cons in Hy as [->|Hy]; [done|].
      rewrite Forall_forall in Hf1, Hf2.
      specialize (Hf1 _ Hy). specialize (Hf2 _ Hx). unfold key_le in *. lia. }
    pose proof (Hk (key x)) as Hkx. unfold key_class in Hkx.
    rewrite !filter_cons_True in Hkx by done. injection Hkx as <- Hkx.
    f_equal. apply IH; [by invc Hs1|by invc Hs2|].
    intros k. specialize (Hk k). unfold key_class in *.
    rewrite !filter_cons in Hk. by case_decide; [injection Hk|].
Qed.

(** A sort function meets the ECMAScript contract when its result is a
    permutation of its input, ordered by the comparator, and stable. *)
Definition stable_sort_spec (sort : list A -> list A) : Prop :=
  forall l, sort l ≡ₚ l /\ Sorted key_le (sort l) /\
            forall k, key_class k (sort l) = key_class k l.

Lemma sort_by_meets_spec : stable_sort_spec sort_by.
Proof.
  intros l. split; [apply sort_by_perm|].
  split; [apply sort_by_sorted|]. intros k. apply sort_by_stable.
Qed.

(** [sort_by] is the sort of every conforming engine: any function
    whose results are permutations of its inputs, ordered by the comparator
    and stable, computes the same list as [sort_by]. *)
Theorem sort_by_spec_unique sort l : stable_sort_spec sort -> sort l = sort_by l.
Proof.
  intros Hspec. destruct (Hspec l) as (_ & Hs & Hk).
  apply sorted_key_classes_eq; [done|apply sort_by_sorted|].
  intros k. by rewrite Hk, sort_by_stable.
Qed.

(** Sorting a list that is already in order returns it unchanged. *)
Lemma sort_by_sorted_id l : Sorted key_le l -> sort_by l = l.
Proof.
  intros Hs. symmetry. apply sorted_key_classes_eq; [done|apply sort_by_sorted|].
  intros k. by rewrite sort_by_stable.
Qed.

Lemma sort_by_idempotent l : sort_by (sort_by l) = sort_by l.
Proof. apply sort_by_sorted_id, sort_by_sorted. Qed.

Lemma sort_by_length l : length (sort_by l) = length l.
Proof. apply Permutation_length, sort_by_perm. Qed.

Lemma elem_of_sort_by x l : x ∈ sort_by l <-> x ∈ l.
Proof. by rewrite sort_by_perm. Qed.
End sort_by.

Lemma sort_by_spec_unique_witness :
  sort_by (fun z : Z => z) [3; 1; 2]%Z = sort_by (fun z : Z => z) [3; 1; 2]%Z.
Proof.
  apply (sort_by_spec_unique (fun z : Z => z) (sort_by (fun z : Z => z))).
  apply sort_by_meets_spec.
Defined.

#[export] Hint Resolve sort_by_sorted sort_by_perm : chat.
#[export] Hint Rewrite @sort_by_length @elem_of_sort_by @sort_by_stable : chat.
