(* ===== verification/Timetoken.v ===== *)
(** * Timetokens as JavaScript numbers

    A PubNub timetoken is a 17-digit count of 100-nanosecond ticks
    (10^16 <= tt < 10^17).  The message lists compare two messages with
    [(a.timetoken as number) - (b.timetoken as number)]: the cast is only a
    type annotation, and the subtraction converts both operands to IEEE-754
    doubles (string timetokens go through [ToNumber]).  For two doubles the
    sign of the rounded difference is the sign of the exact difference, so
    the comparator compares the rounded values [js_number a] and
    [js_number b].  [js_number] rounds an integer to the nearest double
    (53-bit significand, ties to even); it is exact below 2^53 and the
    integers above 2^1024, which would overflow to [Infinity], are far
    beyond any timetoken. *)

From Stdlib Require Import ZArith Lia.
From stdpp Require Import base.
From S2P Require Import Prelude.

Local Open Scope Z_scope.

(** Round a non-negative integer to the nearest double. *)
Definition round_double (n : Z) : Z :=
  if n <? 2 ^ 53 then n
  else
    let s := Z.log2 n - 52 in
    let q := Z.shiftr n s in
    let r := n - Z.shiftl q s in
    let half := 2 ^ (s - 1) in
    if (half <? r) || ((r =? half) && Z.odd q)
    then Z.shiftl (q + 1) s
    else Z.shiftl q s.

(** [ToNumber] of an integer-valued timetoken. *)
Definition js_number (n : Z) : Z :=
  if n <? 0 then - round_double (- n) else round_double n.

(** The smallest and largest 17-digit timetokens. *)
Definition min_timetoken : Z := 10 ^ 16.
Definition max_timetoken : Z := 10 ^ 17 - 1.

(** Below 2^53 in absolute value [js_number] is the identity: the
    comparator compares such timetokens exactly. *)
Theorem js_number_exact n : - 2 ^ 53 < n < 2 ^ 53 -> js_number n = n.
Proof.
  intros Hn. unfold js_number, round_double.
  destruct (Z.ltb_spec n 0); [|destruct (Z.ltb_spec n (2 ^ 53)); lia].
  destruct (Z.ltb_spec (- n) (2 ^ 53)); lia.
Qed.

Lemma js_number_exact_witness : js_number 123456789 = 123456789.
Proof. apply js_number_exact. eval_pow. lia. Defined.

(** Every 17-digit timetoken lies above 2^53, where doubles are at least two
    apart. *)
Lemma timetoken_above_2_53 tt : min_timetoken <= tt -> 2 ^ 53 < tt.
Proof. unfold min_timetoken. intros. lia. Qed.

(** Between 2^53 and 2^54 every even integer is a double. *)
Lemma js_number_even n : 2 ^ 53 <= n < 2 ^ 54 -> n mod 2 = 0 -> js_number n = n.
Proof.
  intros Hn H2. apply Z.mod_divide in H2 as [k ->]; [|lia].
  unfold js_number, round_double. eval_pow.
  destruct (Z.ltb_spec (k * 2) 0); [lia|].
  destruct (Z.ltb_spec (k * 2) 9007199254740992); [lia|].
  assert (Hlog : Z.log2 (k * 2) = 53)
    by (apply Z.log2_unique; [lia|]; simpl Z.succ; eval_pow; lia).
  rewrite Hlog. change (53 - 52) with 1. change (1 - 1) with 0.
  rewrite Z.shiftr_div_pow2, !Z.shiftl_mul_pow2 by lia.
  rewrite Z.pow_0_r, Z.pow_1_r, Z.div_mul by lia.
  replace (k * 2 - k * 2) with 0 by lia. simpl. lia.
Qed.

(** Between 2^53 and 2^54 the doubles are the even integers: an odd
    integer [n + 1] with [n] a multiple of 4 is a tie and rounds down to the
    even significand [n]. *)
Theorem js_number_tie_down n :
  2 ^ 53 <= n < 2 ^ 54 -> n mod 4 = 0 -> js_number (n + 1) = n.
Proof.
  intros Hn H4. apply Z.mod_divide in H4 as [k ->]; [|lia].
  unfold js_number, round_double. eval_pow.
  destruct (Z.ltb_spec (k * 4 + 1) 0); [lia|].
  destruct (Z.ltb_spec (k * 4 + 1) 9007199254740992); [lia|].
  assert (Hlog : Z.log2 (k * 4 + 1) = 53)
    by (apply Z.log2_unique; [lia|]; simpl Z.succ; eval_pow; lia).
  rewrite Hlog. change (53 - 52) with 1. change (1 - 1) with 0.
  rewrite Z.shiftr_div_pow2, !Z.shiftl_mul_pow2 by lia.
  assert (Hq : (k * 4 + 1) / 2 ^ 1 = 2 * k) by (rewrite Z.pow_1_r; zlia).
  rewrite Hq, Z.odd_mul, Z.pow_0_r, Z.pow_1_r.
  replace (k * 4 + 1 - 2 * k * 2) with 1 by lia.
  rewrite Z.ltb_irrefl, Z.eqb_refl. simpl. lia.
Qed.

Lemma js_number_tie_down_witness : js_number (16000000000000000 + 1) = 16000000000000000.
Proof. apply js_number_tie_down; [eval_pow; lia|reflexivity]. Defined.

(** The other tie: [n - 1] with [n] a multiple of 4 rounds up to [n]. *)
Lemma js_number_tie_up n : 2 ^ 53 < n < 2 ^ 54 -> n mod 4 = 0 -> js_number (n - 1) = n.
Proof.
  intros Hn H4. apply Z.mod_divide in H4 as [k ->]; [|lia].
  unfold js_number, round_double. eval_pow.
  destruct (Z.ltb_spec (k * 4 - 1) 0); [lia|].
  destruct (Z.ltb_spec (k * 4 - 1) 9007199254740992); [lia|].
  assert (Hlog : Z.log2 (k * 4 - 1) = 53)
    by (apply Z.log2_unique; [lia|]; simpl Z.succ; eval_pow; lia).
  rewrite Hlog. change (53 - 52) with 1. change (1 - 1) with 0.
  rewrite Z.shiftr_div_pow2, !Z.shiftl_mul_pow2 by lia.
  assert (Hq : (k * 4 - 1) / 2 ^ 1 = 2 * k - 1) by (rewrite Z.pow_1_r; zlia).
  rewrite Hq, Z.pow_0_r, Z.pow_1_r.
  replace (k * 4 - 1 - (2 * k - 1) * 2) with 1 by lia.
  replace (Z.odd (2 * k - 1)) with true
    by (replace (2 * k - 1) with (1 + 2 * (k - 1)) by lia; rewrite Z.odd_add_mul_2; reflexivity).
  rewrite Z.ltb_irrefl, Z.eqb_refl. simpl. lia.
Qed.

(** Rounding to a double moves an integer above 2^53 by at most half the
    spacing of the doubles around it. *)
Lemma round_double_error n :
  2 ^ 53 <= n -> Z.abs (round_double n - n) <= 2 ^ (Z.log2 n - 53).
Proof.
  intros Hn. unfold round_double. destruct (Z.ltb_spec n (2 ^ 53)); [lia|].
  assert (Hl : 53 <= Z.log2 n).
  { rewrite <-(Z.log2_pow2 53) by lia. apply Z.log2_le_mono; lia. }
  set (s := Z.log2 n - 52).
  rewrite Z.shiftr_div_pow2, !Z.shiftl_mul_pow2 by lia.
  assert (H2 : 2 ^ s = 2 * 2 ^ (s - 1)) by (rewrite <-Z.pow_succ_r by lia; f_equal; lia).
  replace (Z.log2 n - 53) with (s - 1) by lia.
  pose proof (Z.mod_pos_bound n (2 ^ s) ltac:(lia)) as Hm.
  pose proof (Z.div_mod n (2 ^ s) ltac:(lia)) as Hd.
  rewrite Z.mul_add_distr_r, Z.mul_1_l.
  rewrite (Z.mul_comm (n / 2 ^ s)) in *.
  set (P := 2 ^ s * (n / 2 ^ s)) in *. set (h := 2 ^ (s - 1)) in *.
  destruct (Z.ltb_spec h (n - P)), (Z.eqb_spec (n - P) h), (Z.odd (n / 2 ^ s)); simpl; lia.
Qed.

(** A 17-digit timetoken becomes a double at most 8 away: the doubles
    between 2^53 and 10^17 < 2^57 are at most 16 apart. *)
Lemma js_number_timetoken_error tt :
  min_timetoken <= tt <= max_timetoken -> Z.abs (js_number tt - tt) <= 8.
Proof.
  unfold min_timetoken, max_timetoken. intros Htt.
  unfold js_number. destruct (Z.ltb_spec tt 0); [lia|].
  assert (Hl : Z.log2 tt <= 56).
  { apply Z.lt_succ_r, Z.log2_lt_pow2; [lia|]. eval_pow. lia. }
  etransitivity; [apply round_double_error; eval_pow; lia|].
  change 8 with (2 ^ 3). apply Z.pow_le_mono_r; lia.
Qed.
