(* ===== verification/Message.v ===== *)
(** * Messages, users and history responses

    The data both message lists share: [MessageListMessage] and
    [MessageListUser] of [src/src/message-list/message-list.tsx], the part
    of the SDK's [FetchMessagesResponse] the lists read, the sender
    expression of [renderItem] and [renderMessage], and the merge of a
    history page into the list ([handleHistoryFetch] of both components). *)

From Stdlib Require Import ZArith Lia Sorted Permutation String.
From stdpp Require Import base list strings.
From S2P Require Import Prelude JsSort Timetoken.

(** [{ uuid, actionTimetoken }], one user's reaction. *)
Record ActionInstance := {
  action_uuid : string;
  actionTimetoken : Z;
}.

Record MessageListUser := {
  user_id : string;
  user_name : option string;
  profileUrl : option string;
}.

(** An attachment of the hook list's [Message] ([ImageAttachment] or
    [LinkAttachment] of [../types], not in the sources): its [type] and the
    optional fields the renderer reads. *)
Record Attachment := {
  att_type : string;                   (** ["image"] or ["link"] *)
  att_image : option string;           (** [image?.source] *)
  att_icon : option string;            (** [icon?.source] *)
  att_provider_name : option string;   (** [provider?.name] *)
  att_provider_url : option string;    (** [provider?.url] *)
  att_title : option string;
  att_description : option string;
}.

(** [MessageListMessage]: [message.text] is the payload the list renders;
    the hook list also reads [message.sender] and [message.attachments];
    [actions] maps an action type to a map from value to the instances
    (kept as association lists: [Object.keys] order is insertion order). *)
Record MessageListMessage := {
  channel : string;
  text : string;
  sender : option MessageListUser;
  attachments : option (list Attachment);
  timetoken : Z;
  publisher : option string;
  uuid : option string;
  actions : list (string * list (string * list ActionInstance));
}.

(** [FetchMessagesResponse]: [channels] maps a channel name to its page of
    messages, oldest first. *)
Record FetchMessagesResponse := {
  channels : list (string * list MessageListMessage);
}.

(** The comparator's key: the timetoken as a JavaScript number. *)
Definition tt_key (m : MessageListMessage) : Z := js_number (timetoken m).

(** [message.uuid || message.publisher || ""] *)
Definition sender_uuid (m : MessageListMessage) : string :=
  js_or_str (uuid m) (js_or_str (publisher m) "").

(** [response.channels[channel] || []] *)
Definition page_of (ch : string) (response : FetchMessagesResponse) : list MessageListMessage :=
  default [] (js_prop ch (channels response)).

(** [[...messages, ...newMessages].sort((a, b) => a.timetoken - b.timetoken)] *)
Definition merge_history (messages newMessages : list MessageListMessage) : list MessageListMessage :=
  sort_by tt_key (messages ++ newMessages).

(** The list is ordered by the comparator. *)
Definition tt_sorted (l : list MessageListMessage) : Prop := Sorted (key_le tt_key) l.

(** The same, as a test of adjacent pairs. *)
Fixpoint tt_sortedb (l : list MessageListMessage) : bool :=
  match l with
  | x :: (y :: _) as l' => Z.leb (tt_key x) (tt_key y) && tt_sortedb l'
  | _ => true
  end.

(** Distinct timetokens: no message appears twice. *)
Definition tt_unique (l : list MessageListMessage) : Prop := NoDup (timetoken <$> l).

(** A message of channel ["demo"] with timetoken [t], for concrete runs. *)
Definition demo_message (t : Z) : MessageListMessage := {|
  channel := "demo"; text := "hello"; sender := None; attachments := None; timetoken := t; publisher := Some "alice";
  uuid := None; actions := [];
|}.

(** A response carrying [ms] for channel ["demo"]. *)
Definition demo_response (ms : list MessageListMessage) : FetchMessagesResponse :=
  {| channels := [("demo", ms)] |}.

(** ** Lemmas on the merge *)

Lemma merge_history_sorted ms new : tt_sorted (merge_history ms new).
Proof. apply sort_by_sorted. Qed.

Lemma merge_history_perm ms new : merge_history ms new ≡ₚ ms ++ new.
Proof. apply sort_by_perm. Qed.

Lemma merge_history_length ms new :
  length (merge_history ms new) = length ms + length new.
Proof. unfold merge_history. by rewrite sort_by_length, length_app. Qed.

Lemma merge_history_nil_r ms : tt_sorted ms -> merge_history ms [] = ms.
Proof. intros Hs. unfold merge_history. rewrite app_nil_r. by apply sort_by_sorted_id. Qed.

Lemma tt_sortedb_spec l : tt_sortedb l = true <-> tt_sorted l.
Proof.
  unfold tt_sorted. induction l as [|x [|y l] IH]; simpl.
  - split; constructor.
  - split; [repeat constructor|done].
  - rewrite andb_true_iff, Z.leb_le, IH. split.
    + intros [Hxy Hs]. by constructor; [|constructor].
    + intros Hs. apply Sorted_inv in Hs as [Hs Hh]. invc Hh. done.
Qed.

Lemma tt_unique_perm l1 l2 : l1 ≡ₚ l2 -> tt_unique l1 <-> tt_unique l2.
Proof. intros Hp. unfold tt_unique. by rewrite Hp. Qed.

(** A message present in both halves of a concatenation makes its
    timetoken appear twice. *)
Lemma not_tt_unique_app l1 l2 m : m ∈ l1 -> m ∈ l2 -> ~ tt_unique (l1 ++ l2).
Proof.
  unfold tt_unique. intros H1 H2 Hnd. rewrite fmap_app in Hnd.
  apply NoDup_app in Hnd as (_ & Hdis & _).
  apply (Hdis (timetoken m)); by apply list_elem_of_fmap_2.
Qed.

(** C11: distinct 17-digit timetokens can compare equal as doubles: for
    [n] a multiple of 4 between 2^53 and 2^54 (today's timetokens are about
    1.7 * 10^16, in that range), the merge keeps a message with timetoken
    [n + 1] before one with timetoken [n], so the list is not in timetoken
    order. *)
Theorem merge_history_misorders n :
  (2 ^ 53 <= n < 2 ^ 54)%Z -> (n mod 4 = 0)%Z ->
  let r := merge_history [] [demo_message (n + 1); demo_message n] in
  r = [demo_message (n + 1); demo_message n] /\
  ~ Sorted (fun a b => (timetoken a <= timetoken b)%Z) r.
Proof.
  intros Hn H4 r. subst r.
  assert (Hk : tt_key (demo_message (n + 1)) = tt_key (demo_message n)).
  { unfold tt_key. simpl. rewrite js_number_tie_down, js_number_even by (done || zlia).
    done. }
  unfold merge_history. simpl. rewrite Hk, Z.leb_refl. split; [done|].
  intros Hs. apply Sorted_inv in Hs as [_ Hhd]. invc Hhd. simpl in *. lia.
Qed.

Lemma merge_history_misorders_witness :
  let r := merge_history [] [demo_message (16000000000000000 + 1); demo_message 16000000000000000] in
  r = [demo_message (16000000000000000 + 1); demo_message 16000000000000000] /\
  ~ Sorted (fun a b => (timetoken a <= timetoken b)%Z) r.
Proof. apply merge_history_misorders; [eval_pow; lia|reflexivity]. Defined.

