(* ===== verification/ClassList.v ===== *)
(** * The class component [MessageList] (src/src/message-list/message-list.tsx)

    [MessageListState] is the component's React state.  Every handler is a
    computation of the [js] monad of [Prelude]: it reads and writes the state
    (a class component's [setState] outside React's batched event handlers
    applies at once, so [this.state] read afterwards sees it), emits the
    calls it makes to the SDK and the DOM as [effect]s, and throws an
    [error].  An [async] method is split at its [await]: the part that runs
    up to the request, and the part that runs when the promise settles,
    with the settled value as argument. *)

From Stdlib Require Import ZArith Lia Sorted Permutation String.
From stdpp Require Import base list strings sets.
From S2P Require Import Prelude JsSort Timetoken Message.

Module ClassMessageList.

(** [MessageListProps], the parts that drive behaviour. *)
Record MessageListProps := {
  disableUserFetch : bool;
  users_prop : list MessageListUser;
  disableHistoryFetch : bool;
  onMessage_set : bool;
}.

(** [PubNubContextProps]: the client, given by its [getUUID()], and the
    channel. *)
Record PubNubContextProps := {
  pubnub : option string;
  ctx_channel : string;
}.

Record MessageListState := {
  messages : list MessageListMessage;
  messagesPerPage : nat;
  pagination : option Z;
  paginationEnd : bool;
  scrolledBottom : bool;
  unreadMessages : nat;
  users : list MessageListUser;
}.

(** The constructor's [this.state]. *)
Definition initial_state : MessageListState := {|
  messages := []; messagesPerPage := 100; pagination := None;
  paginationEnd := false; scrolledBottom := true; unreadMessages := 0;
  users := [];
|}.

(** What the component throws. *)
Inductive error :=
| NoContext          (** "Message List has no access to context. ..." *)
| EmptyChannel       (** "PubNubProvider was initialized with an empty channel name." *)
| TypeError          (** reading [timetoken] of [allMessages[0]], undefined *)
| FetchFailed (reason : string).  (** a rejected SDK promise *)

(** The calls the component makes to the outside world. *)
Inductive effect :=
| FetchMessages (ch : string) (count : nat) (start : option Z)
| FetchSenders (ms : list MessageListMessage)
| AddListener
| Subscribe (ch : string)
| ScrollToBottom
| ScrollFirstIntoView
| SetupSpinnerObserver
| SetupBottomObserver
| OnMessage (m : MessageListMessage)
| ConsoleError (e : error).

Abbreviation M := (@js MessageListState effect error).

(** ** [setState] calls *)

Definition set_history (ms : list MessageListMessage) (pg : option Z) (pe : bool)
    (s : MessageListState) : MessageListState := {|
  messages := ms; messagesPerPage := messagesPerPage s; pagination := pg;
  paginationEnd := pe; scrolledBottom := scrolledBottom s;
  unreadMessages := unreadMessages s; users := users s;
|}.

Definition set_messages (ms : list MessageListMessage) (s : MessageListState) :
    MessageListState := {|
  messages := ms; messagesPerPage := messagesPerPage s; pagination := pagination s;
  paginationEnd := paginationEnd s; scrolledBottom := scrolledBottom s;
  unreadMessages := unreadMessages s; users := users s;
|}.

Definition set_unread (n : nat) (s : MessageListState) : MessageListState := {|
  messages := messages s; messagesPerPage := messagesPerPage s;
  pagination := pagination s; paginationEnd := paginationEnd s;
  scrolledBottom := scrolledBottom s; unreadMessages := n; users := users s;
|}.

Definition set_scrolledBottom (b : bool) (s : MessageListState) : MessageListState := {|
  messages := messages s; messagesPerPage := messagesPerPage s;
  pagination := pagination s; paginationEnd := paginationEnd s;
  scrolledBottom := b; unreadMessages := unreadMessages s; users := users s;
|}.

(** ** Helpers *)

(** [this.props.users.find(...) || this.state.users.find(...)] *)
Definition getUser (props : MessageListProps) (st : MessageListState) (id : string) :
    option MessageListUser :=
  match List.find (fun u => String.eqb (user_id u) id) (users_prop props) with
  | Some u => Some u
  | None => List.find (fun u => String.eqb (user_id u) id) (users st)
  end.

(** [this.context.pubnub?.getUUID() === uuid] *)
Definition isOwnMessage (ctx : PubNubContextProps) (id : string) : bool :=
  match pubnub ctx with Some me => String.eqb me id | None => false end.

(** ** Event handlers *)

(** [handleHistoryFetch(response)] *)
Definition handleHistoryFetch (ctx : PubNubContextProps) (response : FetchMessagesResponse) :
    M unit :=
  st ← js_state;
  let newMessages := page_of (ctx_channel ctx) response in
  let allMessages := merge_history (messages st) newMessages in
  js_emit (FetchSenders newMessages);;
  match allMessages with
  | [] => js_throw TypeError
  | first :: _ =>
      js_modify (set_history allMessages (Some (timetoken first))
                   (negb (Nat.eqb (length newMessages) (messagesPerPage st))))
  end.

(** [handleBottomScroll(scrolledBottom)] *)
Definition handleBottomScroll (b : bool) : M unit :=
  (if b then js_modify (set_unread 0) else mret ());;
  js_modify (set_scrolledBottom b).

(** [handleOnMessage(message)], the PubNub listener. *)
Definition handleOnMessage (props : MessageListProps) (m : MessageListMessage) : M unit :=
  js_emit (FetchSenders [m]);;
  st ← js_state;
  js_modify (set_messages (messages st ++ [m]));;
  js_emit SetupBottomObserver;;
  (if onMessage_set props then js_emit (OnMessage m) else mret ());;
  st' ← js_state;
  if scrolledBottom st' then js_emit ScrollToBottom
  else js_modify (set_unread (S (unreadMessages st'))).

(** [fetchMoreHistory()], up to the [await] of [fetchMessages]. *)
Definition fetchMoreHistory_request (ctx : PubNubContextProps) : M unit :=
  st ← js_state;
  js_emit (FetchMessages (ctx_channel ctx) (messagesPerPage st) (pagination st)).

(** [fetchMoreHistory()], after the [await]. *)
Definition fetchMoreHistory_response (ctx : PubNubContextProps)
    (response : result error FetchMessagesResponse) : M unit :=
  js_catch
    (r ← js_await response;
     handleHistoryFetch ctx r;;
     js_emit ScrollFirstIntoView)
    (fun e => js_emit (ConsoleError e)).

(** [componentDidMount()], up to the [await] of [fetchMessages]. *)
Definition componentDidMount_request (ctx : PubNubContextProps) (props : MessageListProps) :
    M unit :=
  js_catch
    ((if pubnub ctx is None then js_throw NoContext else mret ());;
     (if String.eqb (ctx_channel ctx) "" then js_throw EmptyChannel else mret ());;
     js_emit AddListener;;
     js_emit (Subscribe (ctx_channel ctx));;
     if disableHistoryFetch props then mret ()
     else st ← js_state;
          js_emit (FetchMessages (ctx_channel ctx) (messagesPerPage st) None))
    (fun e => js_emit (ConsoleError e)).

(** [componentDidMount()], after the [await]. *)
Definition componentDidMount_response (ctx : PubNubContextProps)
    (response : result error FetchMessagesResponse) : M unit :=
  js_catch
    (r ← js_await response;
     handleHistoryFetch ctx r;;
     js_emit ScrollToBottom;;
     js_emit SetupSpinnerObserver;;
     js_emit SetupBottomObserver)
    (fun e => js_emit (ConsoleError e)).

(** ** What [render()] shows *)

(** [render()] returns [null] without a client or with an empty channel. *)
Definition renders (ctx : PubNubContextProps) : bool :=
  bool_decide (is_Some (pubnub ctx)) && negb (String.eqb (ctx_channel ctx) "").

(** The spinner whose visibility triggers [fetchMoreHistory]. *)
Definition spinner_shown (props : MessageListProps) (st : MessageListState) : bool :=
  negb (disableHistoryFetch props) && negb (paginationEnd st).

(** The "new messages" badge. *)
Definition unread_badge (st : MessageListState) : option nat :=
  if Nat.ltb 0 (unreadMessages st) then Some (unreadMessages st) else None.

(** The cursor [fetchMoreHistory] starts the next page at is well formed:
    when set, it is the timetoken of the first message shown. *)
Definition cursor_okb (st : MessageListState) : bool :=
  match pagination st, messages st with
  | None, _ => true
  | Some t, f :: _ => Z.eqb t (timetoken f)
  | Some _, [] => false
  end.


(** A client with user ["me"] on channel ["demo"], and default props. *)
Definition demo_ctx : PubNubContextProps := {| pubnub := Some "me"; ctx_channel := "demo" |}.
Definition demo_props : MessageListProps := {|
  disableUserFetch := false; users_prop := []; disableHistoryFetch := false;
  onMessage_set := false;
|}.

(** ** Runs of the handlers *)

Lemma handleHistoryFetch_run_nil ctx response st :
  merge_history (messages st) (page_of (ctx_channel ctx) response) = [] ->
  handleHistoryFetch ctx response st =
    ([FetchSenders (page_of (ctx_channel ctx) response)], st, Err TypeError).
Proof. intros He. unfold handleHistoryFetch. js_run. by rewrite He. Qed.

Lemma handleHistoryFetch_run_cons ctx response st first rest :
  merge_history (messages st) (page_of (ctx_channel ctx) response) = first :: rest ->
  handleHistoryFetch ctx response st =
    ([FetchSenders (page_of (ctx_channel ctx) response)],
     set_history (first :: rest) (Some (timetoken first))
       (negb (Nat.eqb (length (page_of (ctx_channel ctx) response)) (messagesPerPage st))) st,
     Ok ()).
Proof. intros He. unfold handleHistoryFetch. js_run. by rewrite He. Qed.

Lemma handleOnMessage_run props m st :
  handleOnMessage props m st =
    ([FetchSenders [m]; SetupBottomObserver] ++
     (if onMessage_set props then [OnMessage m] else []) ++
     (if scrolledBottom st then [ScrollToBottom] else []),
     (if scrolledBottom st then set_messages (messages st ++ [m]) st
      else set_unread (S (unreadMessages st)) (set_messages (messages st ++ [m]) st)),
     Ok ()).
Proof.
  unfold handleOnMessage. js_run. unfold set_messages. cbn.
  destruct (onMessage_set props), (scrolledBottom st); reflexivity.
Qed.

Lemma handleBottomScroll_run b st :
  handleBottomScroll b st =
    ([], set_scrolledBottom b (if b then set_unread 0 st else st), Ok ()).
Proof. unfold handleBottomScroll. js_run. by destruct b. Qed.

(** ** Merging a history page *)

(** C1: when the list or the page is not empty, [handleHistoryFetch]
    succeeds; the new list is a permutation of the old list followed by the
    page, ordered by the comparator, and stable (messages with equal keys
    keep their order); [pagination] is the timetoken of the first message,
    whose key is the smallest; [paginationEnd] holds exactly when the page
    is not full; scrolling, unread count and users are untouched. *)
Theorem handleHistoryFetch_merges ctx response st :
  let page := page_of (ctx_channel ctx) response in
  messages st ++ page <> [] ->
  exists st', handleHistoryFetch ctx response st = ([FetchSenders page], st', Ok ()) /\
    messages st' ≡ₚ messages st ++ page /\
    tt_sorted (messages st') /\
    (forall k, key_class tt_key k (messages st') = key_class tt_key k (messages st ++ page)) /\
    (exists first, head (messages st') = Some first /\
                   pagination st' = Some (timetoken first) /\
                   Forall (fun m => tt_key first <= tt_key m)%Z (messages st')) /\
    paginationEnd st' = negb (Nat.eqb (length page) (messagesPerPage st)) /\
    scrolledBottom st' = scrolledBottom st /\ unreadMessages st' = unreadMessages st /\
    users st' = users st.
Proof.
  intros page Hne.
  destruct (merge_history (messages st) page) as [|first rest] eqn:He.
  { pose proof (merge_history_perm (messages st) page) as Hp. rewrite He in Hp.
    exfalso. by apply Hne, Permutation_nil. }
  eexists. rewrite (handleHistoryFetch_run_cons _ _ _ first rest He). simpl.
  split; [done|]. rewrite <-He.
  split; [apply merge_history_perm|]. split; [apply merge_history_sorted|].
  split; [intros k; apply sort_by_stable|].
  split; [|done]. exists first. rewrite He. split_and!; [done|done|].
  constructor; [unfold tt_key; lia|].
  pose proof (merge_history_sorted (messages st) page) as Hs. rewrite He in Hs.
  exact (Sorted_head_le (key_le tt_key) first rest Hs).
Qed.

Lemma handleHistoryFetch_merges_witness :
  exists st', handleHistoryFetch demo_ctx (demo_response [demo_message 20; demo_message 10])
                initial_state = ([FetchSenders [demo_message 20; demo_message 10]], st', Ok ()) /\
    messages st' ≡ₚ [demo_message 20; demo_message 10] /\
    tt_sorted (messages st') /\
    (forall k, key_class tt_key k (messages st') =
               key_class tt_key k [demo_message 20; demo_message 10]) /\
    (exists first, head (messages st') = Some first /\
                   pagination st' = Some (timetoken first) /\
                   Forall (fun m => tt_key first <= tt_key m)%Z (messages st')) /\
    paginationEnd st' = true /\ scrolledBottom st' = true /\ unreadMessages st' = 0 /\
    users st' = [].
Proof.
  apply (handleHistoryFetch_merges demo_ctx (demo_response [demo_message 20; demo_message 10])
           initial_state).
  discriminate.
Defined.

(** C4: on an empty list and an empty page (an empty channel on mount),
    [handleHistoryFetch] throws a [TypeError] reading
    [allMessages[0].timetoken]: the state, [paginationEnd] included, is
    left as it was. *)
Theorem handleHistoryFetch_empty_throws ctx response st :
  messages st = [] -> page_of (ctx_channel ctx) response = [] ->
  handleHistoryFetch ctx response st = ([FetchSenders []], st, Err TypeError).
Proof.
  intros Hm Hp. rewrite handleHistoryFetch_run_nil; [by rewrite Hp|].
  by rewrite Hm, Hp.
Qed.

Lemma handleHistoryFetch_empty_throws_witness :
  handleHistoryFetch demo_ctx {| channels := [] |} initial_state =
    ([FetchSenders []], initial_state, Err TypeError).
Proof. apply handleHistoryFetch_empty_throws; reflexivity. Defined.

(** The merge does not drop messages already in the list: a message
    that is in the list and again in the page is in the result twice, so
    timetokens are no longer unique, and the list grows by the whole page. *)
Theorem handleHistoryFetch_keeps_duplicates ctx response st m :
  m ∈ messages st -> m ∈ page_of (ctx_channel ctx) response ->
  exists st', handleHistoryFetch ctx response st =
                ([FetchSenders (page_of (ctx_channel ctx) response)], st', Ok ()) /\
    length (messages st') = length (messages st) + length (page_of (ctx_channel ctx) response) /\
    ~ tt_unique (messages st').
Proof.
  intros Hin1 Hin2.
  pose proof (merge_history_perm (messages st) (page_of (ctx_channel ctx) response)) as Hp.
  destruct (merge_history (messages st) (page_of (ctx_channel ctx) response))
    as [|f rest] eqn:He.
  { apply Permutation_nil, app_eq_nil in Hp as [Hm _]. rewrite Hm in Hin1. set_solver. }
  eexists. rewrite (handleHistoryFetch_run_cons _ _ _ f rest He). split; [done|].
  cbn [messages set_history]. split.
  - rewrite (Permutation_length Hp), length_app. done.
  - rewrite (tt_unique_perm _ _ Hp). by eapply not_tt_unique_app.
Qed.

Lemma handleHistoryFetch_keeps_duplicates_witness :
  exists st', handleHistoryFetch demo_ctx (demo_response [demo_message 10])
                (set_messages [demo_message 10] initial_state) =
              ([FetchSenders [demo_message 10]], st', Ok ()) /\
    length (messages st') = 2 /\ ~ tt_unique (messages st').
Proof.
  apply (handleHistoryFetch_keeps_duplicates demo_ctx (demo_response [demo_message 10])
           (set_messages [demo_message 10] initial_state) (demo_message 10));
    simpl; left.
Defined.

(** ** Live messages *)

(** C9: a live message is appended at the end of the list whatever its
    channel and timetoken; at the bottom the list scrolls and the unread
    count stays, elsewhere the unread count grows by one. *)
Theorem handleOnMessage_appends props m st :
  let '(effs, st', r) := handleOnMessage props m st in
  r = Ok () /\ messages st' = messages st ++ [m] /\
  unreadMessages st' = (if scrolledBottom st then unreadMessages st
                        else S (unreadMessages st)) /\
  scrolledBottom st' = scrolledBottom st /\
  (ScrollToBottom ∈ effs <-> scrolledBottom st = true).
Proof.
  rewrite handleOnMessage_run.
  destruct (scrolledBottom st) eqn:Hb, (onMessage_set props); simpl;
    rewrite ?Hb; split_and!; try done; rewrite !elem_of_cons, ?elem_of_nil; naive_solver.
Qed.

(** C10: appending keeps the list ordered exactly when the live message's
    key is not below any key already there; a message delivered out of
    order is never moved to its place. *)
Theorem handleOnMessage_sorted_iff props m st :
  tt_sorted (messages st) ->
  tt_sorted (messages (js_exec (handleOnMessage props m) st)) <->
  Forall (fun x => tt_key x <= tt_key m)%Z (messages st).
Proof.
  intros Hs. unfold js_exec. rewrite handleOnMessage_run. simpl.
  destruct (scrolledBottom st); simpl; exact (Sorted_snoc_iff (key_le tt_key) _ m Hs).
Qed.

Lemma handleOnMessage_sorted_iff_witness :
  tt_sorted (messages (js_exec (handleOnMessage demo_props (demo_message 5))
                         (set_messages [demo_message 10] initial_state))) <->
  Forall (fun x => tt_key x <= tt_key (demo_message 5))%Z [demo_message 10].
Proof.
  apply (handleOnMessage_sorted_iff demo_props (demo_message 5)
           (set_messages [demo_message 10] initial_state)).
  repeat constructor.
Defined.

(** C27: the pagination cursor is well formed in the constructor's state,
    and every handler of the component keeps it so, also when it throws:
    [handleHistoryFetch] sets it to the first of the merged list, a live
    message goes to the end, and nothing else writes [pagination] or
    [messages]. *)
Theorem handlers_keep_cursor ctx props :
  let P := fun st => cursor_okb st = true in
  P initial_state /\
  (forall r, js_preserves P (handleHistoryFetch ctx r)) /\
  (forall m, js_preserves P (handleOnMessage props m)) /\
  (forall b, js_preserves P (handleBottomScroll b)) /\
  js_preserves P (fetchMoreHistory_request ctx) /\
  (forall r, js_preserves P (fetchMoreHistory_response ctx r)) /\
  js_preserves P (componentDidMount_request ctx props) /\
  (forall r, js_preserves P (componentDidMount_response ctx r)).
Proof.
  intros P.
  assert (Hh : forall r, js_preserves P (handleHistoryFetch ctx r)).
  { intros r st Hst. unfold js_exec.
    destruct (merge_history (messages st) (page_of (ctx_channel ctx) r)) as [|f rest] eqn:He.
    - by rewrite handleHistoryFetch_run_nil.
    - rewrite (handleHistoryFetch_run_cons _ _ _ f rest He). apply Z.eqb_refl. }
  split_and!; [done|exact Hh|..].
  - intros m st Hst. unfold js_exec. rewrite handleOnMessage_run. unfold P, cursor_okb in *.
    destruct (scrolledBottom st); simpl; destruct (pagination st), (messages st); simpl in *; done.
  - intros b st Hst. unfold js_exec. by rewrite handleBottomScroll_run; destruct b.
  - unfold fetchMoreHistory_request. js_preserve.
  - intros r. unfold fetchMoreHistory_response. js_preserve; intros s _; apply Z.eqb_refl.
  - unfold componentDidMount_request. js_preserve.
  - intros r. unfold componentDidMount_response. js_preserve; intros s _; apply Z.eqb_refl.
Qed.

Lemma handlers_keep_cursor_witness :
  let st := js_exec (handleHistoryFetch demo_ctx (demo_response [demo_message 20; demo_message 10]))
              initial_state in
  pagination st = Some 10%Z /\ cursor_okb st = true.
Proof.
  split; [reflexivity|].
  exact (proj1 (proj2 (handlers_keep_cursor demo_ctx demo_props)) _ initial_state eq_refl).
Defined.

End ClassMessageList.
