(* ===== verification/ClassEvents.v ===== *)
(** * The class [MessageList] as a transition system

    What drives the component of [ClassList]: React mounts it once, the SDK
    settles the [fetchMessages] promises it issued (in any order), the PubNub
    listener delivers live messages, and two [IntersectionObserver]s report
    the spinner and the bottom marker entering or leaving the viewport.  The
    [world] keeps the component state together with what the effects did
    outside it: the outstanding requests, whether the listener is attached,
    and which observers watch an element.  The spinner is only in the DOM
    while [spinner_shown] holds; once removed, the observer watches a
    detached node that never intersects again (a re-rendered spinner is a new
    node, which nobody observes).  The list shown refines an abstract log
    of merged pages and appended live messages ([log_step]). *)

From Stdlib Require Import ZArith Lia Sorted Permutation String.
From stdpp Require Import base list strings sets.
From S2P Require Import Prelude JsSort Timetoken Message ClassList.

Module ClassEvents.
Import ClassMessageList.

(** Which [await] a settling promise resumes. *)
Inductive request_kind := InitialPage | OlderPage.

Record world := {
  comp : MessageListState;
  mounted : bool;
  listening : bool;
  spinner_observed : bool;
  bottom_observed : bool;
  pending : list request_kind;
}.

Definition initial_world : world := {|
  comp := initial_state; mounted := false; listening := false;
  spinner_observed := false; bottom_observed := false; pending := [];
|}.

Inductive event :=
| ev_mount                                              (** [componentDidMount] *)
| ev_response (i : nat) (r : result error FetchMessagesResponse)
                                                        (** the [i]-th request settles *)
| ev_live (m : MessageListMessage)                      (** the listener's [message] *)
| ev_spinner                                            (** the spinner intersects *)
| ev_bottom (b : bool).                                 (** the bottom marker's [isIntersecting] *)

Section world.
Context (ctx : PubNubContextProps) (props : MessageListProps).

(** What an effect does to the world; [k] is the [await] a request
    issued by the running handler resumes. *)
Definition absorb_effect (k : request_kind) (w : world) (e : effect) : world :=
  match e with
  | FetchMessages _ _ _ =>
      {| comp := comp w; mounted := mounted w; listening := listening w;
         spinner_observed := spinner_observed w; bottom_observed := bottom_observed w;
         pending := pending w ++ [k] |}
  | AddListener =>
      {| comp := comp w; mounted := mounted w; listening := true;
         spinner_observed := spinner_observed w; bottom_observed := bottom_observed w;
         pending := pending w |}
  | SetupSpinnerObserver =>
      {| comp := comp w; mounted := mounted w; listening := listening w;
         spinner_observed := spinner_shown props (comp w);
         bottom_observed := bottom_observed w; pending := pending w |}
  | SetupBottomObserver =>
      {| comp := comp w; mounted := mounted w; listening := listening w;
         spinner_observed := spinner_observed w; bottom_observed := true;
         pending := pending w |}
  | _ => w
  end.

(** Run a handler on the component state, then apply its effects, then
    drop the spinner's observation if the spinner left the DOM. *)
Definition run_handler (k : request_kind) (h : M unit) (w : world) : world :=
  let '(effs, st', _) := h (comp w) in
  let w1 := {| comp := st'; mounted := mounted w; listening := listening w;
               spinner_observed := spinner_observed w;
               bottom_observed := bottom_observed w; pending := pending w |} in
  let w2 := foldl (absorb_effect k) w1 effs in
  {| comp := comp w2; mounted := mounted w2; listening := listening w2;
     spinner_observed := spinner_observed w2 && spinner_shown props (comp w2);
     bottom_observed := bottom_observed w2; pending := pending w2 |}.

Definition with_mounted (w : world) : world :=
  {| comp := comp w; mounted := true; listening := listening w;
     spinner_observed := spinner_observed w; bottom_observed := bottom_observed w;
     pending := pending w |}.

Definition without_request (i : nat) (w : world) : world :=
  {| comp := comp w; mounted := mounted w; listening := listening w;
     spinner_observed := spinner_observed w; bottom_observed := bottom_observed w;
     pending := delete i (pending w) |}.

Definition resume (k : request_kind) (r : result error FetchMessagesResponse) : M unit :=
  match k with
  | InitialPage => componentDidMount_response ctx r
  | OlderPage => fetchMoreHistory_response ctx r
  end.

(** One event, or [None] when it cannot happen in this world. *)
Definition step (w : world) (ev : event) : option world :=
  match ev with
  | ev_mount =>
      if mounted w then None
      else Some (run_handler InitialPage (componentDidMount_request ctx props) (with_mounted w))
  | ev_response i r =>
      match pending w !! i with
      | None => None
      | Some k => Some (run_handler k (resume k r) (without_request i w))
      end
  | ev_live m =>
      if listening w then Some (run_handler OlderPage (handleOnMessage props m) w) else None
  | ev_spinner =>
      if spinner_observed w then Some (run_handler OlderPage (fetchMoreHistory_request ctx) w)
      else None
  | ev_bottom b =>
      if bottom_observed w then Some (run_handler OlderPage (handleBottomScroll b) w)
      else None
  end.

Fixpoint run_events (w : world) (evs : list event) : option world :=
  match evs with
  | [] => Some w
  | ev :: evs' => match step w ev with Some w' => run_events w' evs' | None => None end
  end.

Inductive reachable : world -> Prop :=
| reachable_init : reachable initial_world
| reachable_step w ev w' : reachable w -> step w ev = Some w' -> reachable w'.
End world.

(** ** The unread count over a trace *)

Definition is_return (e : event) : bool := match e with ev_bottom true => true | _ => false end.
Definition is_leave (e : event) : bool := match e with ev_bottom false => true | _ => false end.
Definition is_live (e : event) : bool := match e with ev_live _ => true | _ => false end.

Fixpoint take_until (p : event -> bool) (l : list event) : list event :=
  match l with [] => [] | e :: l' => if p e then [] else e :: take_until p l' end.

Fixpoint drop_until (p : event -> bool) (l : list event) : list event :=
  match l with [] => [] | e :: l' => if p e then l else drop_until p l' end.

(** The events since the list last reached the bottom (all of them if it
    never did: it starts at the bottom). *)
Definition since_return (evs : list event) : list event :=
  rev (take_until is_return (rev evs)).

(** From the first time it left the bottom after that: empty while the
    list is at the bottom. *)
Definition unread_window (evs : list event) : list event :=
  drop_until is_leave (since_return evs).

(** The live messages delivered since the list last left the bottom. *)
Definition unread_spec (evs : list event) : nat :=
  length (filter (fun e => is_live e = true) (unread_window evs)).

(** How an event changes the pair ([scrolledBottom], [unreadMessages]). *)
Definition view_after (e : event) (b : bool) (n : nat) : bool * nat :=
  match e with
  | ev_live _ => (b, if b then n else S n)
  | ev_bottom true => (true, 0)
  | ev_bottom false => (false, n)
  | _ => (b, n)
  end.

Definition view (st : MessageListState) : bool * nat := (scrolledBottom st, unreadMessages st).

(** ** The list as an abstract log

    What the component promises of the list it shows: it is the history
    pages merged in by [merge_history] and the live messages appended, in
    the order they arrive.  Requests, observers, failed requests and
    scrolling leave it alone. *)
Inductive log_event := LogPage (page : list MessageListMessage) | LogLive (m : MessageListMessage).

Definition log_step (l : list MessageListMessage) (e : log_event) : list MessageListMessage :=
  match e with LogPage p => merge_history l p | LogLive m => l ++ [m] end.

(** What an event of the world is in the log: a settled page (the
    channel's part of it) or a live message. *)
Definition log_of (ctx : PubNubContextProps) (e : event) : list log_event :=
  match e with
  | ev_response _ (Ok resp) => [LogPage (page_of (ctx_channel ctx) resp)]
  | ev_live m => [LogLive m]
  | _ => []
  end.

Definition log_trace (ctx : PubNubContextProps) (evs : list event) : list log_event :=
  evs ≫= log_of ctx.

(** ** Lemmas on the world *)

Section lemmas.
Context (ctx : PubNubContextProps) (props : MessageListProps).

Lemma foldl_absorb_comp k effs w :
  comp (foldl (absorb_effect props k) w effs) = comp w.
Proof.
  revert w. induction effs as [|e effs IH]; intros w; simpl; [done|].
  rewrite IH. by destruct e.
Qed.

Lemma run_handler_comp k h w : comp (run_handler props k h w) = js_exec h (comp w).
Proof.
  unfold run_handler, js_exec. destruct (h (comp w)) as [[effs st'] r].
  simpl. by rewrite foldl_absorb_comp.
Qed.

Lemma handleHistoryFetch_view r st : view (js_exec (handleHistoryFetch ctx r) st) = view st.
Proof.
  unfold js_exec.
  destruct (merge_history (messages st) (page_of (ctx_channel ctx) r)) as [|f rest] eqn:He.
  - by rewrite handleHistoryFetch_run_nil.
  - by rewrite (handleHistoryFetch_run_cons _ _ _ f rest He).
Qed.

Lemma resume_view k r st : view (js_exec (resume ctx k r) st) = view st.
Proof.
  pose proof (handleHistoryFetch_view) as Hh. unfold js_exec in *.
  destruct k, r as [resp|er];
    unfold resume, componentDidMount_response, fetchMoreHistory_response; js_run; try done;
    specialize (Hh resp st);
    destruct (handleHistoryFetch ctx resp st) as [[e1 s1] [[]|er]]; simpl in *; done.
Qed.

Lemma step_view w e w' :
  step ctx props w e = Some w' ->
  view (comp w') = view_after e (scrolledBottom (comp w)) (unreadMessages (comp w)).
Proof.
  intros Hs. destruct e as [| i r | m | | b]; simpl in Hs; repeat case_match; simplify_eq;
    rewrite run_handler_comp; simpl.
  - unfold js_exec, componentDidMount_request, view. js_run.
    by destruct (pubnub ctx), (ctx_channel ctx =? "")%string, (disableHistoryFetch props).
  - by rewrite resume_view.
  - unfold js_exec, view, handleOnMessage. js_run. unfold set_messages. cbn.
    destruct (onMessage_set props), (scrolledBottom (comp w)); reflexivity.
  - unfold js_exec, fetchMoreHistory_request, view. by js_run.
  - unfold js_exec, view. rewrite handleBottomScroll_run. by destruct b.
Qed.

Lemma run_events_app w evs1 evs2 :
  run_events ctx props w (evs1 ++ evs2) =
  match run_events ctx props w evs1 with
  | Some w' => run_events ctx props w' evs2 | None => None
  end.
Proof.
  revert w. induction evs1 as [|e evs1 IH]; intros w; simpl; [done|].
  destruct (step ctx props w e); [apply IH|done].
Qed.

Lemma drop_until_snoc p l e :
  drop_until p (l ++ [e]) =
  match drop_until p l with [] => if p e then [e] else [] | d => d ++ [e] end.
Proof. induction l as [|x l IH]; simpl; [done|]. by destruct (p x). Qed.

Lemma since_return_snoc evs e :
  since_return (evs ++ [e]) = if is_return e then [] else since_return evs ++ [e].
Proof.
  unfold since_return. rewrite rev_app_distr. simpl. by destruct (is_return e).
Qed.

(** [handleHistoryFetch] leaves the merged list, also when it throws:
    then list and page are both empty. *)
Lemma handleHistoryFetch_messages r st :
  messages (js_exec (handleHistoryFetch ctx r) st) =
    merge_history (messages st) (page_of (ctx_channel ctx) r).
Proof.
  unfold js_exec.
  destruct (merge_history (messages st) (page_of (ctx_channel ctx) r)) as [|f rest] eqn:He.
  - rewrite handleHistoryFetch_run_nil by done. simpl.
    pose proof (merge_history_perm (messages st) (page_of (ctx_channel ctx) r)) as Hp.
    rewrite He in Hp. by apply Permutation_nil, app_eq_nil in Hp as [-> _].
  - by rewrite (handleHistoryFetch_run_cons _ _ _ f rest He).
Qed.

Lemma resume_messages k r st :
  messages (js_exec (resume ctx k r) st) =
    match r with
    | Ok resp => merge_history (messages st) (page_of (ctx_channel ctx) resp)
    | Err _ => messages st
    end.
Proof.
  pose proof (handleHistoryFetch_messages) as Hh. unfold js_exec in *.
  destruct k, r as [resp|er];
    unfold resume, componentDidMount_response, fetchMoreHistory_response; js_run; try done;
    specialize (Hh resp st);
    destruct (handleHistoryFetch ctx resp st) as [[e1 s1] [[]|er]]; simpl in *; done.
Qed.

End lemmas.

(** C3: in every reachable world, a list scrolled to the bottom shows no
    unread messages. *)
Theorem reachable_bottom_no_unread ctx props w :
  reachable ctx props w -> scrolledBottom (comp w) = true -> unreadMessages (comp w) = 0.
Proof.
  induction 1 as [|w ev w' Hr IH Hs]; [done|].
  pose proof (step_view ctx props w ev w' Hs) as Hv. unfold view in Hv.
  revert Hv IH. destruct ev as [| | | |[]], (scrolledBottom (comp w)); simpl;
    intros Hv IH; injection Hv as H1 H2; rewrite H1, H2; naive_solver.
Qed.

Lemma reachable_bottom_no_unread_witness :
  exists w, step demo_ctx demo_props initial_world ev_mount = Some w /\
    scrolledBottom (comp w) = true /\ unreadMessages (comp w) = 0.
Proof.
  eexists. split; [reflexivity|]. split; [reflexivity|].
  apply (reachable_bottom_no_unread demo_ctx demo_props); [|reflexivity].
  apply (reachable_step _ _ initial_world ev_mount); [apply reachable_init|reflexivity].
Defined.

(** C2: after any run of events from the initial world, the unread count
    is the number of live messages delivered since the list last left the
    bottom (after it last returned there), and the list is at the bottom
    exactly when it has not left it since. *)
Theorem unread_counts_live_since_leaving ctx props evs w :
  run_events ctx props initial_world evs = Some w ->
  unreadMessages (comp w) = unread_spec evs /\
  scrolledBottom (comp w) = bool_decide (unread_window evs = []).
Proof.
  revert w. induction evs as [|e evs IH] using rev_ind; intros w Hrun.
  { simpl in Hrun. by simplify_eq. }
  rewrite run_events_app in Hrun.
  destruct (run_events ctx props initial_world evs) as [w0|] eqn:H0; [|done].
  simpl in Hrun. destruct (step ctx props w0 e) as [w1|] eqn:Hs; [|done]. simplify_eq.
  destruct (IH w0 eq_refl) as [IHn IHb].
  pose proof (step_view ctx props w0 e w Hs) as Hv. unfold view in Hv.
  unfold unread_spec, unread_window in *. rewrite since_return_snoc.
  destruct (is_return e) eqn:Hret.
  { destruct e as [| | | |[]]; try discriminate Hret. simpl in Hv.
    injection Hv as H1 H2. rewrite H1, H2. split; [done|by rewrite bool_decide_eq_true_2]. }
  rewrite drop_until_snoc.
  destruct (drop_until is_leave (since_return evs)) as [|d ds] eqn:Hd.
  - rewrite bool_decide_eq_true_2 in IHb by done. rewrite IHb in Hv. simpl in IHn.
    destruct e as [| | | |[]]; try discriminate Hret; simpl in Hv |- *;
      injection Hv as H1 H2; rewrite H1, H2, IHn;
      split; try done; by rewrite ?bool_decide_eq_true_2, ?bool_decide_eq_false_2.
  - rewrite bool_decide_eq_false_2 in IHb by done. rewrite IHb in Hv.
    rewrite filter_app, length_app.
    destruct e as [| | | |[]]; try discriminate Hret; simpl in Hv |- *;
      injection Hv as H1 H2; rewrite H1, H2, IHn;
      (split; [simpl; lia|try rewrite bool_decide_eq_false_2 by (by destruct ds); done]).
Qed.

Lemma unread_counts_live_since_leaving_witness :
  let evs := [ev_mount; ev_response 0 (Ok (demo_response [demo_message 10]));
              ev_bottom false; ev_live (demo_message 20); ev_live (demo_message 30);
              ev_bottom true; ev_bottom false; ev_live (demo_message 40)] in
  match run_events demo_ctx demo_props initial_world evs with
  | Some w => unreadMessages (comp w) = unread_spec evs /\
              scrolledBottom (comp w) = bool_decide (unread_window evs = [])
  | None => False
  end.
Proof.
  intros evs. destruct (run_events demo_ctx demo_props initial_world evs) as [w|] eqn:E.
  - exact (unread_counts_live_since_leaving demo_ctx demo_props evs w E).
  - vm_compute in E. discriminate E.
Defined.

(** C25: the class component refines the abstract log: after any run of
    events from any world, the list shown is the list it started with,
    with the history pages that settled successfully merged in by
    [merge_history] and the live messages appended, in the order of the
    events; mounting, requests, failed requests, the spinner and scrolling
    do not change it. *)
Theorem class_list_refines_log ctx props w0 evs w :
  run_events ctx props w0 evs = Some w ->
  messages (comp w) = foldl log_step (messages (comp w0)) (log_trace ctx evs).
Proof.
  revert w0. induction evs as [|e evs IH]; intros w0 Hrun; simpl in Hrun.
  { by simplify_eq. }
  destruct (step ctx props w0 e) as [w1|] eqn:Hs; [|done].
  unfold log_trace in *. rewrite bind_cons, foldl_app, (IH w1 Hrun). f_equal.
  destruct e as [| i r | m | | b]; simpl in Hs; repeat case_match; simplify_eq;
    rewrite run_handler_comp; simpl.
  - unfold js_exec, componentDidMount_request. js_run.
    by destruct (pubnub ctx), (ctx_channel ctx =? "")%string, (disableHistoryFetch props).
  - rewrite resume_messages. by destruct r.
  - unfold js_exec. rewrite handleOnMessage_run. by destruct (scrolledBottom (comp w0)).
  - unfold js_exec, fetchMoreHistory_request. by js_run.
  - unfold js_exec. rewrite handleBottomScroll_run. by destruct b.
Qed.

Lemma class_list_refines_log_witness :
  let evs := [ev_mount; ev_live (demo_message 30);
              ev_response 0 (Ok (demo_response [demo_message 20; demo_message 10]));
              ev_live (demo_message 5)] in
  match run_events demo_ctx demo_props initial_world evs with
  | Some w => messages (comp w) = [demo_message 10; demo_message 20; demo_message 30; demo_message 5] /\
              messages (comp w) = foldl log_step (messages (comp initial_world)) (log_trace demo_ctx evs)
  | None => False
  end.
Proof.
  intros evs. destruct (run_events demo_ctx demo_props initial_world evs) as [w|] eqn:E.
  - split; [by vm_compute in E; injection E as <-|].
    exact (class_list_refines_log demo_ctx demo_props initial_world evs w E).
  - vm_compute in E. discriminate E.
Defined.

(** ** Requests and the spinner's observer *)

(** Effects that issue no request, and effects that leave the spinner's
    observer alone. *)
Definition no_fetch (e : effect) : bool := match e with FetchMessages _ _ _ => false | _ => true end.
Definition no_spinner (e : effect) : bool := match e with SetupSpinnerObserver => false | _ => true end.

Section requests.
Context (ctx : PubNubContextProps) (props : MessageListProps).

Lemma foldl_absorb_pending k effs w :
  Forall (fun e => no_fetch e = true) effs ->
  pending (foldl (absorb_effect props k) w effs) = pending w.
Proof.
  revert w. induction effs as [|e effs IH]; intros w Hf; simpl; [done|].
  invc Hf. rewrite IH by done. by destruct e.
Qed.

Lemma foldl_absorb_spinner k effs w :
  Forall (fun e => no_spinner e = true) effs ->
  spinner_observed (foldl (absorb_effect props k) w effs) = spinner_observed w.
Proof.
  revert w. induction effs as [|e effs IH]; intros w Hf; simpl; [done|].
  invc Hf. rewrite IH by done. by destruct e.
Qed.

Lemma run_handler_pending k h w :
  Forall (fun e => no_fetch e = true) (js_effects h (comp w)) ->
  pending (run_handler props k h w) = pending w.
Proof.
  unfold run_handler, js_effects. destruct (h (comp w)) as [[effs st'] r]. simpl.
  intros Hf. by rewrite foldl_absorb_pending.
Qed.

Lemma run_handler_spinner k h w :
  Forall (fun e => no_spinner e = true) (js_effects h (comp w)) ->
  spinner_observed (run_handler props k h w) =
    spinner_observed w && spinner_shown props (js_exec h (comp w)).
Proof.
  unfold run_handler, js_effects, js_exec. destruct (h (comp w)) as [[effs st'] r]. simpl.
  intros Hf. by rewrite foldl_absorb_spinner, foldl_absorb_comp.
Qed.

(** The spinner is observed only while it is in the DOM. *)
Lemma run_handler_spinner_shown k h w :
  spinner_observed (run_handler props k h w) = true ->
  spinner_shown props (comp (run_handler props k h w)) = true.
Proof.
  unfold run_handler. destruct (h (comp w)) as [[effs st'] r]. simpl.
  intros Hs. by apply andb_prop in Hs as [_ ?].
Qed.

Lemma handleOnMessage_quiet m st :
  Forall (fun e => no_fetch e = true /\ no_spinner e = true) (js_effects (handleOnMessage props m) st).
Proof.
  unfold js_effects. rewrite handleOnMessage_run. simpl.
  repeat constructor; destruct (onMessage_set props), (scrolledBottom st); repeat constructor.
Qed.

Lemma handleBottomScroll_quiet b st :
  Forall (fun e => no_fetch e = true /\ no_spinner e = true) (js_effects (handleBottomScroll b) st).
Proof. unfold js_effects. by rewrite handleBottomScroll_run. Qed.

Lemma resume_no_fetch k r st :
  Forall (fun e => no_fetch e = true) (js_effects (resume ctx k r) st).
Proof.
  unfold js_effects, resume.
  destruct (merge_history (messages st) (page_of (ctx_channel ctx) (match r with Ok x => x | Err _ => {| channels := [] |} end))) as [|f rest] eqn:He;
  destruct k, r as [resp|er];
    unfold componentDidMount_response, fetchMoreHistory_response; js_run;
    rewrite ?(handleHistoryFetch_run_nil _ _ _ He), ?(handleHistoryFetch_run_cons _ _ _ _ _ He);
    simpl; repeat constructor.
Qed.
End requests.

Lemma foldl_absorb_mounted props k effs w :
  mounted (foldl (absorb_effect props k) w effs) = mounted w.
Proof.
  revert w. induction effs as [|e effs IH]; intros w; simpl; [done|].
  rewrite IH. by destruct e.
Qed.

Lemma run_handler_mounted props k h w : mounted (run_handler props k h w) = mounted w.
Proof.
  unfold run_handler. destruct (h (comp w)) as [[effs st'] r]. simpl.
  by rewrite foldl_absorb_mounted.
Qed.

(** The only reachable world that is not mounted is the initial one. *)
Lemma reachable_unmounted ctx props w :
  reachable ctx props w -> mounted w = false -> w = initial_world.
Proof.
  induction 1 as [|w ev w' Hr IH Hs]; intros Hm; [done|].
  destruct (mounted w) eqn:Hw.
  - exfalso. destruct ev; simpl in Hs; repeat case_match; simplify_eq;
      rewrite run_handler_mounted in Hm; simpl in Hm; congruence.
  - rewrite (IH eq_refl) in Hs. destruct ev; simpl in Hs; simplify_eq.
    by rewrite run_handler_mounted in Hm.
Qed.

(** Reachable worlds observe the spinner only while it is shown. *)
Lemma reachable_spinner_shown ctx props w :
  reachable ctx props w -> spinner_observed w = true -> spinner_shown props (comp w) = true.
Proof.
  induction 1 as [|w ev w' Hr IH Hs]; [done|].
  destruct ev; simpl in Hs; repeat case_match; simplify_eq; apply run_handler_spinner_shown.
Qed.

(** A world in which the spinner is shown but nobody observes it, and no
    request is outstanding. *)
Definition spinner_stuck (w : world) : Prop :=
  mounted w = true /\ spinner_observed w = false /\ pending w = [] /\
  paginationEnd (comp w) = false.

Lemma quiet_split (effs : list effect) :
  Forall (fun e => no_fetch e = true /\ no_spinner e = true) effs ->
  Forall (fun e => no_fetch e = true) effs /\ Forall (fun e => no_spinner e = true) effs.
Proof. rewrite <-Forall_and. done. Qed.

Lemma spinner_stuck_step ctx props w ev w' :
  spinner_stuck w -> step ctx props w ev = Some w' -> spinner_stuck w'.
Proof.
  intros (Hm & Hso & Hp & Hpe) Hs.
  destruct ev as [|i r|m| |b]; simpl in Hs; rewrite ?Hm, ?Hso, ?Hp in Hs; simpl in Hs;
    repeat case_match; simplify_eq.
  - destruct (quiet_split _ (handleOnMessage_quiet props m (comp w))) as [Hf Hsp].
    split_and!; [by rewrite run_handler_mounted|by rewrite run_handler_spinner, Hso
                |by rewrite run_handler_pending|].
    rewrite run_handler_comp. unfold js_exec. rewrite handleOnMessage_run.
    by destruct (scrolledBottom (comp w)).
  - destruct (quiet_split _ (handleBottomScroll_quiet b (comp w))) as [Hf Hsp].
    split_and!; [by rewrite run_handler_mounted|by rewrite run_handler_spinner, Hso
                |by rewrite run_handler_pending|].
    rewrite run_handler_comp. unfold js_exec. rewrite handleBottomScroll_run.
    by destruct b.
Qed.

Lemma run_events_spinner_stuck ctx props w evs w' :
  spinner_stuck w -> run_events ctx props w evs = Some w' -> spinner_stuck w'.
Proof.
  revert w. induction evs as [|ev evs IH]; intros w Hw Hrun; simpl in Hrun; [by simplify_eq|].
  destruct (step ctx props w ev) as [w1|] eqn:Hs; [|done].
  eapply IH; [|done]. by eapply spinner_stuck_step.
Qed.

Ltac world_run :=
  repeat (simpl; unfold run_handler, with_mounted, without_request, resume,
    componentDidMount_request, componentDidMount_response, fetchMoreHistory_request,
    fetchMoreHistory_response in *; js_run;
    rewrite ?handleOnMessage_run, ?handleBottomScroll_run).

Lemma page_of_single ch ms : page_of ch {| channels := [(ch, ms)] |} = ms.
Proof. unfold page_of. simpl. by rewrite String.eqb_refl. Qed.

(** ** Races, stuck pagination, duplicate requests *)

(** C6: the listener is attached before the first page is requested, so a
    message published while the request is in flight arrives live and
    again in the page; nothing removes the second copy. *)
Theorem live_message_races_first_page ctx props me m :
  pubnub ctx = Some me -> ctx_channel ctx <> ""%string -> disableHistoryFetch props = false ->
  exists w, run_events ctx props initial_world
    [ev_mount; ev_live m; ev_response 0 (Ok {| channels := [(ctx_channel ctx, [m])] |})] = Some w /\
    messages (comp w) = [m; m] /\ ~ tt_unique (messages (comp w)).
Proof.
  intros Hpn Hch Hdis. apply String.eqb_neq in Hch.
  assert (He : merge_history [m] (page_of (ctx_channel ctx)
                 {| channels := [(ctx_channel ctx, [m])] |}) = [m; m]).
  { rewrite page_of_single. unfold merge_history. simpl. by rewrite Z.leb_refl. }
  eexists. split; [|split].
  - world_run. rewrite Hpn, Hch, Hdis. world_run.
    destruct (onMessage_set props); world_run.
    all: erewrite handleHistoryFetch_run_cons; [|simpl; exact He].
    all: world_run; reflexivity.
  - reflexivity.
  - simpl. apply (not_tt_unique_app [m] [m] m); set_solver.
Qed.

Lemma live_message_races_first_page_witness :
  exists w, run_events demo_ctx demo_props initial_world
    [ev_mount; ev_live (demo_message 10);
     ev_response 0 (Ok {| channels := [("demo", [demo_message 10])] |})] = Some w /\
    messages (comp w) = [demo_message 10; demo_message 10] /\ ~ tt_unique (messages (comp w)).
Proof.
  apply (live_message_races_first_page demo_ctx demo_props "me" (demo_message 10));
    [reflexivity|discriminate|reflexivity].
Defined.

(** C5: on a channel with no history the first [handleHistoryFetch]
    throws, so [paginationEnd] stays [false] and the spinner stays on
    screen, but the spinner observer was never set up: whatever happens
    afterwards, no page is ever requested again. *)
Theorem empty_channel_spinner_stuck ctx props me resp evs w :
  pubnub ctx = Some me -> ctx_channel ctx <> ""%string -> disableHistoryFetch props = false ->
  page_of (ctx_channel ctx) resp = [] ->
  run_events ctx props initial_world (ev_mount :: ev_response 0 (Ok resp) :: evs) = Some w ->
  spinner_shown props (comp w) = true /\ pending w = [].
Proof.
  intros Hpn Hch Hdis Hp Hrun. apply String.eqb_neq in Hch.
  revert Hrun. world_run. rewrite Hpn, Hch, Hdis. world_run.
  erewrite handleHistoryFetch_run_nil; [|simpl; by rewrite Hp]. world_run.
  intros Hrun. eapply run_events_spinner_stuck in Hrun as (_ & _ & Hpw & Hpe); [|done].
  unfold spinner_shown. by rewrite Hdis, Hpe.
Qed.

Lemma empty_channel_spinner_stuck_witness :
  match run_events demo_ctx demo_props initial_world
          (ev_mount :: ev_response 0 (Ok {| channels := [] |}) ::
           [ev_live (demo_message 10); ev_bottom false]) with
  | Some w => spinner_shown demo_props (comp w) = true /\ pending w = []
  | None => False
  end.
Proof.
  destruct (run_events demo_ctx demo_props initial_world
              (ev_mount :: ev_response 0 (Ok {| channels := [] |}) ::
               [ev_live (demo_message 10); ev_bottom false])) as [w|] eqn:E.
  - exact (empty_channel_spinner_stuck demo_ctx demo_props "me" {| channels := [] |} _ w
             eq_refl ltac:(discriminate) eq_refl eq_refl E).
  - vm_compute in E. discriminate E.
Defined.

(** C7: nothing guards [fetchMoreHistory] against a request in flight:
    after a full first page, two spinner intersections issue two requests
    for the same older page. *)
Theorem spinner_requests_twice ctx props me page :
  pubnub ctx = Some me -> ctx_channel ctx <> ""%string -> disableHistoryFetch props = false ->
  length page = 100 ->
  exists w, run_events ctx props initial_world
    [ev_mount; ev_response 0 (Ok {| channels := [(ctx_channel ctx, page)] |});
     ev_spinner; ev_spinner] = Some w /\
    pending w = [OlderPage; OlderPage].
Proof.
  intros Hpn Hch Hdis Hlen. apply String.eqb_neq in Hch.
  destruct (merge_history [] (page_of (ctx_channel ctx)
              {| channels := [(ctx_channel ctx, page)] |})) as [|f rest] eqn:He.
  { pose proof (merge_history_length [] (page_of (ctx_channel ctx)
                  {| channels := [(ctx_channel ctx, page)] |})) as Hl.
    by rewrite He, page_of_single, Hlen in Hl. }
  eexists. split.
  - world_run. rewrite Hpn, Hch, Hdis. world_run.
    erewrite handleHistoryFetch_run_cons; [|simpl; exact He].
    rewrite page_of_single, Hlen. world_run.
    unfold spinner_shown. simpl. rewrite Hdis. world_run. reflexivity.
  - reflexivity.
Qed.

Lemma spinner_requests_twice_witness :
  exists w, run_events demo_ctx demo_props initial_world
    [ev_mount; ev_response 0 (Ok {| channels := [("demo",
        map (fun n => demo_message (Z.of_nat n)) (seq 1 100))] |});
     ev_spinner; ev_spinner] = Some w /\
    pending w = [OlderPage; OlderPage].
Proof.
  apply (spinner_requests_twice demo_ctx demo_props "me"
           (map (fun n => demo_message (Z.of_nat n)) (seq 1 100)));
    [reflexivity|discriminate|reflexivity|reflexivity].
Defined.

(** C8: once [paginationEnd] holds, no event issues a request: the
    spinner, the only trigger of [fetchMoreHistory], is gone. *)
Theorem pagination_end_no_request ctx props w ev w' :
  reachable ctx props w -> paginationEnd (comp w) = true ->
  step ctx props w ev = Some w' -> length (pending w') <= length (pending w).
Proof.
  intros Hr Hpe Hs. destruct (mounted w) eqn:Hm.
  2: { by rewrite (reachable_unmounted _ _ _ Hr Hm) in Hpe. }
  destruct ev as [|i r|m| |b]; simpl in Hs; rewrite ?Hm in Hs; repeat case_match; simplify_eq.
  - rewrite run_handler_pending by apply resume_no_fetch. simpl.
    rewrite length_delete by eauto. lia.
  - rewrite run_handler_pending; [lia|]. apply quiet_split, handleOnMessage_quiet.
  - pose proof (reachable_spinner_shown _ _ _ Hr H) as Hsh.
    unfold spinner_shown in Hsh. rewrite Hpe in Hsh. by rewrite andb_false_r in Hsh.
  - rewrite run_handler_pending; [lia|]. apply quiet_split, handleBottomScroll_quiet.
Qed.

Lemma pagination_end_no_request_witness :
  match run_events demo_ctx demo_props initial_world
          [ev_mount; ev_response 0 (Ok (demo_response [demo_message 10]))] with
  | Some w =>
      paginationEnd (comp w) = true /\
      match step demo_ctx demo_props w (ev_live (demo_message 20)) with
      | Some w' => length (pending w') <= length (pending w)
      | None => False
      end
  | None => False
  end.
Proof.
  pose proof (reachable_step demo_ctx demo_props _ ev_mount _ (reachable_init _ _) eq_refl) as R1.
  destruct (step demo_ctx demo_props
              (run_handler demo_props InitialPage (componentDidMount_request demo_ctx demo_props)
                 (with_mounted initial_world))
              (ev_response 0 (Ok (demo_response [demo_message 10])))) as [w|] eqn:E1;
    [|vm_compute in E1; discriminate E1].
  pose proof (reachable_step demo_ctx demo_props _ _ w R1 E1) as R2.
  change (run_events demo_ctx demo_props initial_world
            [ev_mount; ev_response 0 (Ok (demo_response [demo_message 10]))])
    with (match step demo_ctx demo_props
                  (run_handler demo_props InitialPage (componentDidMount_request demo_ctx demo_props)
                     (with_mounted initial_world))
                  (ev_response 0 (Ok (demo_response [demo_message 10]))) with
          | Some w' => Some w' | None => None end).
  rewrite E1.
  assert (Hpe : paginationEnd (comp w) = true) by (vm_compute in E1; injection E1 as <-; reflexivity).
  split; [exact Hpe|].
  destruct (step demo_ctx demo_props w (ev_live (demo_message 20))) as [w'|] eqn:E2.
  - exact (pagination_end_no_request demo_ctx demo_props w _ w' R2 Hpe E2).
  - vm_compute in E1. injection E1 as <-. vm_compute in E2. discriminate E2.
Defined.

End ClassEvents.
