(* ===== verification/HooksList.v ===== *)
(** * The hook component [MessageList] (src/lib/src/message-list/message-list.tsx)

    The component reads three Recoil atoms (the current channel, the
    current channel's messages, its pagination end) and keeps local state
    with [useState].  [ListState] holds both: the atoms as the store they
    are selectors of (messages and pagination end per channel, modelled from
    the spec since [state-atoms] is not in the sources), and the hooks'
    values.  A hook's [setX] does not change what the running closure reads:
    every handler below reads the state once, at its start, as the render
    that created the closure saw it, and its writes take effect afterwards.
    [handleHistoryFetch] is an [async] Recoil callback that is called but not
    awaited: the handlers that call it emit [RunHistoryFetch], and it runs
    later, reading the channel current at that time. *)

From Stdlib Require Import ZArith Lia Sorted Permutation String.
From stdpp Require Import base list strings gmap sets.
From S2P Require Import Prelude JsSort Timetoken Message.

Module HooksMessageList.

(** [MessageListProps]: the page size ([fetchMessages], [0] fetches
    nothing) and [enableReactions]. *)
Record MessageListProps := {
  fetchMessages : nat;
  enableReactions : bool;
}.

Record ListState := {
  currentChannel : string;
  channelMessages : gmap string (list MessageListMessage);
  channelPaginationEnd : gmap string bool;
  scrolledBottom : bool;
  prevMessages : list MessageListMessage;
  unreadMessages : Z;
  fetchingMessages : bool;
  emojiPickerShown : bool;
  reactingToMessage : option Z;
}.

(** The atoms of a fresh store on channel [ch], and the hooks' initial
    values. *)
Definition initial_state (ch : string) : ListState := {|
  currentChannel := ch; channelMessages := ∅; channelPaginationEnd := ∅;
  scrolledBottom := true; prevMessages := []; unreadMessages := 0;
  fetchingMessages := false; emojiPickerShown := false; reactingToMessage := None;
|}.

(** [CurrentChannelMessagesAtom] and [CurrentChannelPaginationAtom]. *)
Definition current_messages (st : ListState) : list MessageListMessage :=
  default [] (channelMessages st !! currentChannel st).

Definition paginationEnd (st : ListState) : bool :=
  default false (channelPaginationEnd st !! currentChannel st).

Inductive error := FetchFailed (reason : string).

Inductive effect :=
| FetchMessages (ch : string) (count : nat) (start : option Z)
| RunHistoryFetch (response : FetchMessagesResponse)
| ScrollToBottom
| ScrollFirstIntoView
| SetupSpinnerObserver
| SetupBottomObserver
| AddMessageAction (ch : string) (messageTimetoken : option Z) (value : string)
| RemoveMessageAction (ch : string) (messageTimetoken : Z) (actionTimetoken : Z)
| OnError (e : error).

Abbreviation M := (@js ListState effect error).

(** ** State updates *)

Definition set_local (sb : bool) (prev : list MessageListMessage) (unread : Z)
    (fetching picker : bool) (reacting : option Z) (s : ListState) : ListState := {|
  currentChannel := currentChannel s; channelMessages := channelMessages s;
  channelPaginationEnd := channelPaginationEnd s; scrolledBottom := sb;
  prevMessages := prev; unreadMessages := unread; fetchingMessages := fetching;
  emojiPickerShown := picker; reactingToMessage := reacting;
|}.

Definition set_scrolledBottom (b : bool) (s : ListState) : ListState :=
  set_local b (prevMessages s) (unreadMessages s) (fetchingMessages s)
    (emojiPickerShown s) (reactingToMessage s) s.
Definition set_prevMessages (p : list MessageListMessage) (s : ListState) : ListState :=
  set_local (scrolledBottom s) p (unreadMessages s) (fetchingMessages s)
    (emojiPickerShown s) (reactingToMessage s) s.
Definition set_unreadMessages (n : Z) (s : ListState) : ListState :=
  set_local (scrolledBottom s) (prevMessages s) n (fetchingMessages s)
    (emojiPickerShown s) (reactingToMessage s) s.
Definition set_fetchingMessages (b : bool) (s : ListState) : ListState :=
  set_local (scrolledBottom s) (prevMessages s) (unreadMessages s) b
    (emojiPickerShown s) (reactingToMessage s) s.
Definition set_emojiPickerShown (b : bool) (s : ListState) : ListState :=
  set_local (scrolledBottom s) (prevMessages s) (unreadMessages s) (fetchingMessages s)
    b (reactingToMessage s) s.
Definition set_reactingToMessage (r : option Z) (s : ListState) : ListState :=
  set_local (scrolledBottom s) (prevMessages s) (unreadMessages s) (fetchingMessages s)
    (emojiPickerShown s) r s.

(** [set(CurrentChannelMessagesAtom, ...)] and [set(CurrentChannelPaginationAtom, ...)]
    write the entry of channel [ch]. *)
Definition set_channel_messages (ch : string) (ms : list MessageListMessage)
    (s : ListState) : ListState := {|
  currentChannel := currentChannel s; channelMessages := <[ch := ms]> (channelMessages s);
  channelPaginationEnd := channelPaginationEnd s; scrolledBottom := scrolledBottom s;
  prevMessages := prevMessages s; unreadMessages := unreadMessages s;
  fetchingMessages := fetchingMessages s; emojiPickerShown := emojiPickerShown s;
  reactingToMessage := reactingToMessage s;
|}.

Definition set_channel_paginationEnd (ch : string) (b : bool) (s : ListState) : ListState := {|
  currentChannel := currentChannel s; channelMessages := channelMessages s;
  channelPaginationEnd := <[ch := b]> (channelPaginationEnd s);
  scrolledBottom := scrolledBottom s; prevMessages := prevMessages s;
  unreadMessages := unreadMessages s; fetchingMessages := fetchingMessages s;
  emojiPickerShown := emojiPickerShown s; reactingToMessage := reactingToMessage s;
|}.

(** ** Commands *)

(** [fetchHistory()], up to the [await]; [channel] is the render's. *)
Definition fetchHistory_request (props : MessageListProps) : M unit :=
  st ← js_state;
  if Nat.eqb (fetchMessages props) 0 then mret ()
  else js_modify (set_fetchingMessages true);;
       js_emit (FetchMessages (currentChannel st) (fetchMessages props) None).

(** [fetchHistory()] after the [await], with the [finally] clause. *)
Definition fetchHistory_response (response : result error FetchMessagesResponse) : M unit :=
  js_catch
    (history ← js_await response;
     js_emit (RunHistoryFetch history);;
     js_emit ScrollToBottom;;
     js_emit SetupSpinnerObserver;;
     js_emit SetupBottomObserver)
    (fun e => js_emit (OnError e));;
  js_modify (set_fetchingMessages false).

(** [start: (messages?.[0].timetoken as number) || undefined] *)
Definition page_start (first : MessageListMessage) : option Z :=
  if Z.eqb (timetoken first) 0 then None else Some (timetoken first).

(** [fetchMoreHistory()], up to the [await]. *)
Definition fetchMoreHistory_request (props : MessageListProps) : M unit :=
  st ← js_state;
  match current_messages st with
  | [] => mret ()
  | first :: _ =>
      js_emit (FetchMessages (currentChannel st) (fetchMessages props) (page_start first))
  end.

(** [fetchMoreHistory()] after the [await]. *)
Definition fetchMoreHistory_response (response : result error FetchMessagesResponse) : M unit :=
  js_catch
    (history ← js_await response;
     js_emit (RunHistoryFetch history);;
     js_emit ScrollFirstIntoView)
    (fun e => js_emit (OnError e)).

(** [addReaction(reaction, messageTimetoken)] and [removeReaction(...)]. *)
Definition addReaction (reaction : string) (messageTimetoken : option Z) : M unit :=
  st ← js_state; js_emit (AddMessageAction (currentChannel st) messageTimetoken reaction).

Definition removeReaction (messageTimetoken actionTimetoken : Z) : M unit :=
  st ← js_state; js_emit (RemoveMessageAction (currentChannel st) messageTimetoken actionTimetoken).

(** ** Event handlers *)

Definition handleBottomScroll (b : bool) : M unit :=
  (if b then js_modify (set_unreadMessages 0) else mret ());;
  js_modify (set_scrolledBottom b).

(** [handleHistoryFetch(response)]: the channel and its messages are read
    from the Recoil snapshot when the callback runs. *)
Definition handleHistoryFetch (props : MessageListProps) (response : FetchMessagesResponse) :
    M unit :=
  st ← js_state;
  let ch := currentChannel st in
  let newMessages := page_of ch response in
  let allMessages := merge_history (current_messages st) newMessages in
  js_modify (set_emojiPickerShown false);;
  js_modify (set_prevMessages allMessages);;
  js_modify (set_channel_messages ch allMessages);;
  js_modify (set_channel_paginationEnd ch
    (bool_decide (allMessages = []) || negb (Nat.eqb (length newMessages) (fetchMessages props)))).

(** The [useEffect] on [messages]: counts the messages that arrived since
    the last run as unread when the list is not at the bottom. *)
Definition messagesEffect : M unit :=
  st ← js_state;
  match current_messages st with
  | [] => mret ()
  | ms =>
      let messagesFromListener := (Z.of_nat (length ms) - Z.of_nat (length (prevMessages st)))%Z in
      (if scrolledBottom st then js_emit ScrollToBottom else mret ());;
      (if negb (scrolledBottom st) && negb (Z.eqb messagesFromListener 0)
       then js_modify (set_unreadMessages (unreadMessages st + messagesFromListener)%Z)
       else mret ());;
      js_emit SetupBottomObserver;;
      js_modify (set_prevMessages ms)
  end.

(** The [useEffect] on [channel]; [pubnub] tells whether there is a client. *)
Definition channelEffect (props : MessageListProps) (pubnub : bool) : M unit :=
  st ← js_state;
  if negb pubnub || String.eqb (currentChannel st) "" then mret ()
  else (if bool_decide (current_messages st = []) then fetchHistory_request props else mret ());;
       js_emit SetupSpinnerObserver.

(** [message.actions?.reaction]: value -> instances. *)
Definition reactions_of (m : MessageListMessage) : list (string * list ActionInstance) :=
  default [] (js_prop "reaction" (actions m)).

(** [instances?.find((i) => i.uuid === pubnub.getUUID())] *)
Definition userReaction (me : string) (instances : list ActionInstance) : option ActionInstance :=
  List.find (fun i => String.eqb (action_uuid i) me) instances.

(** The [onClick] of a rendered reaction: remove the user's own reaction,
    or add one. *)
Definition reactionClick (me : string) (m : MessageListMessage) (reaction : string) : M unit :=
  match userReaction me (default [] (js_prop reaction (reactions_of m))) with
  | Some ur => removeReaction (timetoken m) (actionTimetoken ur)
  | None => addReaction reaction (Some (timetoken m))
  end.

(** [handleOpenReactions(event, timetoken)] (the picker's position is DOM). *)
Definition handleOpenReactions (tt : Z) : M unit :=
  js_modify (set_emojiPickerShown true);; js_modify (set_reactingToMessage (Some tt)).

(** [handleCloseReactions(event)]; [inside] is [pickerRef.current?.contains(event.target)]. *)
Definition handleCloseReactions (inside : bool) : M unit :=
  if inside then mret ()
  else js_modify (set_emojiPickerShown false);; js_modify (set_reactingToMessage None).

(** The picker's [onSelect]. *)
Definition pickerSelect (native : string) : M unit :=
  st ← js_state;
  addReaction native (reactingToMessage st);;
  js_modify (set_emojiPickerShown false).

(** ** What is rendered *)

Definition spinner_shown (props : MessageListProps) (st : ListState) : bool :=
  negb (Nat.eqb (fetchMessages props) 0) && negb (paginationEnd st).

Definition welcome_shown (st : ListState) : bool :=
  bool_decide (current_messages st = []) && negb (fetchingMessages st).

Definition unread_badge (st : ListState) : option Z :=
  if Z.ltb 0 (unreadMessages st) then Some (unreadMessages st) else None.

(** The count next to a reaction, [instances.length]. *)
Definition reaction_count (m : MessageListMessage) (reaction : string) : nat :=
  length (default [] (js_prop reaction (reactions_of m))).

(** The Recoil part of the state, and the part the unread count depends on. *)
Definition store (st : ListState) :=
  (currentChannel st, channelMessages st, channelPaginationEnd st).

Definition local_view (st : ListState) := (scrolledBottom st, unreadMessages st, prevMessages st).

(** ** Concrete inputs *)

Definition demo_props : MessageListProps := {| fetchMessages := 25; enableReactions := true |}.

(** The list on channel [ch] showing [ms], after the [messages] effect saw
    [prev]. *)
Definition demo_state (ch : string) (ms prev : list MessageListMessage) (sb : bool) : ListState := {|
  currentChannel := ch; channelMessages := {[ch := ms]}; channelPaginationEnd := ∅;
  scrolledBottom := sb; prevMessages := prev; unreadMessages := 0;
  fetchingMessages := false; emojiPickerShown := true; reactingToMessage := Some 7%Z;
|}.

(** Message [7] of ["demo"], with the reaction ["+1"] of user ["me"]. *)
Definition demo_reacted : MessageListMessage := {|
  channel := "demo"; text := "hello"; sender := None; attachments := None; timetoken := 7%Z; publisher := Some "alice"; uuid := None;
  actions := [("reaction", [("+1", [{| action_uuid := "me"; actionTimetoken := 8%Z |}])])];
|}.

(** ** Runs of the handlers *)


Lemma handleHistoryFetch_run props r st :
  let ch := currentChannel st in
  let all := merge_history (current_messages st) (page_of ch r) in
  handleHistoryFetch props r st =
    ([], set_channel_paginationEnd ch
           (bool_decide (all = []) || negb (Nat.eqb (length (page_of ch r)) (fetchMessages props)))
           (set_channel_messages ch all (set_prevMessages all (set_emojiPickerShown false st))),
     Ok tt).
Proof. reflexivity. Qed.

Lemma current_messages_after_fetch props r st :
  current_messages (js_exec (handleHistoryFetch props r) st) =
    merge_history (current_messages st) (page_of (currentChannel st) r).
Proof.
  unfold js_exec. rewrite handleHistoryFetch_run. unfold current_messages. simpl.
  by rewrite lookup_insert_eq.
Qed.

Lemma messagesEffect_run st ms :
  current_messages st = ms -> ms <> [] ->
  let d := (Z.of_nat (length ms) - Z.of_nat (length (prevMessages st)))%Z in
  messagesEffect st =
    ((if scrolledBottom st then [ScrollToBottom] else []) ++ [SetupBottomObserver],
     set_prevMessages ms
       (if negb (scrolledBottom st) && negb (Z.eqb d 0)
        then set_unreadMessages (unreadMessages st + d)%Z st else st),
     Ok tt).
Proof.
  intros Hms Hne. unfold messagesEffect. js_run. rewrite Hms.
  destruct ms as [|m ms]; [done|]. cbn -[Z.of_nat length].
  destruct (scrolledBottom st), (Z.eqb _ 0); reflexivity.
Qed.

Lemma messagesEffect_nil st : current_messages st = [] -> messagesEffect st = ([], st, Ok tt).
Proof. intros Hms. unfold messagesEffect. js_run. by rewrite Hms. Qed.

Lemma paginationEnd_after_fetch props r st :
  let all := merge_history (current_messages st) (page_of (currentChannel st) r) in
  paginationEnd (js_exec (handleHistoryFetch props r) st) =
    bool_decide (all = []) ||
    negb (Nat.eqb (length (page_of (currentChannel st) r)) (fetchMessages props)).
Proof.
  unfold js_exec. rewrite handleHistoryFetch_run. unfold paginationEnd. simpl.
  by rewrite lookup_insert_eq.
Qed.

Lemma store_after_fetch props r st :
  let ch := currentChannel st in
  store (js_exec (handleHistoryFetch props r) st) =
    (ch, <[ch := merge_history (current_messages st) (page_of ch r)]> (channelMessages st),
     <[ch := bool_decide (merge_history (current_messages st) (page_of ch r) = []) ||
             negb (Nat.eqb (length (page_of ch r)) (fetchMessages props))]>
       (channelPaginationEnd st)).
Proof. unfold js_exec. by rewrite handleHistoryFetch_run. Qed.

Lemma current_messages_store st1 st2 :
  store st1 = store st2 -> current_messages st1 = current_messages st2.
Proof. unfold store, current_messages. by intros [= -> -> _]. Qed.

Lemma paginationEnd_store st1 st2 : store st1 = store st2 -> paginationEnd st1 = paginationEnd st2.
Proof. unfold store, paginationEnd. by intros [= -> _ ->]. Qed.

Lemma messagesEffect_store st : store (js_exec messagesEffect st) = store st.
Proof.
  unfold js_exec. destruct (decide (current_messages st = [])) as [Hn|Hn].
  - by rewrite messagesEffect_nil.
  - rewrite (messagesEffect_run st _ eq_refl Hn). simpl. by destruct (_ && _).
Qed.

(** The [channel] effect only writes [fetchingMessages]. *)
Lemma channelEffect_keeps props pubnub st :
  let st' := js_exec (channelEffect props pubnub) st in
  store st' = store st /\ local_view st' = local_view st.
Proof.
  unfold channelEffect, fetchHistory_request. js_run.
  destruct pubnub, (String.eqb _ ""), (bool_decide _), (Nat.eqb (fetchMessages props) 0); done.
Qed.

Lemma channelEffect_ok props pubnub st : (channelEffect props pubnub st).2 = Ok tt.
Proof.
  unfold channelEffect, fetchHistory_request. js_run.
  destruct pubnub, (String.eqb _ ""), (bool_decide _), (Nat.eqb (fetchMessages props) 0); done.
Qed.

(** When the list is the one the effect last saw, the effect changes
    neither the count nor the lists. *)
Lemma messagesEffect_seen st :
  prevMessages st = current_messages st ->
  let st' := js_exec messagesEffect st in
  current_messages st' = current_messages st /\ unreadMessages st' = unreadMessages st /\
  prevMessages st' = prevMessages st.
Proof.
  intros Hp st'. subst st'. unfold js_exec.
  destruct (decide (current_messages st = [])) as [Hn|Hn].
  - by rewrite messagesEffect_nil.
  - rewrite (messagesEffect_run st _ eq_refl Hn), Hp, Z.sub_diag, andb_false_r. simpl.
    done.
Qed.

(** C15: A history page leaves the count of unread messages alone: the
    [messages] effect that follows the merge finds [prevMessages] already
    equal to the merged list. *)
Theorem history_merge_not_unread props r st :
  let st1 := js_exec (handleHistoryFetch props r) st in
  let st2 := js_exec messagesEffect st1 in
  current_messages st2 = merge_history (current_messages st) (page_of (currentChannel st) r) /\
  unreadMessages st2 = unreadMessages st /\ prevMessages st2 = current_messages st2.
Proof.
  intros st1 st2. pose proof (current_messages_after_fetch props r st) as Hc. fold st1 in Hc.
  assert (Hp : prevMessages st1 = current_messages st1).
  { rewrite Hc. unfold st1, js_exec. by rewrite handleHistoryFetch_run. }
  destruct (messagesEffect_seen st1 Hp) as (H1 & H2 & H3). fold st2 in H1, H2, H3.
  rewrite H1, H2, H3, Hp. split_and!; [done| |done].
  unfold st1, js_exec. by rewrite handleHistoryFetch_run.
Qed.

(** [handleHistoryFetch] on a response that has no page for the current
    channel (the response of a request made for the channel shown before a
    switch) marks the current channel's history as exhausted and leaves its
    messages as they are: the spinner disappears and no older page of the
    current channel is ever requested by scrolling. *)
Lemma handleHistoryFetch_foreign_response props r st :
  fetchMessages props <> 0 -> page_of (currentChannel st) r = [] ->
  tt_sorted (current_messages st) ->
  let st' := js_exec (handleHistoryFetch props r) st in
  current_messages st' = current_messages st /\ paginationEnd st' = true /\
  spinner_shown props st' = false.
Proof.
  intros Hf Hp Hs st'. subst st'.
  split; [rewrite current_messages_after_fetch, Hp; by apply merge_history_nil_r|].
  assert (Hpe : paginationEnd (js_exec (handleHistoryFetch props r) st) = true).
  { unfold js_exec. rewrite handleHistoryFetch_run. unfold paginationEnd. simpl.
    rewrite lookup_insert_eq, Hp. simpl. destruct (fetchMessages props); [done|].
    by rewrite orb_true_r. }
  split; [done|]. unfold spinner_shown. by rewrite Hpe, andb_false_r.
Qed.

(** The [messages] effect adds the difference of lengths between the list
    and the list it last saw to the unread count when the list is not at the
    bottom: the difference is the number of live messages only when nothing
    else changed the list, and it is negative when the list got shorter (a
    switch to a channel with fewer messages). *)
Lemma messagesEffect_unread st :
  scrolledBottom st = false -> current_messages st <> [] ->
  unreadMessages (js_exec messagesEffect st) =
    (unreadMessages st + Z.of_nat (length (current_messages st))
       - Z.of_nat (length (prevMessages st)))%Z.
Proof.
  intros Hb Hn. unfold js_exec. rewrite (messagesEffect_run st _ eq_refl Hn), Hb. simpl.
  destruct (Z.eqb_spec (Z.of_nat (length (current_messages st)) - Z.of_nat (length (prevMessages st))) 0);
    simpl; lia.
Qed.

(** A click on a rendered reaction removes the user's own reaction with its
    [actionTimetoken] when the user has one for that value, and adds one
    otherwise; the component's state is not touched in either case (no
    optimistic update: the new reaction shows only when the message is
    updated from outside). *)
Theorem reactionClick_toggles me m reaction st :
  js_exec (reactionClick me m reaction) st = st /\
  js_effects (reactionClick me m reaction) st =
    match userReaction me (default [] (js_prop reaction (reactions_of m))) with
    | Some ur => [RemoveMessageAction (currentChannel st) (timetoken m) (actionTimetoken ur)]
    | None => [AddMessageAction (currentChannel st) (Some (timetoken m)) reaction]
    end.
Proof. unfold reactionClick. by destruct (userReaction _ _). Qed.

(** C17: The emoji picker adds the emoji it is given to the message it was
    opened on even when the user already reacted with that emoji, where a
    click on the rendered reaction would remove it: selecting an emoji is not
    idempotent per user and value. *)
Theorem pickerSelect_adds_again me m native ur st :
  reactingToMessage st = Some (timetoken m) ->
  userReaction me (default [] (js_prop native (reactions_of m))) = Some ur ->
  js_effects (pickerSelect native) st =
    [AddMessageAction (currentChannel st) (Some (timetoken m)) native] /\
  js_effects (reactionClick me m native) st =
    [RemoveMessageAction (currentChannel st) (timetoken m) (actionTimetoken ur)] /\
  emojiPickerShown (js_exec (pickerSelect native) st) = false.
Proof.
  intros Hr Hu. unfold js_effects, js_exec, pickerSelect, reactionClick. rewrite Hu.
  js_run. by rewrite Hr.
Qed.

(** [fetchHistory] after its [await]: a page is handed to
    [handleHistoryFetch] and the list scrolls and observes; a failure is
    reported to [onError]; in both cases the [finally] clause clears
    [fetchingMessages], and nothing else of the state changes. *)
Theorem fetchHistory_response_spec (resp : result error FetchMessagesResponse) st :
  js_exec (fetchHistory_response resp) st = set_fetchingMessages false st /\
  js_effects (fetchHistory_response resp) st =
    match resp with
    | Ok h => [RunHistoryFetch h; ScrollToBottom; SetupSpinnerObserver; SetupBottomObserver]
    | Err e => [OnError e]
    end.
Proof. by destruct resp. Qed.

(** The [channel] effect requests the first page exactly when there is a
    client, the channel is not empty, the channel has no messages yet and
    [fetchMessages] is not 0; it then sets [fetchingMessages]. *)
Theorem channelEffect_fetch props pubnub st :
  let fetches := pubnub && negb (String.eqb (currentChannel st) "") &&
                 bool_decide (current_messages st = []) && negb (Nat.eqb (fetchMessages props) 0) in
  js_effects (channelEffect props pubnub) st =
    (if fetches then [FetchMessages (currentChannel st) (fetchMessages props) None] else []) ++
    (if pubnub && negb (String.eqb (currentChannel st) "") then [SetupSpinnerObserver] else []) /\
  fetchingMessages (js_exec (channelEffect props pubnub) st) = fetches || fetchingMessages st.
Proof.
  unfold channelEffect, fetchHistory_request. js_run.
  destruct pubnub, (String.eqb _ ""), (bool_decide _), (Nat.eqb _ 0); split; reflexivity.
Qed.

(** C16: [fetchMoreHistory] requests the page before the first message whenever
    the list is not empty, even after the channel's history is known to be
    exhausted and while another request is in flight: nothing in the
    function checks [paginationEnd] or [fetchingMessages]. *)
Theorem fetchMoreHistory_unguarded props st first rest :
  current_messages st = first :: rest ->
  js_effects (fetchMoreHistory_request props) st =
    [FetchMessages (currentChannel st) (fetchMessages props) (page_start first)] /\
  js_exec (fetchMoreHistory_request props) st = st.
Proof. intros H. unfold fetchMoreHistory_request. js_run. by rewrite H. Qed.

Lemma pickerSelect_adds_again_witness :
  let st := demo_state "demo" [demo_reacted] [demo_reacted] true in
  js_effects (pickerSelect "+1") st =
    [AddMessageAction (currentChannel st) (Some (timetoken demo_reacted)) "+1"] /\
  js_effects (reactionClick "me" demo_reacted "+1") st =
    [RemoveMessageAction (currentChannel st) (timetoken demo_reacted) 8] /\
  emojiPickerShown (js_exec (pickerSelect "+1") st) = false.
Proof.
  apply (pickerSelect_adds_again "me" demo_reacted "+1"
           {| action_uuid := "me"; actionTimetoken := 8 |}); reflexivity.
Defined.

Lemma fetchMoreHistory_unguarded_witness :
  let st := set_channel_paginationEnd "demo" true
              (demo_state "demo" [demo_message 5] [demo_message 5] true) in
  paginationEnd st = true /\
  js_effects (fetchMoreHistory_request demo_props) st =
    [FetchMessages (currentChannel st) (fetchMessages demo_props) (page_start (demo_message 5))] /\
  js_exec (fetchMoreHistory_request demo_props) st = st.
Proof.
  split; [reflexivity|]. apply (fetchMoreHistory_unguarded demo_props _ (demo_message 5) []).
  reflexivity.
Defined.

End HooksMessageList.
