(* ===== verification/HooksEvents.v ===== *)
(** * The hook [MessageList] as a transition system

    What drives the component of [HooksList]: React mounts it, the
    application switches the current channel (it sets [CurrentChannelAtom]
    from [ChannelList]'s [onChannelSwitched]), the SDK settles the
    [fetchMessages] promises in any order, the chat provider appends live
    messages to a channel's messages atom, and the two
    [IntersectionObserver]s report the spinner and the bottom marker.

    After each event React re-renders and runs the effects whose
    dependencies changed, in the order they are declared: the [channel]
    effect when the channel changed, then the [messages] effect when the
    current channel's messages are a new array (a switch, a
    [handleHistoryFetch], a live message on the current channel).  The
    [handleHistoryFetch] a response handler calls runs in the microtasks
    right after that handler, before any other event.  The messages atoms
    refine per-channel logs ([logs], [chan_step]). *)

From Stdlib Require Import ZArith Lia Sorted Permutation String.
From stdpp Require Import base list strings gmap sets.
From S2P Require Import Prelude JsSort Timetoken Message HooksList.

Module HooksEvents.
Import HooksMessageList.

(** A request in flight and the channel it was issued for: the first page
    ([fetchHistory]) or an older one ([fetchMoreHistory]). *)
Inductive request := HistoryRequest (ch : string) | MoreRequest (ch : string).

Definition request_channel (q : request) : string :=
  match q with HistoryRequest ch | MoreRequest ch => ch end.

Record world := {
  lst : ListState;
  mounted : bool;
  spinner_observed : bool;
  bottom_observed : bool;
  pending : list request;
}.

Inductive event :=
| ev_mount                                         (** the first render's effects *)
| ev_switch (ch : string)                          (** [CurrentChannelAtom] is set *)
| ev_response (i : nat) (r : result error (list MessageListMessage))
                                                   (** the [i]-th request settles *)
| ev_live (m : MessageListMessage)                 (** a live message is appended *)
| ev_spinner                                       (** the spinner intersects *)
| ev_bottom (b : bool).                            (** the bottom marker's [isIntersecting] *)

Section world.
Context (props : MessageListProps) (pubnub : bool).

Definition initial_world (ch : string) : world := {|
  lst := initial_state ch; mounted := false; spinner_observed := false;
  bottom_observed := false; pending := [];
|}.

Definition with_state (st : ListState) (w : world) : world := {|
  lst := st; mounted := mounted w; spinner_observed := spinner_observed w;
  bottom_observed := bottom_observed w; pending := pending w;
|}.

(** What an effect does to the world; [mk] tells which kind of request a
    [fetchMessages] of the running handler is. *)
Definition absorb_effect (mk : string -> request) (w : world) (e : effect) : world :=
  match e with
  | FetchMessages ch _ _ =>
      {| lst := lst w; mounted := mounted w; spinner_observed := spinner_observed w;
         bottom_observed := bottom_observed w; pending := pending w ++ [mk ch] |}
  | SetupSpinnerObserver =>
      {| lst := lst w; mounted := mounted w; spinner_observed := spinner_shown props (lst w);
         bottom_observed := bottom_observed w; pending := pending w |}
  | SetupBottomObserver =>
      {| lst := lst w; mounted := mounted w; spinner_observed := spinner_observed w;
         bottom_observed := true; pending := pending w |}
  | _ => w
  end.

(** The [handleHistoryFetch] calls a handler made, with the [messages]
    effect each of them triggers. *)
Fixpoint run_jobs (effs : list effect) (st : ListState) : ListState :=
  match effs with
  | [] => st
  | RunHistoryFetch r :: effs' =>
      run_jobs effs' (js_exec messagesEffect (js_exec (handleHistoryFetch props r) st))
  | _ :: effs' => run_jobs effs' st
  end.

(** Run a handler, apply its effects, run the history merges it started,
    and drop the spinner's observation if the spinner left the DOM. *)
Definition run_handler (mk : string -> request) (h : M unit) (w : world) : world :=
  let '(effs, st', _) := h (lst w) in
  let w2 := foldl (absorb_effect mk) (with_state st' w) effs in
  let w3 := with_state (run_jobs effs (lst w2)) w2 in
  {| lst := lst w3; mounted := mounted w3;
     spinner_observed := spinner_observed w3 && spinner_shown props (lst w3);
     bottom_observed := bottom_observed w3; pending := pending w3 |}.

(** The effects of a render in which the channel changed. *)
Definition channel_render : M unit := channelEffect props pubnub;; messagesEffect.

Definition set_currentChannel (ch : string) (s : ListState) : ListState := {|
  currentChannel := ch; channelMessages := channelMessages s;
  channelPaginationEnd := channelPaginationEnd s; scrolledBottom := scrolledBottom s;
  prevMessages := prevMessages s; unreadMessages := unreadMessages s;
  fetchingMessages := fetchingMessages s; emojiPickerShown := emojiPickerShown s;
  reactingToMessage := reactingToMessage s;
|}.

(** The chat provider's listener: the message is appended to its
    channel's list (the provider is not in the sources). *)
Definition append_live (m : MessageListMessage) (s : ListState) : ListState :=
  set_channel_messages (channel m) (default [] (channelMessages s !! channel m) ++ [m]) s.

Definition live_render (m : MessageListMessage) : M unit :=
  st ← js_state;
  js_modify (append_live m);;
  if String.eqb (channel m) (currentChannel st) then messagesEffect else mret ().

Definition resume (q : request) (r : result error (list MessageListMessage)) : M unit :=
  let resp := match r with
              | Ok page => Ok {| channels := [(request_channel q, page)] |}
              | Err e => Err e
              end in
  match q with
  | HistoryRequest _ => fetchHistory_response resp
  | MoreRequest _ => fetchMoreHistory_response resp
  end.

Definition with_mounted (w : world) : world := {|
  lst := lst w; mounted := true; spinner_observed := spinner_observed w;
  bottom_observed := bottom_observed w; pending := pending w;
|}.

Definition without_request (i : nat) (w : world) : world := {|
  lst := lst w; mounted := mounted w; spinner_observed := spinner_observed w;
  bottom_observed := bottom_observed w; pending := delete i (pending w);
|}.

(** One event, or [None] when it cannot happen in this world. *)
Definition step (w : world) (ev : event) : option world :=
  match ev with
  | ev_mount =>
      if mounted w then None
      else Some (run_handler HistoryRequest channel_render (with_mounted w))
  | ev_switch ch =>
      if negb (mounted w) || String.eqb ch (currentChannel (lst w)) then None
      else Some (run_handler HistoryRequest channel_render
                   (with_state (set_currentChannel ch (lst w)) w))
  | ev_response i r =>
      match pending w !! i with
      | None => None
      | Some q => Some (run_handler MoreRequest (resume q r) (without_request i w))
      end
  | ev_live m => if mounted w then Some (run_handler MoreRequest (live_render m) w) else None
  | ev_spinner =>
      if spinner_observed w then Some (run_handler MoreRequest (fetchMoreHistory_request props) w)
      else None
  | ev_bottom b =>
      if bottom_observed w then Some (run_handler MoreRequest (handleBottomScroll b) w) else None
  end.

Fixpoint run_events (w : world) (evs : list event) : option world :=
  match evs with
  | [] => Some w
  | ev :: evs' => match step w ev with Some w' => run_events w' evs' | None => None end
  end.

Inductive reachable (ch : string) : world -> Prop :=
| reachable_init : reachable ch (initial_world ch)
| reachable_step w ev w' : reachable ch w -> step w ev = Some w' -> reachable ch w'.
End world.

(** A page of [n] messages with timetokens [1 .. n], and a message of
    channel ["b"], for concrete runs. *)
Definition demo_page (n : nat) : list MessageListMessage :=
  map (fun k => demo_message (Z.of_nat k)) (seq 1 n).

Definition demo_live_b : MessageListMessage := {|
  channel := "b"; text := "hi"; sender := None; attachments := None; timetoken := 100; publisher := Some "bob"; uuid := None;
  actions := [];
|}.

(** The list at the bottom shows no unread count. *)
Definition bottom_ok (st : ListState) : Prop := scrolledBottom st = true -> unreadMessages st = 0%Z.

(** The channels of the [fetchMessages] calls among effects. *)
Definition fetch_channels (effs : list effect) : list string :=
  omap (fun e => match e with FetchMessages ch _ _ => Some ch | _ => None end) effs.

(** ** The store as per-channel logs

    What the component and the chat provider promise of the messages
    atoms: each channel's list is the pages merged into it by
    [merge_history] and the live messages of that channel appended.  A
    page is merged into the channel shown when it settles; it brings that
    channel's part of the response, which is empty when the request was
    for another channel. *)
Definition logs (st : ListState) (c : string) : list MessageListMessage :=
  default [] (channelMessages st !! c).

Inductive chan_event :=
| ChanPage (ch : string) (page : list MessageListMessage)
| ChanLive (m : MessageListMessage).

Definition chan_step (a : string -> list MessageListMessage) (e : chan_event) :
    string -> list MessageListMessage :=
  match e with
  | ChanPage ch p => fun c => if String.eqb c ch then merge_history (a ch) p else a c
  | ChanLive m => fun c => if String.eqb c (channel m) then a c ++ [m] else a c
  end.

(** What an event of world [w] is in the logs. *)
Definition chan_of (w : world) (e : event) : list chan_event :=
  match e with
  | ev_response i (Ok page) =>
      match pending w !! i with
      | Some q => let ch := currentChannel (lst w) in
                  [ChanPage ch (if String.eqb (request_channel q) ch then page else [])]
      | None => []
      end
  | ev_live m => [ChanLive m]
  | _ => []
  end.

(** ** Lemmas on the world *)

Section lemmas.
Context (props : MessageListProps) (pubnub : bool).

Lemma foldl_absorb_lst mk effs w : lst (foldl (absorb_effect props mk) w effs) = lst w.
Proof.
  revert w. induction effs as [|e effs IH]; intros w; simpl; [done|].
  rewrite IH. by destruct e.
Qed.

Lemma run_handler_lst mk h w :
  lst (run_handler props mk h w) = run_jobs props (js_effects h (lst w)) (js_exec h (lst w)).
Proof.
  unfold run_handler, js_exec, js_effects. destruct (h (lst w)) as [[effs st'] r].
  simpl. by rewrite foldl_absorb_lst.
Qed.

Section invariant.
Context (P : ListState -> Prop).
Context (Hhist : forall r, js_preserves P (handleHistoryFetch props r))
        (Hmsg : js_preserves P messagesEffect).

Lemma run_jobs_preserves effs st : P st -> P (run_jobs props effs st).
Proof using Hhist Hmsg.
  unfold js_preserves in *. revert st. induction effs as [|[] effs IH]; intros st Hs; simpl; auto.
Qed.

(** A property of the component's state holds in every reachable world
    when the initial state has it and every handler keeps it. *)
Lemma reachable_preserved ch :
  P (initial_state ch) ->
  (forall c s, P s -> P (set_currentChannel c s)) ->
  js_preserves P (channel_render props pubnub) ->
  (forall q r, js_preserves P (resume q r)) ->
  (forall m, js_preserves P (live_render m)) ->
  js_preserves P (fetchMoreHistory_request props) ->
  (forall b, js_preserves P (handleBottomScroll b)) ->
  forall w, reachable props pubnub ch w -> P (lst w).
Proof.
  intros Hi Hc Hch Hres Hlive Hmore Hbot w Hr.
  induction Hr as [|w ev w' Hr IH Hs]; [done|].
  assert (Hrun : forall mk h w0, js_preserves P h -> P (lst w0) -> P (lst (run_handler props mk h w0))).
  { intros mk h w0 Hh H0. rewrite run_handler_lst. by apply run_jobs_preserves, Hh. }
  destruct ev; simpl in Hs; repeat case_match; simplify_eq; apply Hrun; simpl; auto.
Qed.
End invariant.

Lemma foldl_absorb_requests mk effs w :
  pending (foldl (absorb_effect props mk) w effs) = pending w ++ (mk <$> fetch_channels effs).
Proof.
  revert w. induction effs as [|e effs IH]; intros w; simpl; [by rewrite app_nil_r|].
  rewrite IH. destruct e; simpl; by rewrite <- ?app_assoc.
Qed.

Lemma run_handler_requests mk h w :
  pending (run_handler props mk h w) = pending w ++ (mk <$> fetch_channels (js_effects h (lst w))).
Proof.
  unfold run_handler, js_effects. destruct (h (lst w)) as [[effs st'] r].
  simpl. by rewrite foldl_absorb_requests.
Qed.

Lemma messagesEffect_fetching b : js_preserves (fun s => fetchingMessages s = b) messagesEffect.
Proof.
  intros s Hs. unfold js_exec. destruct (decide (current_messages s = [])).
  - by rewrite messagesEffect_nil.
  - rewrite (messagesEffect_run s _ eq_refl) by done. simpl. by case_match.
Qed.

(** The history merges a handler starts leave [fetchingMessages] alone. *)
Lemma run_handler_fetching mk h w :
  fetchingMessages (lst (run_handler props mk h w)) = fetchingMessages (js_exec h (lst w)).
Proof.
  rewrite run_handler_lst.
  apply (run_jobs_preserves (fun s => fetchingMessages s = fetchingMessages (js_exec h (lst w))));
    [|apply messagesEffect_fetching|done].
  intros r. unfold handleHistoryFetch. js_preserve; intros s Hs; exact Hs.
Qed.

Lemma fetch_channels_app l1 l2 : fetch_channels (l1 ++ l2) = fetch_channels l1 ++ fetch_channels l2.
Proof. apply omap_app. Qed.

(** [messagesEffect] requests no page. *)
Lemma messagesEffect_no_fetch st : fetch_channels (js_effects messagesEffect st) = [].
Proof.
  unfold js_effects. destruct (decide (current_messages st = [])).
  - by rewrite messagesEffect_nil.
  - rewrite (messagesEffect_run st _ eq_refl) by done. by destruct (scrolledBottom st).
Qed.

(** [channelEffect] sets [fetchingMessages] only with a request for the
    first page. *)
Lemma channelEffect_fetching st :
  fetchingMessages (js_exec (channelEffect props pubnub) st) = true ->
  fetchingMessages st = true \/ fetch_channels (js_effects (channelEffect props pubnub) st) <> [].
Proof.
  unfold channelEffect, fetchHistory_request. js_run.
  destruct pubnub, (String.eqb _ ""), (bool_decide _), (Nat.eqb (fetchMessages props) 0);
    simpl; auto.
Qed.

(** The render after a channel change sets [fetchingMessages] only with
    a request for the first page. *)
Lemma channel_render_fetching st :
  fetchingMessages (js_exec (channel_render props pubnub) st) = true ->
  fetchingMessages st = true \/ fetch_channels (js_effects (channel_render props pubnub) st) <> [].
Proof.
  unfold channel_render, mbind, js_mbind.
  rewrite (js_exec_bind_ok _ (fun _ => messagesEffect) _ tt),
    (js_effects_bind_ok _ (fun _ => messagesEffect) _ tt) by apply channelEffect_ok.
  rewrite (messagesEffect_fetching _ _ eq_refl), fetch_channels_app, messagesEffect_no_fetch, app_nil_r.
  apply channelEffect_fetching.
Qed.

Lemma resume_fetching q r st :
  fetchingMessages (js_exec (resume q r) st) =
    match q with HistoryRequest _ => false | MoreRequest _ => fetchingMessages st end.
Proof. by destruct q, r. Qed.

(** The handlers of live messages and of the two observers leave
    [fetchingMessages] alone. *)
Lemma quiet_fetching h st :
  (exists m, h = live_render m) \/ h = fetchMoreHistory_request props \/ (exists b, h = handleBottomScroll b) ->
  fetchingMessages (js_exec h st) = fetchingMessages st.
Proof.
  pose proof (messagesEffect_fetching (fetchingMessages st)) as Hm. intros Hh.
  assert (Hq : js_preserves (fun s => fetchingMessages s = fetchingMessages st) h).
  { destruct Hh as [[m ->]|[->|[b ->]]];
      [unfold live_render|unfold fetchMoreHistory_request|unfold handleBottomScroll];
      js_preserve; intros s Hs; exact Hs. }
  exact (Hq st eq_refl).
Qed.

Lemma elem_of_delete_other {A} (x y : A) (l : list A) i :
  x ∈ l -> l !! i = Some y -> x <> y -> x ∈ delete i l.
Proof.
  intros Hx Hi Hne. apply list_elem_of_lookup in Hx as [j Hj].
  destruct (decide (j < i)) as [Hlt|Hge].
  - apply list_elem_of_lookup. exists j. by rewrite list_lookup_delete_lt.
  - destruct (decide (j = i)) as [->|Hji]; [congruence|].
    apply list_elem_of_lookup. exists (j - 1). rewrite list_lookup_delete_ge by lia.
    by replace (S (j - 1)) with j by lia.
Qed.

Lemma run_handler_spinner_observed mk h w :
  spinner_observed (run_handler props mk h w) = true ->
  spinner_shown props (lst (run_handler props mk h w)) = true.
Proof.
  unfold run_handler. destruct (h (lst w)) as [[effs st'] r]. simpl.
  by intros [_ ?]%andb_prop.
Qed.

(** A settled request hands its page to [handleHistoryFetch]; the response
    handler itself does not touch the store. *)
Lemma run_handler_resume_ok q page w :
  let resp := {| channels := [(request_channel q, page)] |} in
  lst (run_handler props MoreRequest (resume q (Ok page)) w) =
    js_exec messagesEffect (js_exec (handleHistoryFetch props resp) (js_exec (resume q (Ok page)) (lst w))) /\
  store (js_exec (resume q (Ok page)) (lst w)) = store (lst w).
Proof. rewrite run_handler_lst. by destruct q. Qed.

Lemma run_jobs_nojobs effs st :
  Forall (fun e => forall r, e <> RunHistoryFetch r) effs -> run_jobs props effs st = st.
Proof.
  induction 1 as [|e effs He _ IH]; [done|]. destruct e; simpl; try done.
  by destruct (He response).
Qed.

Lemma channel_render_nojobs : js_emits_only (fun e => forall r, e <> RunHistoryFetch r)
  (channel_render props pubnub).
Proof.
  unfold channel_render, channelEffect, fetchHistory_request, messagesEffect.
  js_emits; intros ?; discriminate.
Qed.

(** The state after a render with a new channel: the [messages] effect
    runs on the state the [channel] effect leaves. *)
Lemma channel_render_lst w :
  lst (run_handler props HistoryRequest (channel_render props pubnub) w) =
    js_exec messagesEffect (js_exec (channelEffect props pubnub) (lst w)).
Proof.
  rewrite run_handler_lst, run_jobs_nojobs by apply channel_render_nojobs.
  unfold channel_render, mbind, js_mbind.
  rewrite (js_exec_bind_ok (channelEffect props pubnub) (fun _ => messagesEffect) _ tt); [done|].
  apply channelEffect_ok.
Qed.

Lemma page_of_other c ch page : c <> ch -> page_of ch {| channels := [(c, page)] |} = [].
Proof. intros Hc. unfold page_of. simpl. by rewrite (proj2 (String.eqb_neq ch c)) by congruence. Qed.

Lemma messagesEffect_bottom_ok : js_preserves bottom_ok messagesEffect.
Proof.
  intros s Hs. unfold js_exec.
  destruct (decide (current_messages s = [])) as [Hn|Hn]; [by rewrite messagesEffect_nil|].
  rewrite (messagesEffect_run s _ eq_refl Hn). unfold bottom_ok in *.
  destruct (scrolledBottom s) eqn:Hb; simpl; [by rewrite Hb|].
  case_match; simpl; by rewrite Hb.
Qed.

Lemma handleBottomScroll_bottom_ok b : js_preserves bottom_ok (handleBottomScroll b).
Proof. intros s Hs. unfold bottom_ok, handleBottomScroll in *. destruct b; js_run; by intros ?. Qed.

Lemma handleHistoryFetch_bottom_ok r : js_preserves bottom_ok (handleHistoryFetch props r).
Proof. unfold handleHistoryFetch. js_preserve; intros s Hs; exact Hs. Qed.

(** The handlers other than [handleHistoryFetch] and the live append
    leave the messages atoms alone. *)
Lemma messagesEffect_keeps_messages M :
  js_preserves (fun s => channelMessages s = M) messagesEffect.
Proof.
  intros s Hs. unfold js_exec. destruct (decide (current_messages s = [])).
  - by rewrite messagesEffect_nil.
  - rewrite (messagesEffect_run s _ eq_refl) by done. simpl. by case_match.
Qed.

Lemma resume_keeps_messages M q r : js_preserves (fun s => channelMessages s = M) (resume q r).
Proof. unfold resume, fetchHistory_response, fetchMoreHistory_response. js_preserve; done. Qed.

Lemma run_handler_keeps_messages mk h w :
  js_emits_only (fun e => forall r, e <> RunHistoryFetch r) h ->
  (forall M, js_preserves (fun s => channelMessages s = M) h) ->
  forall c, logs (lst (run_handler props mk h w)) c = logs (lst w) c.
Proof.
  intros Hj Hp c. rewrite run_handler_lst, run_jobs_nojobs by apply Hj.
  unfold logs. by rewrite (Hp _ (lst w) eq_refl).
Qed.

Lemma channel_render_logs w :
  logs (lst (run_handler props HistoryRequest (channel_render props pubnub) w)) = logs (lst w).
Proof.
  rewrite channel_render_lst. unfold logs. rewrite (messagesEffect_keeps_messages _ _ eq_refl).
  pose proof (proj1 (channelEffect_keeps props pubnub (lst w))) as Hk. unfold store in Hk.
  injection Hk as _ -> _. done.
Qed.

Lemma logs_insert st ch ms c :
  logs (set_channel_messages ch ms st) c = if String.eqb c ch then ms else logs st c.
Proof.
  unfold logs. simpl. destruct (String.eqb_spec c ch) as [->|Hne].
  - by rewrite lookup_insert_eq.
  - by rewrite lookup_insert_ne by congruence.
Qed.

Lemma live_render_logs m st c :
  logs (js_exec (live_render m) st) c =
    if String.eqb c (channel m) then logs st c ++ [m] else logs st c.
Proof.
  pose proof (messagesEffect_keeps_messages _ (append_live m st) eq_refl) as Hk.
  unfold live_render. js_run. unfold js_exec in Hk.
  transitivity (logs (append_live m st) c).
  2: { unfold append_live. rewrite logs_insert. by destruct (String.eqb_spec c (channel m)) as [->|]. }
  destruct (String.eqb _ _); [|done].
  destruct (messagesEffect (append_live m st)) as [[e s'] r]. unfold logs. by rewrite Hk.
Qed.

Lemma page_of_pair c ch page :
  page_of ch {| channels := [(c, page)] |} = if String.eqb c ch then page else [].
Proof.
  unfold page_of. simpl. rewrite (String.eqb_sym ch c). by destruct (String.eqb c ch).
Qed.

Lemma handleHistoryFetch_logs r st c :
  logs (js_exec (handleHistoryFetch props r) st) c =
    if String.eqb c (currentChannel st)
    then merge_history (logs st (currentChannel st)) (page_of (currentChannel st) r)
    else logs st c.
Proof.
  unfold handleHistoryFetch. js_run.
  exact (logs_insert (set_prevMessages _ (set_emojiPickerShown false st)) _ _ c).
Qed.
End lemmas.

(** C26: the hook component refines the per-channel logs: every event
    changes the messages atoms as its log events say.  A settled page is
    merged into the channel shown when it settles, with the messages of
    that channel it holds, none when it was requested for another channel;
    a live message is appended to its own channel's list; mounting,
    switching, failed requests, the spinner and scrolling change no list. *)
Theorem hooks_store_refines_logs props pubnub w e w' :
  step props pubnub w e = Some w' ->
  forall c, logs (lst w') c = foldl chan_step (logs (lst w)) (chan_of w e) c.
Proof.
  intros Hs c. destruct e as [| ch | i [page|er] | m | | b]; simpl in Hs; repeat case_match;
    simplify_eq; simpl.
  - by rewrite channel_render_logs.
  - by rewrite channel_render_logs.
  - destruct (run_handler_resume_ok props r page (without_request i w)) as [-> Hst].
    match goal with H : pending w !! i = Some _ |- _ => rewrite H end. simpl in Hst |- *.
    unfold logs at 1. rewrite (messagesEffect_keeps_messages _ _ eq_refl).
    change (default [] (channelMessages ?s !! c)) with (logs s c).
    injection Hst as Hc Hm. rewrite handleHistoryFetch_logs, page_of_pair, Hc.
    unfold logs. by rewrite Hm.
  - apply (run_handler_keeps_messages _ _ _ (without_request i w)); [|intros M; apply resume_keeps_messages].
    intros s. unfold js_effects, resume.
    destruct r; unfold fetchHistory_response, fetchMoreHistory_response; js_run;
      repeat constructor; intros ?; discriminate.
  - rewrite run_handler_lst, run_jobs_nojobs, live_render_logs; [done|].
    unfold live_render, messagesEffect. js_emits; intros ?; discriminate.
  - apply run_handler_keeps_messages.
    + unfold fetchMoreHistory_request. js_emits; intros ?; discriminate.
    + intros M. unfold fetchMoreHistory_request. js_preserve.
  - apply run_handler_keeps_messages.
    + unfold handleBottomScroll. js_emits.
    + intros M. unfold handleBottomScroll. js_preserve; done.
Qed.

Lemma hooks_store_refines_logs_witness :
  let ev := ev_live demo_live_b in
  match run_events demo_props true (initial_world "demo") [ev_mount; ev_response 0 (Ok (demo_page 2))] with
  | Some w =>
      match step demo_props true w ev with
      | Some w' => logs (lst w') "demo" = demo_page 2 /\ logs (lst w') "b" = [demo_live_b] /\
                   forall c, logs (lst w') c = foldl chan_step (logs (lst w)) (chan_of w ev) c
      | None => False
      end
  | None => False
  end.
Proof.
  intros ev.
  destruct (run_events demo_props true (initial_world "demo") [ev_mount; ev_response 0 (Ok (demo_page 2))])
    as [w|] eqn:E1; [|vm_compute in E1; discriminate E1].
  destruct (step demo_props true w ev) as [w'|] eqn:E2.
  - split_and!; [vm_compute in E1; injection E1 as <-; vm_compute in E2; injection E2 as <-;
                 reflexivity..|].
    exact (hooks_store_refines_logs demo_props true w ev w' E2).
  - vm_compute in E1. injection E1 as <-. vm_compute in E2. discriminate E2.
Defined.

(** C14: The list at the bottom shows no unread count, in every world the
    events reach. *)
Theorem hooks_bottom_no_unread props pubnub ch w :
  reachable props pubnub ch w -> scrolledBottom (lst w) = true -> unreadMessages (lst w) = 0%Z.
Proof.
  pose proof (messagesEffect_bottom_ok) as Hm.
  pose proof (handleHistoryFetch_bottom_ok props) as Hh.
  intros Hr. revert Hr. apply (reachable_preserved props pubnub bottom_ok Hh Hm).
  - done.
  - intros c s Hs. exact Hs.
  - unfold channel_render, channelEffect, fetchHistory_request. js_preserve; intros s Hs; exact Hs.
  - intros [] r; unfold resume, fetchHistory_response, fetchMoreHistory_response;
      js_preserve; intros s Hs; exact Hs.
  - intros m. unfold live_render. js_preserve; intros s Hs; exact Hs.
  - unfold fetchMoreHistory_request. js_preserve.
  - apply handleBottomScroll_bottom_ok.
Qed.

(** C24: the component shows it is fetching (the welcome message is
    hidden) only while a request for a first page is in flight: in every
    reachable world, [fetchingMessages] implies a pending [fetchHistory]
    request. *)
Theorem fetching_has_first_page_request props pubnub ch w :
  reachable props pubnub ch w -> fetchingMessages (lst w) = true ->
  exists c, HistoryRequest c ∈ pending w.
Proof.
  induction 1 as [|w ev w' Hr IH Hs]; [done|]. intros Hf.
  assert (Hgrow : forall mk h w0, (exists c, HistoryRequest c ∈ pending w0) ->
                    exists c, HistoryRequest c ∈ pending (run_handler props mk h w0)).
  { intros mk h w0 [c Hc]. exists c. rewrite run_handler_requests. set_solver. }
  assert (Hnew : forall w0 st, fetch_channels (js_effects (channel_render props pubnub) st) <> [] ->
                   lst w0 = st ->
                   exists c, HistoryRequest c ∈ pending (run_handler props HistoryRequest (channel_render props pubnub) w0)).
  { intros w0 st Hc <-. destruct (fetch_channels _) as [|c cs] eqn:E; [done|].
    exists c. rewrite run_handler_requests, E. set_solver. }
  destruct ev; simpl in Hs; repeat case_match; simplify_eq; rewrite run_handler_fetching in Hf.
  - apply channel_render_fetching in Hf as [Hf|Hf]; [apply Hgrow, IH, Hf|by eapply Hnew].
  - apply channel_render_fetching in Hf as [Hf|Hf]; [apply Hgrow, IH, Hf|by eapply Hnew].
  - rewrite resume_fetching in Hf. destruct r0 as [c'|c']; [done|].
    destruct (IH Hf) as [c Hc]. exists c. rewrite run_handler_requests. apply elem_of_app. left.
    by apply (elem_of_delete_other _ (MoreRequest c')).
  - rewrite (quiet_fetching props) in Hf by eauto. apply Hgrow, IH, Hf.
  - rewrite (quiet_fetching props) in Hf by auto. apply Hgrow, IH, Hf.
  - rewrite (quiet_fetching props) in Hf by eauto. apply Hgrow, IH, Hf.
Qed.

Lemma fetching_has_first_page_request_witness :
  match step demo_props true (initial_world "demo") ev_mount with
  | Some w => reachable demo_props true "demo" w /\ fetchingMessages (lst w) = true /\
              exists c, HistoryRequest c ∈ pending w
  | None => False
  end.
Proof.
  destruct (step demo_props true (initial_world "demo") ev_mount) as [w|] eqn:E;
    [|vm_compute in E; discriminate E].
  assert (Hr : reachable demo_props true "demo" w) by (eapply reachable_step; [apply reachable_init|exact E]).
  assert (Hf : fetchingMessages (lst w) = true) by (vm_compute in E; injection E as <-; reflexivity).
  split_and!; [exact Hr|exact Hf|]. exact (fetching_has_first_page_request demo_props true "demo" w Hr Hf).
Defined.

(** C12: A page that settles after the user switched channels is merged into
    the channel shown now, where it contributes nothing, and that channel's
    pagination is marked finished: the page is lost for the channel it was
    fetched for, and the spinner of the channel shown is removed and no
    longer observed, so its older history is never requested. *)
Theorem stale_response_ends_pagination props pubnub w i q page :
  pending w !! i = Some q -> request_channel q <> currentChannel (lst w) ->
  fetchMessages props <> 0 -> tt_sorted (current_messages (lst w)) ->
  exists w', step props pubnub w (ev_response i (Ok page)) = Some w' /\
    current_messages (lst w') = current_messages (lst w) /\
    channelMessages (lst w') !! request_channel q = channelMessages (lst w) !! request_channel q /\
    paginationEnd (lst w') = true /\ spinner_shown props (lst w') = false /\
    spinner_observed w' = false.
Proof.
  intros Hq Hc Hf Hs. simpl. rewrite Hq. eexists. split; [reflexivity|].
  destruct (run_handler_resume_ok props q page (without_request i w)) as [Hl Hst].
  cbn [lst without_request] in Hl, Hst. rewrite Hl.
  set (s0 := js_exec (resume q (Ok page)) (lst w)) in *.
  set (resp := {| channels := [(request_channel q, page)] |}).
  assert (Hcc : currentChannel s0 = currentChannel (lst w)) by (by inversion Hst).
  assert (Hp : page_of (currentChannel s0) resp = []) by (rewrite Hcc; by apply page_of_other).
  rewrite <-(current_messages_store _ _ Hst) in Hs |- *.
  destruct (handleHistoryFetch_foreign_response props resp s0 Hf Hp Hs) as (H1 & H2 & H3).
  pose proof (messagesEffect_store (js_exec (handleHistoryFetch props resp) s0)) as Hm.
  assert (Hsp : spinner_shown props (js_exec messagesEffect (js_exec (handleHistoryFetch props resp) s0)) = false).
  { unfold spinner_shown in *. by rewrite (paginationEnd_store _ _ Hm). }
  split_and!.
  - by rewrite (current_messages_store _ _ Hm).
  - pose proof (store_after_fetch props resp s0) as Hsf.
    apply (f_equal (fun x => x.1.2)) in Hm, Hsf, Hst. cbn in Hm, Hsf, Hst.
    rewrite Hm, Hsf, lookup_insert_ne by congruence. by rewrite Hst.
  - by rewrite (paginationEnd_store _ _ Hm).
  - done.
  - destruct (spinner_observed _) eqn:Ho; [|done].
    apply run_handler_spinner_observed in Ho. rewrite Hl in Ho. fold s0 resp in Ho. congruence.
Qed.

(** C13: On a switch to a channel that already has messages while the list is
    scrolled up, the [messages] effect adds the difference between that
    channel's length and the length of the list last shown to the unread
    count, although no message arrived: the count jumps, or goes negative
    when the new channel has fewer messages. *)
Theorem switch_counts_length_difference props pubnub w ch :
  mounted w = true -> ch <> currentChannel (lst w) -> scrolledBottom (lst w) = false ->
  default [] (channelMessages (lst w) !! ch) <> [] ->
  exists w', step props pubnub w (ev_switch ch) = Some w' /\ currentChannel (lst w') = ch /\
    unreadMessages (lst w') =
      (unreadMessages (lst w) + Z.of_nat (length (default [] (channelMessages (lst w) !! ch)))
       - Z.of_nat (length (prevMessages (lst w))))%Z.
Proof.
  intros Hm Hc Hb Hn. simpl. rewrite Hm, (proj2 (String.eqb_neq _ _) Hc). simpl.
  eexists. split; [reflexivity|]. rewrite channel_render_lst. cbn [lst with_state].
  set (s1 := set_currentChannel ch (lst w)).
  destruct (channelEffect_keeps props pubnub s1) as [Hst Hlv].
  set (s2 := js_exec (channelEffect props pubnub) s1) in *.
  assert (Hcm : current_messages s2 = default [] (channelMessages (lst w) !! ch))
    by (by rewrite (current_messages_store _ _ Hst)).
  unfold local_view in Hlv. injection Hlv as Hb2 Hu2 Hp2.
  split.
  - rewrite <-(messagesEffect_store s2) in Hst. by inversion Hst.
  - rewrite messagesEffect_unread; [|by rewrite Hb2|by rewrite Hcm]. by rewrite Hu2, Hcm, Hp2.
Qed.

(** On a channel without history the first page is empty: pagination
    ends, the spinner goes, and the welcome message shows once the request
    has settled, whatever the page size. *)
Theorem empty_channel_shows_welcome n reactions :
  let props := {| fetchMessages := S n; enableReactions := reactions |} in
  exists w, run_events props true (initial_world "demo") [ev_mount; ev_response 0 (Ok [])] = Some w /\
    welcome_shown (lst w) = true /\ spinner_shown props (lst w) = false /\
    fetchingMessages (lst w) = false /\ pending w = [].
Proof. intros props. eexists. split; [vm_compute; reflexivity|]. vm_compute. done. Qed.

Lemma hooks_bottom_no_unread_witness :
  match step demo_props true (initial_world "demo") ev_mount with
  | Some w => reachable demo_props true "demo" w /\ scrolledBottom (lst w) = true /\
              unreadMessages (lst w) = 0%Z
  | None => False
  end.
Proof.
  destruct (step demo_props true (initial_world "demo") ev_mount) as [w|] eqn:E;
    [|vm_compute in E; discriminate E].
  assert (Hr : reachable demo_props true "demo" w) by (eapply reachable_step; [apply reachable_init|exact E]).
  assert (Hb : scrolledBottom (lst w) = true) by (vm_compute in E; injection E as <-; reflexivity).
  split_and!; [exact Hr|exact Hb|]. exact (hooks_bottom_no_unread demo_props true "demo" w Hr Hb).
Defined.

Lemma stale_response_ends_pagination_witness :
  match run_events demo_props true (initial_world "a")
          [ev_mount; ev_switch "b"; ev_response 1 (Ok (demo_page 25))] with
  | Some w =>
      spinner_shown demo_props (lst w) = true /\
      exists w', step demo_props true w (ev_response 0 (Ok [demo_message 1])) = Some w' /\
        current_messages (lst w') = current_messages (lst w) /\
        channelMessages (lst w') !! request_channel (HistoryRequest "a") =
          channelMessages (lst w) !! request_channel (HistoryRequest "a") /\
        paginationEnd (lst w') = true /\ spinner_shown demo_props (lst w') = false /\
        spinner_observed w' = false
  | None => False
  end.
Proof.
  destruct (run_events demo_props true (initial_world "a")
              [ev_mount; ev_switch "b"; ev_response 1 (Ok (demo_page 25))]) as [w|] eqn:E;
    [|vm_compute in E; discriminate E].
  vm_compute in E. injection E as <-. split; [reflexivity|].
  apply (stale_response_ends_pagination demo_props true _ 0 (HistoryRequest "a"));
    [reflexivity|discriminate|discriminate|].
  apply tt_sortedb_spec. vm_compute. reflexivity.
Defined.

Lemma switch_counts_length_difference_witness :
  match run_events demo_props true (initial_world "a")
          [ev_mount; ev_response 0 (Ok (demo_page 2)); ev_bottom false; ev_live demo_live_b] with
  | Some w =>
      (unreadMessages (lst w) + Z.of_nat (length (default [] (channelMessages (lst w) !! "b")))
       - Z.of_nat (length (prevMessages (lst w))))%Z = (-1)%Z /\
      exists w', step demo_props true w (ev_switch "b") = Some w' /\ currentChannel (lst w') = "b" /\
        unreadMessages (lst w') =
          (unreadMessages (lst w) + Z.of_nat (length (default [] (channelMessages (lst w) !! "b")))
           - Z.of_nat (length (prevMessages (lst w))))%Z
  | None => False
  end.
Proof.
  destruct (run_events demo_props true (initial_world "a")
              [ev_mount; ev_response 0 (Ok (demo_page 2)); ev_bottom false; ev_live demo_live_b])
    as [w|] eqn:E; [|vm_compute in E; discriminate E].
  vm_compute in E. injection E as <-. split; [reflexivity|].
  apply switch_counts_length_difference; [reflexivity|discriminate|reflexivity|discriminate].
Defined.

End HooksEvents.
