(* ===== verification/TypingIndicator.v ===== *)
(** * The typing indicator (src/src/typing-indicator/typing-indicator.tsx)

    [TypingIndicator] reads the current channel's typing signals, an object
    from user id to the timetoken (a decimal string) of the user's last
    typing signal, and the timeout in seconds.  A user is active when
    [Date.now() - parseInt(timetoken) / 10000 < timeout * 1000]; the label is
    empty, ["<name> is typing..."] or ["Multiple users are typing..."],
    followed by a non-breaking space; with [showAsMessage] the component
    renders one bubble per active user instead ([renderUserBubble]).

    [parseInt] is modelled as the ECMAScript algorithm for radix
    [undefined]: leading white space, a sign, a ["0x"] prefix selecting
    radix 16, the longest prefix of digits, [NaN] ([None]) when there is
    none, and the conversion of the integer to a double ([js_number]; the
    licence ECMAScript gives to drop digits after the 20th does not apply to
    17-digit timetokens).  The
    activity test is computed on the exact value of
    [now - t / 10000]; the double division rounds [t / 10000] by less than a
    millisecond, which only moves the expiry instant by that much.  The
    white space skipped is the ASCII one (the strings are timetokens). *)

From Stdlib Require Import ZArith Lia String Ascii.
From stdpp Require Import base list.
From S2P Require Import Prelude Timetoken Message.

Module TypingIndicator.

Local Open Scope Z_scope.

(** ** [parseInt] *)

Definition is_js_space (c : ascii) : bool :=
  match nat_of_ascii c with 9 | 10 | 11 | 12 | 13 | 32 => true | _ => false end%nat.

Fixpoint skip_ws (l : list ascii) : list ascii :=
  match l with c :: l' => if is_js_space c then skip_ws l' else l | [] => [] end.

(** The value of a digit in radix up to 36. *)
Definition digit_value (c : ascii) : option Z :=
  let n := Z.of_nat (nat_of_ascii c) in
  if (48 <=? n) && (n <=? 57) then Some (n - 48)
  else if (97 <=? n) && (n <=? 122) then Some (n - 87)
  else if (65 <=? n) && (n <=? 90) then Some (n - 55)
  else None.

(** The longest prefix of digits of the radix, accumulated in [acc];
    [None] when there is no digit at all. *)
Fixpoint take_digits (radix : Z) (l : list ascii) (acc : Z) (any : bool) : option Z :=
  match l with
  | c :: l' =>
      match digit_value c with
      | Some d => if d <? radix then take_digits radix l' (acc * radix + d) true
                  else if any then Some acc else None
      | None => if any then Some acc else None
      end
  | [] => if any then Some acc else None
  end.

Definition parse_int (s : string) : option Z :=
  let l := skip_ws (list_ascii_of_string s) in
  let '(sign, l1) := match l with
                     | "-"%char :: r => (-1, r)
                     | "+"%char :: r => (1, r)
                     | _ => (1, l)
                     end in
  let '(radix, l2) := match l1 with
                      | "0"%char :: ("x"%char | "X"%char) :: r => (16, r)
                      | _ => (10, l1)
                      end in
  option_map (fun v => sign * js_number v) (take_digits radix l2 0 false).

(** ** The decimal string of a timetoken ([String(tt)] in the provider) *)

Definition ascii_of_digit (d : Z) : ascii := ascii_of_nat (Z.to_nat (48 + d)).

(** The decimal digits of [n], most significant first, before [acc];
    [fuel] bounds the number of digits. *)
Fixpoint dec_digits (fuel : nat) (n : Z) (acc : list Z) : list Z :=
  let acc' := n mod 10 :: acc in
  match fuel with
  | O => acc'
  | S f => if n <? 10 then acc' else dec_digits f (n / 10) acc'
  end.

Definition to_decimal (n : Z) : string :=
  string_of_list_ascii (map ascii_of_digit (dec_digits (Z.to_nat (Z.log2 n)) n [])).

Definition digits_value (ds : list Z) (acc : Z) : Z := fold_left (fun a d => a * 10 + d) ds acc.

(** ** The component *)

(** [Object.keys(typingIndicators).filter(...)]: the keys in insertion
    order (ids that are array indices would come first; user ids are not). *)
Definition is_active (now timeout : Z) (tt : string) : bool :=
  match parse_int tt with
  | Some t => 10000 * now - t <? 10000000 * timeout
  | None => false
  end.

Definition activeUUIDs (now timeout : Z) (typing : list (string * string)) : list string :=
  map fst (filter (fun p => is_active now timeout p.2) typing).

(** [users.find((u) => u.id === id)] *)
Definition find_user (users : list MessageListUser) (id : string) : option MessageListUser :=
  List.find (fun u => String.eqb (user_id u) id) users.

Definition getIndicationString (users : list MessageListUser) (active : list string) : string :=
  match active with
  | [] => ""
  | [id] =>
      let name := match find_user users id with Some u => user_name u | None => None end in
      js_or_str name "Unknown User" ++ " is typing..."
  | _ :: _ :: _ => "Multiple users are typing..."
  end.

(** [TypingIndicatorProps] *)
Record TypingIndicatorProps := { showAsMessage : bool }.

(** [TypingIndicator.defaultProps] *)
Definition defaultProps : TypingIndicatorProps := {| showAsMessage := false |}.

(** What [renderUserBubble(uuid)] shows: the [pn-msg] element keyed by the
    uuid, the avatar's [src] ([None]: the placeholder) and the author. *)
Record user_bubble := { bubble_key : string; bubble_avatar : option string; bubble_name : string }.

(** What the component renders: the [pn-typing-indicator] element with its
    class and text, or one bubble per active user. *)
Inductive typing_view := Label (cls text : string) | Bubbles (bubbles : list user_bubble).

(** [&nbsp;], U+00A0. *)
Definition nbsp : string := String (ascii_of_nat 160) EmptyString.

Definition renderUserBubble (users : list MessageListUser) (uuid : string) : user_bubble :=
  let user := find_user users uuid in
  {| bubble_key := uuid;
     bubble_avatar := match user with Some u => truthy_str (profileUrl u) | None => None end;
     bubble_name := js_or_str (match user with Some u => user_name u | None => None end) "Unknown User" |}.

(** The returned fragment; [theme] is [ThemeAtom]'s value. *)
Definition render_typing (theme : string) (props : TypingIndicatorProps) (users : list MessageListUser)
    (now timeout : Z) (typing : list (string * string)) : typing_view :=
  let active := activeUUIDs now timeout typing in
  if showAsMessage props then Bubbles (renderUserBubble users <$> active)
  else Label ("pn-typing-indicator pn-typing-indicator--" ++ theme) (getIndicationString users active ++ nbsp).

(** ** [parseInt] of a decimal string *)

Definition is_digit (d : Z) : Prop := 0 <= d < 10.

Lemma is_digit_cases d : is_digit d ->
  d = 0 \/ d = 1 \/ d = 2 \/ d = 3 \/ d = 4 \/ d = 5 \/ d = 6 \/ d = 7 \/ d = 8 \/ d = 9.
Proof. unfold is_digit. lia. Qed.

Lemma digit_value_ascii_of_digit d : is_digit d -> digit_value (ascii_of_digit d) = Some d.
Proof. intros Hd. apply is_digit_cases in Hd. destruct_or! Hd; subst; reflexivity. Qed.

Lemma take_digits_decimal ds acc any : Forall is_digit ds ->
  take_digits 10 (map ascii_of_digit ds) acc any =
    if any || bool_decide (ds <> []) then Some (digits_value ds acc) else None.
Proof.
  intros Hds. revert acc any. induction Hds as [|d ds Hd Hds IH]; intros acc any; simpl.
  - by destruct any.
  - rewrite digit_value_ascii_of_digit by done. unfold is_digit in Hd.
    destruct (Z.ltb_spec d 10); [|lia]. rewrite IH. by rewrite orb_true_r.
Qed.

(** A non-empty string of decimal digits has no white space, sign or
    ["0x"] prefix: [parseInt] reads it in radix 10. *)
Lemma parse_int_decimal ds : ds <> [] -> Forall is_digit ds ->
  parse_int (string_of_list_ascii (map ascii_of_digit ds)) =
    Some (js_number (digits_value ds 0)).
Proof.
  intros Hne Hds. unfold parse_int. rewrite list_ascii_of_string_of_list_ascii.
  destruct ds as [|d ds]; [done|]. inversion Hds as [|? ? Hd Hds']; subst.
  apply is_digit_cases in Hd; destruct_or! Hd; subst;
    [destruct ds as [|d' ds]; [reflexivity|];
     inversion Hds' as [|? ? Hd' Hds'']; subst;
     apply is_digit_cases in Hd'; destruct_or! Hd'; subst|..];
    remember (map ascii_of_digit ds) as L eqn:HL; simpl; subst L;
    rewrite take_digits_decimal by done; simpl; by destruct (js_number _).
Qed.

(** ** The decimal printer *)

Lemma dec_digits_app f n acc : dec_digits f n acc = dec_digits f n [] ++ acc.
Proof.
  revert n acc. induction f as [|f IH]; intros n acc; simpl; [done|].
  destruct (n <? 10); [done|]. rewrite IH, (IH _ [n mod 10]). by rewrite <-app_assoc.
Qed.

Lemma dec_digits_digits f n acc : Forall is_digit acc -> Forall is_digit (dec_digits f n acc).
Proof.
  revert n acc. induction f as [|f IH]; intros n acc Hacc; simpl.
  - constructor; [|done]. unfold is_digit. pose proof (Z.mod_pos_bound n 10). lia.
  - assert (Hd : is_digit (n mod 10)) by (unfold is_digit; pose proof (Z.mod_pos_bound n 10); lia).
    destruct (n <? 10); [by constructor|]. apply IH. by constructor.
Qed.

Lemma dec_digits_value f n : 0 <= n < 10 ^ Z.of_nat (S f) -> digits_value (dec_digits f n []) 0 = n.
Proof.
  revert n. induction f as [|f IH]; intros n Hn; simpl.
  - unfold digits_value. simpl. rewrite Z.mod_small; [done|]. simpl in Hn. lia.
  - destruct (Z.ltb_spec n 10).
    + unfold digits_value. simpl. by rewrite Z.mod_small by lia.
    + rewrite dec_digits_app. unfold digits_value. rewrite fold_left_app. simpl.
      fold (digits_value (dec_digits f (n / 10) []) 0). rewrite IH; [zlia|].
      rewrite Nat2Z.inj_succ, Z.pow_succ_r in Hn by lia. split; [zlia|].
      apply Z.div_lt_upper_bound; lia.
Qed.

Lemma to_decimal_fuel n : 0 <= n -> n < 10 ^ Z.of_nat (S (Z.to_nat (Z.log2 n))).
Proof.
  intros Hn. rewrite Nat2Z.inj_succ, Z2Nat.id by apply Z.log2_nonneg.
  apply (Z.lt_le_trans _ (2 ^ Z.succ (Z.log2 n))).
  - destruct (Z.eq_dec n 0) as [->|]; [done|]. apply Z.log2_spec. lia.
  - apply Z.pow_le_mono_l. pose proof (Z.log2_nonneg n). lia.
Qed.

Lemma is_active_earlier now now' timeout tt :
  now <= now' -> is_active now' timeout tt = true -> is_active now timeout tt = true.
Proof.
  unfold is_active. intros Hle. destruct (parse_int tt); [|done].
  rewrite !Z.ltb_lt. lia.
Qed.

(** The decimal string of a non-negative integer is a non-empty string of
    digits with that value. *)
Lemma to_decimal_digits n : 0 <= n ->
  exists ds, to_decimal n = string_of_list_ascii (map ascii_of_digit ds) /\ ds <> [] /\
    Forall is_digit ds /\ digits_value ds 0 = n.
Proof.
  intros Hn. exists (dec_digits (Z.to_nat (Z.log2 n)) n []). split_and!; [done| | |].
  - destruct (Z.to_nat (Z.log2 n)); simpl; [done|]. case_match; [done|].
    rewrite dec_digits_app. by destruct (dec_digits _ _ []).
  - apply dec_digits_digits. constructor.
  - apply dec_digits_value. split; [done|by apply to_decimal_fuel].
Qed.

(** ** Properties *)

(** [parseInt] reads back the decimal string of a non-negative
    integer as the double nearest to it. *)
Theorem parse_int_to_decimal n : 0 <= n -> parse_int (to_decimal n) = Some (js_number n).
Proof.
  intros Hn. destruct (to_decimal_digits n Hn) as (ds & -> & Hne & Hds & Hv).
  by rewrite parse_int_decimal, Hv.
Qed.

Lemma parse_int_to_decimal_witness :
  parse_int (to_decimal 16999999999999999) = Some (js_number 16999999999999999).
Proof. apply parse_int_to_decimal. lia. Defined.

(** C18: a typing signal whose timetoken [tt] is a 17-digit timetoken is
    shown while [10000 * now] is below the double nearest to [tt] plus the
    timeout; that double is at most 8 ticks (0.8 microseconds) from [tt],
    so the user is shown as typing for the timeout after the signal, to
    within a microsecond. *)
Theorem typing_active_window now timeout tt :
  min_timetoken <= tt <= max_timetoken ->
  (is_active now timeout (to_decimal tt) = true <->
     10000 * now < js_number tt + 10000000 * timeout) /\
  Z.abs (js_number tt - tt) <= 8.
Proof.
  intros Htt. split; [|by apply js_number_timetoken_error].
  unfold is_active. destruct (to_decimal_digits tt) as (ds & -> & Hne & Hds & Hv);
    [unfold min_timetoken in Htt; lia|].
  rewrite parse_int_decimal, Hv, Z.ltb_lt by done. lia.
Qed.

Lemma typing_active_window_witness :
  (is_active 1700000000000 5 (to_decimal 17000000000000001) = true <->
     10000 * 1700000000000 < js_number 17000000000000001 + 10000000 * 5) /\
  Z.abs (js_number 17000000000000001 - 17000000000000001) <= 8.
Proof. apply typing_active_window. unfold min_timetoken, max_timetoken. lia. Defined.

(** As time passes the active typists only drop out: the users shown
    later are a sublist, in the same order, of the users shown now. *)
Theorem activeUUIDs_shrink now now' timeout typing :
  now <= now' -> activeUUIDs now' timeout typing `sublist_of` activeUUIDs now timeout typing.
Proof.
  intros Hle. unfold activeUUIDs. induction typing as [|[id tt] typing IH]; simpl; [done|].
  rewrite !filter_cons. simpl.
  destruct (is_active now' timeout tt) eqn:H'.
  - rewrite (is_active_earlier now now' timeout tt Hle H'). simpl. by apply sublist_skip.
  - destruct (is_active now timeout tt); simpl; [by apply sublist_cons|done].
Qed.

Lemma activeUUIDs_shrink_witness :
  activeUUIDs 1700000000600 1 [("u1", "17000000000000000"); ("u2", "17000000050000000")]%string
    `sublist_of` activeUUIDs 1700000000000 1 [("u1", "17000000000000000"); ("u2", "17000000050000000")]%string.
Proof. apply activeUUIDs_shrink. lia. Defined.

(** The two renderings agree: with one active typist the label names
    the author of the one bubble, with several it names nobody, with none
    it is empty and there are no bubbles. *)
Theorem typing_views_agree theme users now timeout typing :
  match render_typing theme {| showAsMessage := true |} users now timeout typing,
        render_typing theme {| showAsMessage := false |} users now timeout typing with
  | Bubbles [], Label _ l => l = nbsp
  | Bubbles [b], Label _ l => l = (bubble_name b ++ " is typing..." ++ nbsp)%string
  | Bubbles (_ :: _ :: _), Label _ l => l = ("Multiple users are typing..." ++ nbsp)%string
  | _, _ => False
  end.
Proof.
  unfold render_typing, getIndicationString, renderUserBubble. simpl.
  destruct (activeUUIDs now timeout typing) as [|a [|b l]]; [reflexivity| |reflexivity].
  simpl. by rewrite string_app_assoc.
Qed.

End TypingIndicator.
