(* ===== verification/Clock.v ===== *)
(** * The time label of a message ([getTime] of both message lists)

    [getTime(timestamp)] is the same in [src/src/message-list] and
    [src/lib/src/message-list]:
    [new Date(parseInt(String(timestamp)) / 10000)], then
    [`${date.getHours()}:${minutes > 9 ? minutes : "0" + minutes}`].

    Each step is modelled with the arithmetic of the language:
    [String] and [parseInt] as in [TypingIndicator] (the double nearest to
    the timetoken); the division as the double nearest to the quotient,
    [div_double], a significand and an exponent; the [Date] constructor as
    [TimeClip], [time_clip] ([NaN] beyond 8.64e15 ms, otherwise the value
    truncated toward zero); [getHours] and [getMinutes] on the local time,
    the instant plus the host's offset, which is the [TimeZone] interface
    (the offset may depend on the instant, as with daylight saving time);
    and the template with [Number.prototype.toString] ([to_decimal], or
    ["NaN"] for an invalid date). *)

From Stdlib Require Import ZArith Lia String.
From stdpp Require Import base tactics option.
From S2P Require Import Prelude Timetoken TypingIndicator.

Module Clock.
Import TypingIndicator.
Local Open Scope Z_scope.

(** ** Doubles as quotients *)

(** A double [(-1)^neg * mant * 2^expo]. *)
Record double := { neg : bool; mant : Z; expo : Z }.

(** [2^k <= a / b], for [a, b > 0]. *)
Definition pow2_le_ratio (k a b : Z) : bool :=
  if 0 <=? k then b * 2 ^ k <=? a else b <=? a * 2 ^ (- k).

(** [floor (log2 (a / b))], for [a, b > 0]. *)
Definition log2_ratio (a b : Z) : Z :=
  let l := Z.log2 a - Z.log2 b in if pow2_le_ratio l a b then l else l - 1.

(** [num / den] rounded to the nearest integer, ties to even. *)
Definition round_half_even (num den : Z) : Z :=
  let q := num / den in
  let r := num mod den in
  if (den <? 2 * r) || ((2 * r =? den) && Z.odd q) then q + 1 else q.

(** The double nearest to [|a| / b] ([b > 0]), with a significand of 53
    bits: the exponent is [floor (log2 (|a| / b)) - 52]. *)
Definition div_double (a b : Z) : double :=
  let n := Z.abs a in
  if n =? 0 then {| neg := a <? 0; mant := 0; expo := 0 |}
  else
    let e := log2_ratio n b - 52 in
    if 0 <=? e then {| neg := a <? 0; mant := round_half_even n (b * 2 ^ e); expo := e |}
    else {| neg := a <? 0; mant := round_half_even (n * 2 ^ (- e)) b; expo := e |}.

(** ** [Date] *)

(** [TimeClip]: [NaN] when the absolute value exceeds 8.64e15 ms,
    otherwise the value truncated toward zero. *)
Definition max_time : Z := 8640000000000000.

Definition time_clip (d : double) : option Z :=
  let sgn := fun v => if neg d then - v else v in
  if 0 <=? expo d then
    let v := mant d * 2 ^ expo d in
    if max_time <? v then None else Some (sgn v)
  else
    if max_time * 2 ^ (- expo d) <? mant d then None
    else Some (sgn (mant d / 2 ^ (- expo d))).

(** The host's local time zone: [LocalTime(t) = t + offset(t)], in ms. *)
Class TimeZone := { local_offset : Z -> Z }.

(** Coordinated Universal Time, for concrete runs. *)
#[export] Instance utc : TimeZone := {| local_offset := fun _ => 0 |}.

Definition msPerMinute : Z := 60000.
Definition msPerHour : Z := 3600000.

Section date.
Context `{TimeZone}.

Definition local_time (t : Z) : Z := t + local_offset t.

(** [date.getMinutes()] and [date.getHours()]: [NaN] ([None]) for an
    invalid date. *)
Definition getMinutes (date : option Z) : option Z :=
  (fun t => (local_time t / msPerMinute) mod 60) <$> date.

Definition getHours (date : option Z) : option Z :=
  (fun t => (local_time t / msPerHour) mod 24) <$> date.

(** [String(n)] of an integral number or [NaN]. *)
Definition number_string (v : option Z) : string :=
  match v with Some n => to_decimal n | None => "NaN" end.

(** [minutes > 9 ? minutes : "0" + minutes]: [NaN > 9] is false. *)
Definition minutes_string (v : option Z) : string :=
  match v with
  | Some m => if 9 <? m then to_decimal m else "0" ++ to_decimal m
  | None => "0" ++ "NaN"
  end.

(** [new Date(parseInt(String(timestamp)) / 10000)] *)
Definition message_date (timestamp : Z) : option Z :=
  x ← parse_int (to_decimal timestamp); time_clip (div_double x 10000).

Definition getTime (timestamp : Z) : string :=
  let date := message_date timestamp in
  number_string (getHours date) ++ ":" ++ minutes_string (getMinutes date).

(** The label of a valid instant. *)
Definition time_label (t : Z) : string :=
  number_string (getHours (Some t)) ++ ":" ++ minutes_string (getMinutes (Some t)).
End date.

(** ** Lemmas on the rounding *)

(** Rounding to the nearest integer is off by at most half a unit. *)
Lemma round_half_even_error num den :
  0 < den -> 2 * Z.abs (round_half_even num den * den - num) <= den.
Proof.
  intros Hd. unfold round_half_even.
  pose proof (Z.mod_pos_bound num den Hd). pose proof (Z.div_mod num den ltac:(lia)).
  destruct (Z.ltb_spec den (2 * (num mod den))), (Z.eqb_spec (2 * (num mod den)) den),
    (Z.odd (num / den)); simpl; lia.
Qed.

(** An exact quotient is not rounded. *)
Lemma round_half_even_exact k den : 0 < den -> round_half_even (k * den) den = k.
Proof.
  intros Hd. unfold round_half_even. rewrite Z.div_mul, Z_mod_mult, Z.mul_0_r by lia.
  destruct (Z.ltb_spec den 0), (Z.eqb_spec 0 den); simpl; lia.
Qed.

Lemma log2_ratio_le a b : log2_ratio a b <= Z.log2 a - Z.log2 b.
Proof. unfold log2_ratio. case_match; lia. Qed.

Lemma log2_10000 : Z.log2 10000 = 13.
Proof. reflexivity. Qed.

(** A 17-digit timetoken read back by [parseInt(String(tt))]. *)
Lemma parse_timetoken tt : 0 <= tt -> parse_int (to_decimal tt) = Some (js_number tt).
Proof.
  intros Htt. destruct (to_decimal_digits tt Htt) as (ds & -> & Hne & Hds & Hv).
  by rewrite parse_int_decimal, Hv.
Qed.

(** The quotient of a positive integer below 2^57 by 10000 has a negative
    exponent: it is [m / 2^p] with [m] rounded to the nearest integer. *)
Lemma div_double_10000 x :
  0 < x < 2 ^ 57 ->
  exists p, 9 <= p /\ div_double x 10000 =
    {| neg := false; mant := round_half_even (x * 2 ^ p) 10000; expo := - p |}.
Proof.
  intros Hx. assert (Hl : Z.log2 x <= 56).
  { apply Z.lt_succ_r, Z.log2_lt_pow2; lia. }
  pose proof (log2_ratio_le x 10000) as Hr. rewrite log2_10000 in Hr.
  exists (- (log2_ratio x 10000 - 52)). split; [lia|].
  unfold div_double. rewrite Z.abs_eq by lia.
  destruct (Z.eqb_spec x 0); [lia|]. destruct (Z.leb_spec 0 (log2_ratio x 10000 - 52)); [lia|].
  destruct (Z.ltb_spec x 0); [lia|]. by rewrite Z.opp_involutive.
Qed.

(** [TimeClip] of such a quotient below the limit is its integer part. *)
Lemma time_clip_small m p :
  0 < p -> 0 <= m <= max_time * 2 ^ p ->
  time_clip {| neg := false; mant := m; expo := - p |} = Some (m / 2 ^ p).
Proof.
  intros Hp Hm. unfold time_clip. simpl.
  destruct (Z.leb_spec 0 (- p)); [lia|]. rewrite Z.opp_involutive.
  destruct (Z.ltb_spec (max_time * 2 ^ p) m); [lia|done].
Qed.

(** ** Properties *)

(** C28: for every 17-digit timetoken, in every time zone, [getTime] is
    the label of a valid instant less than 1 ms away from the instant the
    timetoken counts ([tt / 10000] ms, truncated): the two roundings, to a
    double and of the quotient, move it by less than a millisecond each way. *)
Theorem getTime_instant `{TimeZone} tt :
  min_timetoken <= tt <= max_timetoken ->
  exists t, message_date tt = Some t /\ Z.abs (t - tt / 10000) <= 1 /\ getTime tt = time_label t.
Proof.
  intros Htt. pose proof (js_number_timetoken_error tt Htt) as Hx.
  unfold min_timetoken, max_timetoken in Htt. set (x := js_number tt) in *.
  destruct (div_double_10000 x) as (p & Hp & Hd).
  { change (2 ^ 57) with 144115188075855872. lia. }
  assert (HP : 512 <= 2 ^ p) by (change 512 with (2 ^ 9); apply Z.pow_le_mono_r; lia).
  set (P := 2 ^ p) in *. set (m := round_half_even (x * P) 10000) in *.
  pose proof (round_half_even_error (x * P) 10000 ltac:(lia)) as He. fold m in He.
  set (T := tt / 10000).
  pose proof (Z.div_mod tt 10000 ltac:(lia)). pose proof (Z.mod_pos_bound tt 10000 ltac:(lia)).
  assert (Hlo : (10000 * T - 8) * P <= x * P) by (apply Z.mul_le_mono_nonneg_r; lia).
  assert (Hhi : x * P <= (10000 * T + 10007) * P) by (apply Z.mul_le_mono_nonneg_r; lia).
  assert (Hmax : x * P <= (100000000000000008) * P) by (apply Z.mul_le_mono_nonneg_r; lia).
  assert (Hpos : 0 <= x * P) by (apply Z.mul_nonneg_nonneg; lia).
  assert (Hdate : message_date tt = Some (m / P)).
  { unfold message_date. rewrite parse_timetoken by lia.
    change (time_clip (div_double x 10000) = Some (m / P)). rewrite Hd.
    apply time_clip_small; [lia|]. unfold max_time. lia. }
  exists (m / P). split_and!; [done| |by unfold getTime, time_label; rewrite Hdate].
  assert (T - 1 <= m / P) by (apply Z.div_le_lower_bound; lia).
  assert (m / P < T + 2) by (apply Z.div_lt_upper_bound; lia).
  lia.
Qed.

(** C29: between 2^53 and 2^54, a timetoken in the last 100 µs of a
    minute ([600000000 * K - 1], the last tick before the minute [K]) is
    labelled with the next minute: [parseInt] rounds it up to the double
    [600000000 * K], whose quotient by 10000 is exact, so the date is the
    first millisecond of minute [K], while the timetoken counts the last
    millisecond of minute [K - 1]. *)
Theorem getTime_next_minute `{TimeZone} K :
  2 ^ 53 < 600000000 * K < 2 ^ 54 ->
  message_date (600000000 * K - 1) = Some (msPerMinute * K) /\
  (600000000 * K - 1) / 10000 = msPerMinute * K - 1 /\
  getTime (600000000 * K - 1) = time_label (msPerMinute * K).
Proof.
  intros HK. eval_pow.
  assert (Hdate : message_date (600000000 * K - 1) = Some (msPerMinute * K)).
  { unfold message_date. rewrite parse_timetoken, js_number_tie_up by (eval_pow; zlia).
    change (time_clip (div_double (600000000 * K) 10000) = Some (msPerMinute * K)).
    destruct (div_double_10000 (600000000 * K)) as (p & Hp & ->); [eval_pow; lia|].
    replace (600000000 * K * 2 ^ p) with (msPerMinute * K * 2 ^ p * 10000)
      by (unfold msPerMinute; lia).
    rewrite round_half_even_exact, time_clip_small by (unfold max_time, msPerMinute; nia).
    change (Some (msPerMinute * K * 2 ^ p / 2 ^ p) = Some (msPerMinute * K)).
    by rewrite Z.div_mul by (apply Z.pow_nonzero; lia). }
  split_and!; [done| |by unfold getTime, time_label; rewrite Hdate].
  unfold msPerMinute. zlia.
Qed.

Lemma getTime_next_minute_witness :
  getTime (600000000 * 26666667 - 1) = "12:27"%string /\
  time_label ((600000000 * 26666667 - 1) / 10000) = "12:26"%string /\
  (message_date (600000000 * 26666667 - 1) = Some (msPerMinute * 26666667) /\
   (600000000 * 26666667 - 1) / 10000 = msPerMinute * 26666667 - 1 /\
   getTime (600000000 * 26666667 - 1) = time_label (msPerMinute * 26666667)).
Proof.
  split; [vm_compute; reflexivity|]. split; [vm_compute; reflexivity|].
  apply getTime_next_minute. eval_pow. lia.
Defined.

Lemma getTime_instant_witness :
  getTime 16000000193330000 = "12:26"%string /\
  exists t, message_date 16000000193330000 = Some t /\
    Z.abs (t - 16000000193330000 / 10000) <= 1 /\ getTime 16000000193330000 = time_label t.
Proof.
  split; [vm_compute; reflexivity|].
  apply getTime_instant. unfold min_timetoken, max_timetoken. lia.
Defined.

End Clock.
