(* ===== verification/ChannelList.v ===== *)
(** * The channel list (src/src/channel-list/channel-list.tsx)

    [ChannelList] renders [props.channels] (channel objects or bare
    names) as
    [channels.map(channelFromString).filter(channelFilter).sort(channelSorter)],
    marks the channel whose id is the current channel as active, and calls
    [onChannelSwitched] with the channel a user clicks.

    The default sorter is [a.name.localeCompare(b.name, "en", { sensitivity:
    "base" })].  The collation of the [Intl] library is outside the
    sources: it is the [Collator] interface, whose one law is that it is a
    total comparison (ICU compares sort keys, so it is).  The instance
    [ascii_base_collator] compares case-insensitively code point by code
    point, which is what base sensitivity does on ASCII letters; it is used
    for the concrete runs.  [Array.prototype.sort] with a comparator is the
    stable insertion [sort_cmp]. *)

From Stdlib Require Import ZArith Lia Sorted Permutation String Ascii.
From stdpp Require Import base list sets.
From S2P Require Import Prelude.

Module ChannelList.

(** [Intl.Collator("en", { sensitivity: "base" }).compare] *)
Class Collator := {
  localeCompare : string -> string -> Z;
  localeCompare_total a b : (localeCompare a b <= 0 \/ localeCompare b a <= 0)%Z;
}.

(** [Channel]: [id], [name] and the optional [description]. *)
Record Channel := {
  id : string;
  name : string;
  description : option string;
}.

(** An element of [props.channels: Channel[] | string[]]. *)
Inductive ChannelEntry := ChannelObject (c : Channel) | ChannelName (s : string).

Record ChannelListProps := {
  channels : list ChannelEntry;
  sort_fn : option (Channel -> Channel -> Z);      (** [props.sort] *)
  filter_fn : option (Channel -> bool);            (** [props.filter] *)
  channelRenderer_set : bool;                      (** [props.channelRenderer] is given *)
}.

(** What [renderChannel] returns: the custom renderer's element, or the
    [pn-channel] element with its key, class, name and description. *)
Inductive channel_view :=
| CustomChannel (c : Channel)
| DefaultChannel (key cls name : string) (description : option string).

(** The returned [pn-channel-list] element and its channels. *)
Record channel_list_view := {
  list_class : string;
  list_channels : list channel_view;
}.

Inductive effect := ChannelSwitched (c : Channel).

(** ** [Array.prototype.sort] with a comparator *)

Section sort_cmp.
Context {A : Type} (cmp : A -> A -> Z).

Fixpoint insert_cmp (x : A) (l : list A) : list A :=
  match l with
  | [] => [x]
  | y :: l' => if Z.leb (cmp x y) 0 then x :: y :: l' else y :: insert_cmp x l'
  end.

Fixpoint sort_cmp (l : list A) : list A :=
  match l with
  | [] => []
  | x :: l' => insert_cmp x (sort_cmp l')
  end.

Definition cmp_le (a b : A) : Prop := (cmp a b <= 0)%Z.

Definition cmp_total : Prop := forall a b, (cmp a b <= 0 \/ cmp b a <= 0)%Z.
End sort_cmp.

(** ** The component *)

Section component.
Context `{Collator}.

Definition isChannelActive (current : string) (ch : Channel) : bool := String.eqb current (id ch).

Definition channelSorter (props : ChannelListProps) (a b : Channel) : Z :=
  match sort_fn props with
  | Some sort => sort a b
  | None => localeCompare (name a) (name b)
  end.

Definition channelFilter (props : ChannelListProps) (ch : Channel) : bool :=
  match filter_fn props with Some f => f ch | None => true end.

Definition channelFromString (e : ChannelEntry) : Channel :=
  match e with
  | ChannelName s => {| id := s; name := s; description := None |}
  | ChannelObject c => c
  end.

(** [switchChannel(channel)]: the callback, when there is one. *)
Definition switchChannel (onChannelSwitched : bool) (ch : Channel) : list effect :=
  if onChannelSwitched then [ChannelSwitched ch] else [].

(** The channels rendered, in order. *)
Definition rendered (props : ChannelListProps) : list Channel :=
  sort_cmp (channelSorter props) (filter (fun c => channelFilter props c = true)
                                    (map channelFromString (channels props))).

(** The rendered channels with their active flag. *)
Definition rendered_active (current : string) (props : ChannelListProps) : list (Channel * bool) :=
  map (fun c => (c, isChannelActive current c)) (rendered props).

(** [renderChannel(channel)]; [channel.description &&] drops an empty
    description. *)
Definition renderChannel (current : string) (props : ChannelListProps) (ch : Channel) : channel_view :=
  let activeClass := if isChannelActive current ch then "pn-channel--active"%string else ""%string in
  if channelRenderer_set props then CustomChannel ch
  else DefaultChannel (id ch) ("pn-channel " ++ activeClass)%string (name ch)
         (match description ch with
          | Some d => if String.eqb d ""%string then None else Some d
          | None => None
          end).

(** The returned tree; [theme] is [ThemeAtom]'s value, [current] the
    [CurrentChannelAtom]'s. *)
Definition render (theme current : string) (props : ChannelListProps) : channel_list_view := {|
  list_class := ("pn-channel-list pn-channel-list--" ++ theme)%string;
  list_channels := renderChannel current props <$> rendered props;
|}.
End component.

(** The channels a rendering marks active. *)
Definition active_keys (v : channel_list_view) : list string :=
  omap (fun cv => match cv with
                  | DefaultChannel k cls _ _ => if String.eqb cls "pn-channel pn-channel--active"%string
                                                then Some k else None
                  | CustomChannel _ => None
                  end) (list_channels v).

(** ** A collator for ASCII names *)

Definition lower (c : ascii) : ascii :=
  let n := nat_of_ascii c in
  if (65 <=? n)%nat && (n <=? 90)%nat then ascii_of_nat (n + 32) else c.

Definition lower_string (s : string) : string := string_of_list_ascii (map lower (list_ascii_of_string s)).

Definition ascii_base_compare (a b : string) : Z :=
  match String.compare (lower_string a) (lower_string b) with Lt => -1 | Eq => 0 | Gt => 1 end.

#[export] Instance ascii_base_collator : Collator.
Proof.
  refine {| localeCompare := ascii_base_compare |}.
  intros a b. unfold ascii_base_compare. rewrite (String.compare_antisym (lower_string b)).
  destruct (String.compare (lower_string a) (lower_string b)); simpl; lia.
Defined.

(** ** Lemmas on [sort_cmp] *)

Section sort_cmp_lemmas.
Context {A : Type} (cmp : A -> A -> Z).

Lemma insert_cmp_perm x l : insert_cmp cmp x l ≡ₚ x :: l.
Proof.
  induction l as [|y l IH]; simpl; [done|].
  case_match; [done|]. rewrite IH. apply perm_swap.
Qed.

Lemma sort_cmp_perm l : sort_cmp cmp l ≡ₚ l.
Proof. induction l as [|x l IH]; simpl; [done|]. by rewrite insert_cmp_perm, IH. Qed.

(** Insertion keeps a list sorted for any total comparison: no
    transitivity is needed. *)
Lemma insert_cmp_sorted x l :
  cmp_total cmp -> Sorted (cmp_le cmp) l -> Sorted (cmp_le cmp) (insert_cmp cmp x l).
Proof.
  intros Ht. unfold cmp_le. induction 1 as [|y l Hs IH Hhd]; simpl; [by repeat constructor|].
  destruct (Z.leb_spec (cmp x y) 0) as [Hle|Hgt]; [by repeat constructor|].
  constructor; [done|]. destruct l as [|z l]; simpl.
  { constructor. destruct (Ht x y); lia. }
  invc Hhd. case_match; constructor; [|done]. destruct (Ht x y); lia.
Qed.

Lemma sort_cmp_sorted l : cmp_total cmp -> Sorted (cmp_le cmp) (sort_cmp cmp l).
Proof. intros Ht. induction l as [|x l IH]; simpl; [constructor|]. by apply insert_cmp_sorted. Qed.
End sort_cmp_lemmas.

Lemma default_sorter_total `{Collator} props : sort_fn props = None -> cmp_total (channelSorter props).
Proof. intros Hs a b. unfold channelSorter. rewrite Hs. apply localeCompare_total. Qed.

(** The default rendering marks active exactly the channels whose id is
    the current channel, in the order shown. *)
Lemma render_active_keys `{Collator} theme current props :
  channelRenderer_set props = false ->
  active_keys (render theme current props) = filter (fun i => i = current) (id <$> rendered props).
Proof.
  intros Hr. unfold active_keys, render. simpl.
  induction (rendered props) as [|c l IH]; [done|].
  change (c :: l) with ([c] ++ l). rewrite !fmap_app, omap_app, filter_app, IH. f_equal.
  unfold renderChannel, isChannelActive. simpl. rewrite Hr.
  destruct (String.eqb_spec current (id c)) as [->|Hne]; simpl.
  - by rewrite filter_cons_True.
  - by rewrite filter_cons_False by congruence.
Qed.

(** With distinct ids, at most one channel is marked active. *)
Lemma render_one_active `{Collator} theme current props :
  channelRenderer_set props = false -> NoDup (id <$> rendered props) ->
  length (active_keys (render theme current props)) <= 1.
Proof.
  intros Hr Hnd. rewrite render_active_keys by done.
  pose proof (NoDup_filter (fun i => i = current) _ Hnd) as Hf.
  assert (Hall : Forall (fun i => i = current) (filter (fun i => i = current) (id <$> rendered props)))
    by (apply Forall_forall; intros x Hx; by apply list_elem_of_filter in Hx as [? _]).
  destruct (filter _ _) as [|x [|y l]]; simpl; [lia|lia|].
  apply Forall_cons in Hall as [-> Hall]. apply Forall_cons in Hall as [-> _].
  apply NoDup_cons in Hf as [Hn _]. set_solver.
Qed.

(** C19: the list shows, in the order of the sorter, exactly the given
    channels the filter keeps, each as often as it is given, a bare name
    [s] shown as the channel with id and name [s]: the order is
    [props.sort] when given (and total), otherwise [localeCompare] on the
    names; the filter is [props.filter] when given, otherwise none. *)
Theorem rendered_spec `{Collator} props :
  (forall f, sort_fn props = Some f -> forall a b, (f a b <= 0 \/ f b a <= 0)%Z) ->
  let entry := fun e => match e with
                        | ChannelName s => {| id := s; name := s; description := None |}
                        | ChannelObject c => c
                        end in
  let keep := fun c => match filter_fn props with Some f => f c | None => true end in
  let le := fun a b => match sort_fn props with
                       | Some f => (f a b <= 0)%Z
                       | None => (localeCompare (name a) (name b) <= 0)%Z
                       end in
  rendered props ≡ₚ filter (fun c => keep c = true) (map entry (channels props)) /\
  Sorted le (rendered props).
Proof.
  intros Ht entry keep le.
  assert (Htot : cmp_total (channelSorter props)).
  { intros a b. unfold channelSorter. destruct (sort_fn props) as [f|] eqn:E; [by apply (Ht f)|].
    apply localeCompare_total. }
  unfold rendered. split; [rewrite sort_cmp_perm; reflexivity|].
  pose proof (sort_cmp_sorted (channelSorter props)
                (filter (fun c => channelFilter props c = true) (map channelFromString (channels props))) Htot) as Hs.
  eapply Sorted_mono; [|exact Hs]. intros a b. unfold cmp_le, channelSorter, le. by destruct (sort_fn props).
Qed.

Lemma rendered_spec_witness :
  let props := {| channels := [ChannelName "random"; ChannelName "General";
                               ChannelObject {| id := "ops"; name := "alerts"; description := None |}];
                  sort_fn := None; filter_fn := None; channelRenderer_set := false |} in
  map name (rendered props) = ["alerts"; "General"; "random"]%string /\
  (let entry := fun e => match e with
                         | ChannelName s => {| id := s; name := s; description := None |}
                         | ChannelObject c => c
                         end in
   let keep := fun c => match filter_fn props with Some f => f c | None => true end in
   let le := fun a b => match sort_fn props with
                        | Some f => (f a b <= 0)%Z
                        | None => (localeCompare (name a) (name b) <= 0)%Z
                        end in
   rendered props ≡ₚ filter (fun c => keep c = true) (map entry (channels props)) /\
   Sorted le (rendered props)).
Proof. intros props. split; [reflexivity|]. apply rendered_spec. by intros f. Defined.

End ChannelList.
