(* ===== verification/LiveEventsLayout.v ===== *)
(** * The panel layout of the live-events sample (src/samples/live-events/src/index.tsx)

    [LiveEventChat] keeps two panels, the channel list and the chat, open
    or closed in state, and two effects adjust them after a render: the
    first opens or closes a panel when the window width crosses the [md]
    (768) or [lg] (1024) breakpoint, the second keeps at most one panel open
    on [md] widths, closing the panel that was open before.  [usePrevious]
    gives each render the values of the render before it.

    A [render] is what one render of the component sees.  After an event
    (a resize, or a panel opened or closed from [ChannelsView] or
    [ChatView]) React renders with the new state, runs the effects whose
    dependencies changed, in order, and renders again while they change the
    state ([settle]; an update to the value a state already has causes no
    render).  The effects' updates of one run are batched: the last update
    of a state wins. *)

From Stdlib Require Import ZArith Lia Bool String.
From stdpp Require Import base numbers list.
From S2P Require Import Prelude.

Module LiveEventChat.

Local Open Scope Z_scope.

Definition mdBreakpoint : Z := 768.
Definition lgBreakpoint : Z := 1024.

(** The values of one render; the previous values of the first render are
    [undefined], falsy as [false] is ([usePrevious(width) || 0] is [0]). *)
Record render := {
  width : Z;
  prevWidth : Z;
  chatExpanded : bool;
  prevChatExpanded : bool;
  channelsExpanded : bool;
  prevChannelsExpanded : bool;
}.

Inductive event :=
| ev_resize (w : Z)                 (** [useWindowSize] reports a new width *)
| ev_set_chat (b : bool)            (** [setChatExpanded(b)] from [ChatView] *)
| ev_set_channels (b : bool).       (** [setChannelsExpanded(b)] from [ChannelsView] *)

(** The effect on [[prevWidth, width]], applied to the pending values
    [(chat, channels)] of the two states. *)
Definition resize_effect (r : render) (s : bool * bool) : bool * bool :=
  let '(chat, channels) := s in
  let w := width r in let pw := prevWidth r in
  let chat := if (w <? mdBreakpoint) && (mdBreakpoint <=? pw) then false else chat in
  let chat := if (mdBreakpoint <=? w) && (pw <? mdBreakpoint) then true else chat in
  let channels := if (lgBreakpoint <=? w) && (pw <? lgBreakpoint) then true else channels in
  let channels := if (w <? lgBreakpoint) && (lgBreakpoint <=? pw) then false else channels in
  (chat, channels).

(** The effect that allows one panel on [md] widths; it reads the values
    of its render. *)
Definition panel_effect (r : render) (s : bool * bool) : bool * bool :=
  let '(chat, channels) := s in
  if (width r <? mdBreakpoint) || (lgBreakpoint <=? width r) then s
  else if negb (chatExpanded r) || negb (channelsExpanded r) then s
  else (if negb (prevChannelsExpanded r) then false else chat,
        if negb (prevChatExpanded r) then false else channels).

Definition resize_deps (r : render) : Z * Z := (prevWidth r, width r).
Definition panel_deps (r : render) :=
  (width r, chatExpanded r, prevChatExpanded r, channelsExpanded r, prevChannelsExpanded r).

(** An effect runs after render [r] when one of its dependencies differs
    from the render before, [old] ([None] on mount, when all run). *)
Definition deps_changed {D} `{EqDecision D} (deps : render -> D) (old : option render)
    (r : render) : bool :=
  match old with None => true | Some o => bool_decide (deps o <> deps r) end.

Definition run_effects (old : option render) (r : render) : bool * bool :=
  let s := (chatExpanded r, channelsExpanded r) in
  let s := if deps_changed resize_deps old r then resize_effect r s else s in
  if deps_changed panel_deps old r then panel_effect r s else s.

Definition next_render (r : render) (w : Z) (s : bool * bool) : render := {|
  width := w; prevWidth := width r;
  chatExpanded := s.1; prevChatExpanded := chatExpanded r;
  channelsExpanded := s.2; prevChannelsExpanded := channelsExpanded r;
|}.

(** The state of the two panels in a render. *)
Definition values (r : render) : bool * bool := (chatExpanded r, channelsExpanded r).

Definition stable (old : option render) (r : render) : bool :=
  bool_decide (run_effects old r = values r).

(** Render again while the effects change the state, at most [fuel] more
    times. *)
Fixpoint settle (fuel : nat) (old : option render) (r : render) : option render * render :=
  match fuel with
  | O => (old, r)
  | S f =>
      let s := run_effects old r in
      if bool_decide (s = values r) then (old, r)
      else settle f (Some r) (next_render r (width r) s)
  end.

(** Three renders are enough (proved below). *)
Definition fuel : nat := 3.

Definition mount (w : Z) : option render * render :=
  settle fuel None {| width := w; prevWidth := 0;
                      chatExpanded := bool_decide (mdBreakpoint <= w); prevChatExpanded := false;
                      channelsExpanded := bool_decide (lgBreakpoint <= w);
                      prevChannelsExpanded := false |}.

(** An event on the last render [r]: nothing when the state does not
    change, otherwise a new render and the renders the effects cause. *)
Definition event_state (r : render) (ev : event) : Z * (bool * bool) :=
  match ev with
  | ev_resize w => (w, (chatExpanded r, channelsExpanded r))
  | ev_set_chat b => (width r, (b, channelsExpanded r))
  | ev_set_channels b => (width r, (chatExpanded r, b))
  end.

Definition step (hist : option render * render) (ev : event) : option render * render :=
  let r := hist.2 in
  let '(w, s) := event_state r ev in
  if bool_decide ((w, s) = (width r, values r)) then hist
  else settle fuel (Some r) (next_render r w s).

Definition run (w0 : Z) (evs : list event) : option render * render := List.fold_left step evs (mount w0).

(** The [channels] prop of [Chat]: the current channel, then the presence
    channel [`${ch.id}-pnpres`] of every event channel. *)
Definition chat_channels (current : string) (channels : list string) : list string :=
  current :: ((fun id => (id ++ "-pnpres")%string) <$> channels).

(** [`flex ${darkMode ? "dark" : "light"}`] *)
Definition main_class (darkMode : bool) : string :=
  ("flex " ++ if darkMode then "dark" else "light")%string.

Definition md_width (w : Z) : Prop := mdBreakpoint <= w < lgBreakpoint.

(** ** Lemmas on the effects *)

Lemma resize_effect_same r s : prevWidth r = width r -> resize_effect r s = s.
Proof.
  destruct s as [c h]. unfold resize_effect. intros ->.
  destruct (Z.ltb_spec (width r) mdBreakpoint), (Z.leb_spec mdBreakpoint (width r)),
    (Z.leb_spec lgBreakpoint (width r)), (Z.ltb_spec (width r) lgBreakpoint); simpl; done || lia.
Qed.

Lemma panel_effect_one_open r s :
  chatExpanded r = false \/ channelsExpanded r = false -> panel_effect r s = s.
Proof.
  destruct s as [c h]. unfold panel_effect. intros [-> | ->]; simpl; rewrite ?orb_true_r;
    by destruct (width r <? mdBreakpoint), (lgBreakpoint <=? width r).
Qed.

(** The panel effect either changes nothing or leaves at most one panel
    open. *)
Lemma panel_effect_closes r :
  panel_effect r (values r) = values r \/
  (panel_effect r (values r)).1 = false \/ (panel_effect r (values r)).2 = false.
Proof.
  unfold panel_effect, values. destruct (_ || _); [by left|].
  destruct (chatExpanded r), (channelsExpanded r); simpl; try by left.
  destruct (prevChannelsExpanded r), (prevChatExpanded r); simpl; auto.
Qed.

(** After a render caused by the effects the width is its own previous
    width: only the panel effect can run. *)
Lemma run_effects_same_width old r : prevWidth r = width r ->
  run_effects old r = if deps_changed panel_deps old r then panel_effect r (values r) else values r.
Proof.
  intros Hw. unfold run_effects. rewrite resize_effect_same by done. by destruct (deps_changed resize_deps old r).
Qed.

Lemma deps_changed_values r r' :
  values r' <> values r -> deps_changed panel_deps (Some r) r' = true.
Proof.
  intros Hv. unfold deps_changed. apply bool_decide_eq_true_2. intros Heq. apply Hv.
  unfold panel_deps, values in *. injection Heq; intros; congruence.
Qed.

Lemma settle_stop f old r : run_effects old r = values r -> settle (S f) old r = (old, r).
Proof. intros H. simpl. by rewrite bool_decide_eq_true_2. Qed.

Lemma settle_go f old r : run_effects old r <> values r ->
  settle (S f) old r = settle f (Some r) (next_render r (width r) (run_effects old r)).
Proof. intros H. simpl. by rewrite bool_decide_eq_false_2. Qed.

Lemma step_changed o r ev :
  event_state r ev <> (width r, values r) ->
  step (o, r) ev = settle fuel (Some r) (next_render r (event_state r ev).1 (event_state r ev).2).
Proof. unfold step. simpl. destruct (event_state r ev) as [w s]. intros H. by rewrite bool_decide_eq_false_2. Qed.

(** ** Properties *)

(** Three renders after an update are enough. *)
Lemma settle_stops old r : stable (settle fuel old r).1 (settle fuel old r).2 = true.
Proof.
  unfold fuel, stable.
  destruct (decide (run_effects old r = values r)) as [H1|H1].
  { rewrite settle_stop by done. by apply bool_decide_eq_true_2. }
  rewrite settle_go by done.
  set (r2 := next_render r (width r) (run_effects old r)).
  assert (E2 : run_effects (Some r) r2 = panel_effect r2 (values r2)).
  { rewrite run_effects_same_width by done. rewrite deps_changed_values; [done|]. unfold r2, values at 1. simpl. by destruct (run_effects old r). }
  destruct (decide (run_effects (Some r) r2 = values r2)) as [H2|H2].
  { rewrite settle_stop by done. by apply bool_decide_eq_true_2. }
  rewrite settle_go by done. rewrite E2 in H2 |- *.
  set (r3 := next_render r2 (width r2) (panel_effect r2 (values r2))).
  assert (E3 : run_effects (Some r2) r3 = values r3).
  { rewrite run_effects_same_width by done. destruct (deps_changed _ _ _); [|done].
    apply panel_effect_one_open. destruct (panel_effect_closes r2) as [?|[?|?]]; [done|left|right]; done. }
  rewrite settle_stop by done. by apply bool_decide_eq_true_2.
Qed.

(** C20: three renders after an update are enough: whatever the state the
    update produced, the renders the effects cause stop with a render on
    which no effect changes anything. *)
Theorem settle_stable old r : stable (settle fuel old r).1 (settle fuel old r).2 = true.
Proof. apply settle_stops. Qed.

(** On an [md] width, opening the channel list while only the chat is
    open closes the chat: the panel open before gives way. *)
Theorem md_open_channels_closes_chat o r :
  md_width (width r) -> chatExpanded r = true -> channelsExpanded r = false ->
  values (step (o, r) (ev_set_channels true)).2 = (false, true).
Proof.
  unfold md_width, mdBreakpoint, lgBreakpoint. intros Hw Hc Hh.
  rewrite step_changed by (unfold values; simpl; rewrite Hh; intros [=]). cbn [event_state fst snd].
  rewrite Hc. set (r1 := next_render r (width r) (true, true)).
  assert (E1 : run_effects (Some r) r1 = (false, true)).
  { rewrite run_effects_same_width by done.
    rewrite deps_changed_values by (unfold values; rewrite Hh; simpl; congruence).
    unfold panel_effect, r1, values, next_render, mdBreakpoint, lgBreakpoint. simpl. rewrite Hh, Hc.
    destruct (Z.ltb_spec (width r) 768), (Z.leb_spec 1024 (width r)); simpl; [lia..|done]. }
  unfold fuel. rewrite settle_go by (rewrite E1; unfold values; simpl; congruence). rewrite E1.
  rewrite settle_stop; [done|]. rewrite run_effects_same_width by done.
  destruct (deps_changed _ _ _); [|done]. by apply panel_effect_one_open; left.
Qed.

Lemma md_open_channels_closes_chat_witness :
  let h := run 900 [ev_set_channels false] in
  md_width (width h.2) /\ chatExpanded h.2 = true /\ channelsExpanded h.2 = false /\
  values (step h (ev_set_channels true)).2 = (false, true).
Proof.
  intros h. assert (Hh : h = (None, {| width := 900; prevWidth := 0; chatExpanded := true;
    prevChatExpanded := false; channelsExpanded := false; prevChannelsExpanded := false |}))
    by (vm_compute; reflexivity).
  rewrite Hh. split_and!; [unfold md_width, mdBreakpoint, lgBreakpoint; simpl; lia|done|done|].
  apply md_open_channels_closes_chat; [unfold md_width, mdBreakpoint, lgBreakpoint; simpl; lia|done|done].
Defined.

(** C21: the rule of one panel on [md] widths is only enforced when a
    panel is opened there: a window below [md] can have both panels open,
    and widening it to an [md] width keeps both open, on a render no effect
    changes. *)
Theorem md_both_open_after_resize o r w :
  width r < mdBreakpoint -> md_width w -> chatExpanded r = true -> channelsExpanded r = true ->
  values (step (o, r) (ev_resize w)).2 = (true, true).
Proof.
  unfold md_width, mdBreakpoint, lgBreakpoint. intros Hr Hw Hc Hh.
  rewrite step_changed by (simpl; intros [=]; lia). cbn [event_state fst snd].
  unfold fuel. rewrite settle_stop; [unfold values; simpl; by rewrite Hc, Hh|].
  unfold run_effects, deps_changed, resize_deps, panel_deps, next_render. simpl.
  rewrite Hc, Hh, !bool_decide_eq_true_2 by (intros [=]; lia).
  unfold resize_effect, panel_effect, values, mdBreakpoint, lgBreakpoint. simpl.
  destruct (Z.ltb_spec w 768), (Z.leb_spec 768 (width r)), (Z.leb_spec 768 w),
    (Z.ltb_spec (width r) 768), (Z.leb_spec 1024 w), (Z.ltb_spec (width r) 1024),
    (Z.ltb_spec w 1024), (Z.leb_spec 1024 (width r)); simpl; try lia; done.
Qed.

Lemma md_both_open_after_resize_witness :
  let h := run 500 [ev_set_chat true; ev_set_channels true] in
  width h.2 < mdBreakpoint /\ chatExpanded h.2 = true /\ channelsExpanded h.2 = true /\
  values (step h (ev_resize 800)).2 = (true, true).
Proof.
  intros h. assert (Hh : h.2 = {| width := 500; prevWidth := 500; chatExpanded := true;
    prevChatExpanded := true; channelsExpanded := true; prevChannelsExpanded := false |})
    by (vm_compute; reflexivity).
  destruct h as [o r]. simpl in Hh |- *. subst r.
  split_and!; [unfold mdBreakpoint; simpl; lia|done|done|].
  apply md_both_open_after_resize; [unfold mdBreakpoint; simpl; lia|unfold md_width, mdBreakpoint, lgBreakpoint; lia|done|done].
Defined.

End LiveEventChat.
