(* ===== verification/Senders.v ===== *)
(** * [fetchMessageSenders] of the class [MessageList]

    [handleHistoryFetch] and [handleOnMessage] call
    [this.fetchMessageSenders(messages)] without awaiting it.  The method
    builds the set of sender ids [new Set(messages.map((m) => m.uuid ||
    m.publisher))] (first occurrences, in order) and walks it; for each id
    it stops the whole loop ([return]) when the id is missing or already
    known, otherwise it awaits [getUUIDMetadata] and appends the user to
    [this.state.users] as it is after the [await].

    A run is split at its [await]s: [fetchMessageSenders_request] runs up
    to the first request, [fetchMessageSenders_response] resumes the loop
    with the settled response, and both return the request the loop waits
    for next, if any ([pending]).  [SendersWorld] interleaves several runs:
    every call starts one, and the responses settle in any order. *)

From Stdlib Require Import ZArith Lia String.
From stdpp Require Import base list strings sets.
From S2P Require Import Prelude Message ClassList.

Module ClassSenders.
Import ClassMessageList.

(** [m.uuid || m.publisher]: [undefined] is [None]; an empty [publisher]
    stays [""] (both are falsy for the loop). *)
Definition sender_key (m : MessageListMessage) : option string :=
  match uuid m with
  | Some u => if String.eqb u "" then publisher m else Some u
  | None => publisher m
  end.

(** [Array.from(new Set(l))]: the first occurrence of each value, in order. *)
Fixpoint js_set (l : list (option string)) : list (option string) :=
  match l with
  | [] => []
  | x :: l' => x :: filter (fun y => y <> x) (js_set l')
  end.

(** The request the loop waits for and the ids after it. *)
Definition pending : Type := option (string * list (option string)).

(** The loop from id [uuids]: [if (!uuid || this.getUser(uuid)) return;]
    then [await getUUIDMetadata({ uuid })]. *)
Definition next_request (props : MessageListProps) (st : MessageListState)
    (uuids : list (option string)) : pending :=
  match uuids with
  | [] => None
  | None :: _ => None
  | Some u :: rest =>
      if String.eqb u "" then None
      else match getUser props st u with
           | Some _ => None
           | None => Some (u, rest)
           end
  end.

Definition set_users (us : list MessageListUser) (s : MessageListState) : MessageListState := {|
  messages := messages s; messagesPerPage := messagesPerPage s; pagination := pagination s;
  paginationEnd := paginationEnd s; scrolledBottom := scrolledBottom s;
  unreadMessages := unreadMessages s; users := us;
|}.

(** [fetchMessageSenders(messages)] up to its first [await]. *)
Definition fetchMessageSenders_request (props : MessageListProps) (ms : list MessageListMessage) :
    M pending :=
  if disableUserFetch props then mret None
  else st ← js_state; mret (next_request props st (js_set (sender_key <$> ms))).

(** The loop resumed with the settled [getUUIDMetadata]: [user?.data]
    missing stops it; a rejection is logged. *)
Definition fetchMessageSenders_response (props : MessageListProps) (rest : list (option string))
    (resp : result error (option MessageListUser)) : M pending :=
  js_catch
    (user ← js_await resp;
     match user with
     | None => mret None
     | Some u =>
         st ← js_state;
         js_modify (set_users (users st ++ [u]));;
         st' ← js_state;
         mret (next_request props st' rest)
     end)
    (fun e => js_emit (ConsoleError e);; mret None).

(** ** Concurrent runs *)

Record SendersWorld := {
  sw_state : MessageListState;
  sw_runs : list (string * list (option string));   (** the runs waiting for a user *)
}.

Inductive senders_event :=
| ev_call (ms : list MessageListMessage)                          (** a call of the method *)
| ev_user (i : nat) (resp : result error (option MessageListUser)). (** the [i]-th run's user settles *)

Definition add_run (p : pending) (runs : list (string * list (option string))) :=
  match p with Some r => runs ++ [r] | None => runs end.

Definition senders_step (props : MessageListProps) (w : SendersWorld) (ev : senders_event) :
    option SendersWorld :=
  match ev with
  | ev_call ms =>
      let '(_, st', r) := fetchMessageSenders_request props ms (sw_state w) in
      let p := match r with Ok p => p | Err _ => None end in
      Some {| sw_state := st'; sw_runs := add_run p (sw_runs w) |}
  | ev_user i resp =>
      match sw_runs w !! i with
      | None => None
      | Some (_, rest) =>
          let '(_, st', r) := fetchMessageSenders_response props rest resp (sw_state w) in
          let p := match r with Ok p => p | Err _ => None end in
          Some {| sw_state := st'; sw_runs := add_run p (delete i (sw_runs w)) |}
      end
  end.

Fixpoint senders_run (props : MessageListProps) (w : SendersWorld) (evs : list senders_event) :
    option SendersWorld :=
  match evs with
  | [] => Some w
  | ev :: evs' => match senders_step props w ev with Some w' => senders_run props w' evs' | None => None end
  end.

(** A user record for id [u]. *)
Definition demo_user (u : string) : MessageListUser :=
  {| user_id := u; user_name := Some u; profileUrl := None |}.

Definition demo_from (u : string) (t : Z) : MessageListMessage := {|
  channel := "demo"; text := "hi"; sender := None; attachments := None; timetoken := t; publisher := Some u; uuid := None; actions := [];
|}.

Definition demo_props_users (us : list MessageListUser) : MessageListProps := {|
  disableUserFetch := false; users_prop := us; disableHistoryFetch := false; onMessage_set := false;
|}.

(** ** Runs *)

Lemma request_run props ms st : disableUserFetch props = false ->
  fetchMessageSenders_request props ms st = ([], st, Ok (next_request props st (js_set (sender_key <$> ms)))).
Proof. intros H. unfold fetchMessageSenders_request. by rewrite H. Qed.

Lemma response_run_user props rest u st :
  fetchMessageSenders_response props rest (Ok (Some u)) st =
    ([], set_users (users st ++ [u]) st, Ok (next_request props (set_users (users st ++ [u]) st) rest)).
Proof. reflexivity. Qed.

Lemma find_id_app (us vs : list MessageListUser) x :
  List.find (fun u => String.eqb (user_id u) x) us = None ->
  List.find (fun u => String.eqb (user_id u) x) (us ++ vs) = List.find (fun u => String.eqb (user_id u) x) vs.
Proof. induction us as [|u us IH]; simpl; [done|]. by destruct (String.eqb _ _). Qed.

(** A user appended for another id leaves an unknown id unknown. *)
Lemma getUser_snoc props st u x :
  getUser props st x = None -> user_id u <> x -> getUser props (set_users (users st ++ [u]) st) x = None.
Proof.
  unfold getUser. simpl. destruct (List.find _ (users_prop props)); [done|]. intros Hs Hne.
  rewrite find_id_app by done. simpl. by rewrite (proj2 (String.eqb_neq _ _) Hne).
Qed.

(** The loop over distinct unknown ids, with each request answered by the
    user of that id, appends those users in order and ends. *)
Lemma loop_fetches props f us st :
  NoDup us -> Forall (fun u => u <> ""%string) us -> Forall (fun u => getUser props st u = None) us ->
  (forall u, user_id (f u) = u) ->
  exists w, senders_run props {| sw_state := st; sw_runs := add_run (next_request props st (Some <$> us)) [] |}
              ((fun u => ev_user 0 (Ok (Some (f u)))) <$> us) = Some w /\
    users (sw_state w) = users st ++ (f <$> us) /\ sw_runs w = [].
Proof.
  intros Hnd Hne Hun Hf. revert st Hun. induction us as [|u us IH]; intros st Hun.
  { eexists. split; [reflexivity|]. by rewrite app_nil_r. }
  apply NoDup_cons in Hnd as [Hu Hnd]. apply Forall_cons in Hne as [Hne1 Hne].
  apply Forall_cons in Hun as [Hun1 Hun].
  simpl. rewrite (proj2 (String.eqb_neq _ _) Hne1), Hun1. simpl.
  destruct (IH Hnd Hne (set_users (users st ++ [f u]) st)) as (w & Hw & Hus & Hr).
  { apply Forall_forall. intros x Hx. apply getUser_snoc; [by eapply Forall_forall in Hun|].
    rewrite Hf. intros ->. by apply Hu. }
  exists w. split; [exact Hw|]. split; [|done]. rewrite Hus. simpl. by rewrite <-app_assoc.
Qed.

(** ** Properties *)

(** The loop [return]s at the first id already known, where it means
    to skip it: when the first sender of the messages is a known user, no
    later sender is fetched, whether known or not. *)
Theorem senders_stop_at_known props ms st k rest :
  disableUserFetch props = false -> js_set (sender_key <$> ms) = Some k :: rest ->
  k <> ""%string -> is_Some (getUser props st k) ->
  fetchMessageSenders_request props ms st = ([], st, Ok None).
Proof.
  intros Hd Hs Hk [u Hu]. rewrite request_run, Hs by done. simpl.
  by rewrite (proj2 (String.eqb_neq _ _) Hk), Hu.
Qed.

Lemma senders_stop_at_known_witness :
  let props := demo_props_users [demo_user "alice"] in
  let ms := [demo_from "alice" 1; demo_from "bob" 2] in
  getUser props initial_state "bob" = None /\
  fetchMessageSenders_request props ms initial_state = ([], initial_state, Ok None).
Proof.
  intros props ms. split; [reflexivity|].
  apply (senders_stop_at_known props ms initial_state "alice" [Some "bob"%string]);
    [reflexivity|reflexivity|discriminate|eexists; reflexivity].
Defined.

(** C22: when no sender of the messages is known yet, one call of
    [fetchMessageSenders] answered with the users it asks for fetches every
    sender once, in the order of the messages, and finishes. *)
Theorem senders_fetch_all props f ms us st :
  disableUserFetch props = false -> js_set (sender_key <$> ms) = Some <$> us ->
  NoDup us -> Forall (fun u => u <> ""%string) us -> Forall (fun u => getUser props st u = None) us ->
  (forall u, user_id (f u) = u) ->
  exists w, senders_run props {| sw_state := st; sw_runs := [] |}
              (ev_call ms :: ((fun u => ev_user 0 (Ok (Some (f u)))) <$> us)) = Some w /\
    users (sw_state w) = users st ++ (f <$> us) /\ sw_runs w = [].
Proof.
  intros Hd Hs Hnd Hne Hun Hf. cbn [senders_run senders_step]. rewrite request_run, Hs by done.
  by apply loop_fetches.
Qed.

Lemma senders_fetch_all_witness :
  exists w, senders_run (demo_props_users []) {| sw_state := initial_state; sw_runs := [] |}
              (ev_call [demo_from "bob" 1; demo_from "carol" 2; demo_from "bob" 3] ::
               ((fun u => ev_user 0 (Ok (Some (demo_user u)))) <$> ["bob"; "carol"]%string)) = Some w /\
    users (sw_state w) = users initial_state ++ (demo_user <$> ["bob"; "carol"]%string) /\ sw_runs w = [].
Proof.
  apply senders_fetch_all; [reflexivity|reflexivity| |repeat constructor; discriminate|
    repeat constructor|reflexivity].
  repeat constructor; set_solver.
Defined.

(** C23: two calls for the same new sender (a live message arriving while
    the page with that sender is being resolved) both request it, since
    each checks [getUser] before its [await]: the user is appended twice. *)
Theorem senders_concurrent_duplicate props m u usr st :
  disableUserFetch props = false -> sender_key m = Some u -> u <> ""%string ->
  getUser props st u = None ->
  exists w, senders_run props {| sw_state := st; sw_runs := [] |}
      [ev_call [m]; ev_call [m]; ev_user 0 (Ok (Some usr)); ev_user 0 (Ok (Some usr))] = Some w /\
    users (sw_state w) = users st ++ [usr; usr].
Proof.
  intros Hd Hk Hu Hg. cbn [senders_run senders_step]. rewrite !request_run by done.
  cbn [fmap list_fmap js_set filter]. rewrite Hk. simpl.
  rewrite (proj2 (String.eqb_neq _ _) Hu), Hg. simpl.
  eexists. split; [reflexivity|]. simpl. by rewrite <-app_assoc.
Qed.

Lemma senders_concurrent_duplicate_witness :
  exists w, senders_run (demo_props_users []) {| sw_state := initial_state; sw_runs := [] |}
      [ev_call [demo_from "bob" 1]; ev_call [demo_from "bob" 1];
       ev_user 0 (Ok (Some (demo_user "bob"))); ev_user 0 (Ok (Some (demo_user "bob")))] = Some w /\
    users (sw_state w) = users initial_state ++ [demo_user "bob"; demo_user "bob"].
Proof. apply (senders_concurrent_duplicate _ _ "bob"); [reflexivity|reflexivity|discriminate|reflexivity]. Defined.

End ClassSenders.
