(* ===== verification/Provider.v ===== *)
(** * The context provider (src/src/pubnub-provider/pubnub-provider.tsx)

    [PubNubProvider] constructs the SDK client from its props and puts
    [{ pubnub, channel }] into [PubNubContext]; a component below it reads
    that value through [contextType], a component with no provider above
    it reads the default [{ pubnub: undefined, channel: "" }].  The client
    is seen by the components only through [getUUID()], which returns the
    [uuid] it was configured with, so the context value is the
    [PubNubContextProps] of [ClassList].  Composed with the class list's
    transition system of [ClassEvents], this says what the list does
    inside and outside a provider. *)

From Stdlib Require Import ZArith Lia String.
From stdpp Require Import base list strings.
From S2P Require Import Prelude JsSort Timetoken Message ClassList ClassEvents.

Module Provider.
Import ClassMessageList ClassEvents.

Record PubNubProviderProps := {
  publishKey : string;
  subscribeKey : string;
  provider_uuid : string;
  provider_channel : string;
}.

(** [new PubNub({ publishKey, subscribeKey, uuid })], by its [getUUID()]. *)
Definition new_pubnub (props : PubNubProviderProps) : string := provider_uuid props.

(** [defaultContext] *)
Definition defaultContext : PubNubContextProps := {| pubnub := None; ctx_channel := "" |}.

(** [<PubNubContext.Provider value={{ pubnub, channel }}>] *)
Definition provider_value (props : PubNubProviderProps) : PubNubContextProps :=
  {| pubnub := Some (new_pubnub props); ctx_channel := provider_channel props |}.

(** The value [this.context] has: the nearest provider's, or the default. *)
Definition context_of (provider : option PubNubProviderProps) : PubNubContextProps :=
  match provider with Some p => provider_value p | None => defaultContext end.

(** The mounted list that lost its [componentDidMount] to an error. *)
Definition failed_mount : world := with_mounted initial_world.

(** A provider for concrete runs. *)
Definition demo_provider (ch : string) : PubNubProviderProps :=
  {| publishKey := "pub-c-demo"; subscribeKey := "sub-c-demo"; provider_uuid := "me";
     provider_channel := ch |}.

(** ** Lemmas *)

Section failed.
Context (props : MessageListProps).

(** Without a client, or with an empty channel, [componentDidMount] logs
    its error and does nothing else. *)
Lemma componentDidMount_failed ctx er :
  (pubnub ctx = None /\ er = NoContext) \/
  (is_Some (pubnub ctx) /\ ctx_channel ctx = "" /\ er = EmptyChannel) ->
  componentDidMount_request ctx props initial_state = ([ConsoleError er], initial_state, Ok ()).
Proof.
  intros [[Hp ->]|[[c Hp] [Hc ->]]]; unfold componentDidMount_request; js_run;
    rewrite Hp; [done|]. by rewrite Hc.
Qed.

(** No event can happen in a world with no request, no listener and no
    observer once the list is mounted. *)
Lemma failed_mount_stuck ctx ev : step ctx props failed_mount ev = None.
Proof. by destruct ev as [| [] | | | ]. Qed.

Lemma reachable_failed ctx er :
  componentDidMount_request ctx props initial_state = ([ConsoleError er], initial_state, Ok ()) ->
  forall w, reachable ctx props w -> w = initial_world \/ w = failed_mount.
Proof.
  intros Hm w. induction 1 as [|w ev w' _ IH Hs]; [by left|right].
  destruct IH as [->| ->]; [|by rewrite failed_mount_stuck in Hs].
  destruct ev as [| [] | | | ]; simpl in Hs; simplify_eq; [|done..].
  unfold run_handler. simpl. by rewrite Hm.
Qed.
End failed.

(** ** Properties *)

(** C30: a class list with no provider above it, or below a provider with
    an empty channel, renders nothing; its mount logs [NoContext],
    respectively [EmptyChannel], and adds no listener, subscription or
    request, after which no event can reach it: the list stays empty
    forever. *)
Theorem list_without_provider_or_channel props provider w :
  (provider = None \/ exists p, provider = Some p /\ provider_channel p = "") ->
  reachable (context_of provider) props w ->
  renders (context_of provider) = false /\
  componentDidMount_request (context_of provider) props initial_state =
    ([ConsoleError (if provider is Some _ then EmptyChannel else NoContext)], initial_state, Ok ()) /\
  (w = initial_world \/ w = failed_mount).
Proof.
  intros Hp Hr.
  assert (Hm : componentDidMount_request (context_of provider) props initial_state =
    ([ConsoleError (if provider is Some _ then EmptyChannel else NoContext)], initial_state, Ok ())).
  { apply componentDidMount_failed. destruct Hp as [->|(p & -> & Hc)]; [by left|].
    right. split_and!; [by eexists|done|done]. }
  split_and!; [|done|by eapply reachable_failed].
  destruct Hp as [->|(p & -> & Hc)]; [done|]. unfold renders. simpl. by rewrite Hc.
Qed.

Lemma list_without_provider_or_channel_witness :
  let provider := Some (demo_provider "") in
  match step (context_of provider) demo_props initial_world ev_mount with
  | Some w =>
      renders (context_of provider) = false /\
      componentDidMount_request (context_of provider) demo_props initial_state =
        ([ConsoleError (if provider is Some _ then EmptyChannel else NoContext)], initial_state, Ok ()) /\
      (w = initial_world \/ w = failed_mount)
  | None => False
  end.
Proof.
  intros provider. simpl.
  apply (list_without_provider_or_channel demo_props provider).
  - right. by eexists.
  - apply (reachable_step _ _ initial_world ev_mount); [constructor|reflexivity].
Defined.

(** C31: below a provider with a non-empty channel the class list renders;
    its mount adds the message listener, subscribes to the provider's
    channel and requests the first page of it (unless history fetching is
    disabled), after which the listener is attached and the request is in
    flight; and its own messages are those sent with the provider's
    [uuid]. *)
Theorem list_inside_provider props p :
  provider_channel p <> "" ->
  renders (provider_value p) = true /\
  componentDidMount_request (provider_value p) props initial_state =
    ([AddListener; Subscribe (provider_channel p)] ++
     (if disableHistoryFetch props then [] else [FetchMessages (provider_channel p) 100 None]),
     initial_state, Ok ()) /\
  (exists w, step (provider_value p) props initial_world ev_mount = Some w /\
     listening w = true /\
     pending w = if disableHistoryFetch props then [] else [InitialPage]) /\
  (forall id, isOwnMessage (provider_value p) id = String.eqb (provider_uuid p) id).
Proof.
  intros Hc. apply String.eqb_neq in Hc.
  assert (Hm : componentDidMount_request (provider_value p) props initial_state =
    ([AddListener; Subscribe (provider_channel p)] ++
     (if disableHistoryFetch props then [] else [FetchMessages (provider_channel p) 100 None]),
     initial_state, Ok ())).
  { unfold componentDidMount_request. js_run. rewrite Hc. by destruct (disableHistoryFetch props). }
  split_and!; [by unfold renders; simpl; rewrite Hc|done| |done].
  eexists. split; [reflexivity|]. unfold run_handler. simpl. rewrite Hm.
  by destruct (disableHistoryFetch props).
Qed.

Lemma list_inside_provider_witness :
  renders (provider_value (demo_provider "general")) = true /\
  componentDidMount_request (provider_value (demo_provider "general")) demo_props initial_state =
    ([AddListener; Subscribe (provider_channel (demo_provider "general"))] ++
     (if disableHistoryFetch demo_props then []
      else [FetchMessages (provider_channel (demo_provider "general")) 100 None]),
     initial_state, Ok ()) /\
  (exists w, step (provider_value (demo_provider "general")) demo_props initial_world ev_mount = Some w /\
     listening w = true /\
     pending w = if disableHistoryFetch demo_props then [] else [InitialPage]) /\
  (forall id, isOwnMessage (provider_value (demo_provider "general")) id =
              String.eqb (provider_uuid (demo_provider "general")) id).
Proof. apply list_inside_provider. discriminate. Defined.

End Provider.
