(* ===== verification/ClassRender.v ===== *)
(** * What the class [MessageList] renders (src/src/message-list/message-list.tsx)

    [render()], [renderItem(message)] and [renderMessage(message)] as
    values: the JSX tree is kept down to what it shows (class names, the
    spinner, the items with their React keys, the unread badge, and for
    each message the avatar, author, time and bubble, or the call of the
    custom [messageRenderer] with its props).  The time is [getTime] of
    [Clock], in the host's [TimeZone]; the user is [getUser], the props'
    users first, then the users [fetchMessageSenders] put into the state
    ([Senders]). *)

From Stdlib Require Import ZArith Lia String.
From stdpp Require Import base list strings sets.
From S2P Require Import Prelude Timetoken Message ClassList TypingIndicator Clock Senders.

Module ClassRender.
Import ClassMessageList Clock ClassSenders.

(** The props [render()] reads besides those of [ClassList]. *)
Record RenderProps := {
  list_props : MessageListProps;
  theme : string;                    (** [props.theme], default ["light"] *)
  messageRenderer_set : bool;        (** [props.messageRenderer] is given *)
}.

(** [MessageRendererProps] *)
Record MessageRendererProps := {
  rp_isOwnMessage : bool;
  rp_message : MessageListMessage;
  rp_time : string;
  rp_user : option MessageListUser;
}.

(** What [renderMessage] returns. *)
Inductive message_view :=
| CustomMessage (p : MessageRendererProps)
    (** [this.props.messageRenderer({ message, user, time, isOwnMessage })] *)
| DefaultMessage (avatar : option string) (author : string) (time : string) (bubble : string).
    (** the avatar's [src], [pn-msg__author], [pn-msg__time], [pn-msg__bubble] *)

(** [<div className={`pn-msg ${currentUserClass}`} key={message.timetoken}>] *)
Record item_view := {
  item_key : Z;
  item_class : string;
  item_body : message_view;
}.

Record list_view := {
  list_class : string;             (** [`pn-msg-list pn-msg-list--${theme}`] *)
  list_spinner : bool;             (** the [pn-msg-list__spinner] element *)
  list_items : list item_view;     (** [messages.map((m) => this.renderItem(m))] *)
  list_unread : option nat;        (** the [pn-msg-list__unread] badge *)
}.

Section render.
Context `{TimeZone} (ctx : PubNubContextProps) (props : RenderProps) (st : MessageListState).

Definition renderMessage (m : MessageListMessage) : message_view :=
  let uuid := sender_uuid m in
  let user := getUser (list_props props) st uuid in
  let time := getTime (timetoken m) in
  let own := isOwnMessage ctx uuid in
  if messageRenderer_set props
  then CustomMessage {| rp_isOwnMessage := own; rp_message := m; rp_time := time; rp_user := user |}
  else DefaultMessage (user ≫= fun u => truthy_str (profileUrl u))
         (js_or_str (user ≫= user_name) "Unknown User") time (text m).

Definition renderItem (m : MessageListMessage) : item_view := {|
  item_key := timetoken m;
  item_class := "pn-msg " ++ (if isOwnMessage ctx (sender_uuid m) then "pn-msg--own" else "");
  item_body := renderMessage m;
|}.

(** [render()]: [null] without a client or with an empty channel. *)
Definition render : option list_view :=
  if renders ctx then
    Some {| list_class := "pn-msg-list pn-msg-list--" ++ theme props;
            list_spinner := spinner_shown (list_props props) st;
            list_items := renderItem <$> messages st;
            list_unread := unread_badge st |}
  else None.
End render.

(** The author a default rendering shows. *)
Definition author (v : message_view) : option string :=
  match v with DefaultMessage _ a _ _ => Some a | CustomMessage _ => None end.

(** ** Lemmas *)

(** [handleHistoryFetch] leaves the users alone. *)
Lemma handleHistoryFetch_users ctx r st :
  users (js_exec (handleHistoryFetch ctx r) st) = users st.
Proof.
  unfold js_exec.
  destruct (merge_history (messages st) (page_of (ctx_channel ctx) r)) as [|f rest] eqn:He.
  - by rewrite handleHistoryFetch_run_nil.
  - by rewrite (handleHistoryFetch_run_cons _ _ _ f rest He).
Qed.

Lemma getUser_users props st st' id :
  users st' = users st -> getUser props st' id = getUser props st id.
Proof. intros Hu. unfold getUser. by rewrite Hu. Qed.

(** ** Properties *)

(** C32: a history page whose first sender is a known user and which holds
    a message of an unknown sender: the [fetchMessageSenders] call of
    [handleHistoryFetch] returns at once, and the list then shows that
    message with the author "Unknown User", although its sender's id is
    in the message. *)
Theorem known_first_sender_renders_unknown `{TimeZone} ctx props resp st k rest m :
  let page := page_of (ctx_channel ctx) resp in
  let lp := list_props props in
  let st' := js_exec (handleHistoryFetch ctx resp) st in
  renders ctx = true -> disableUserFetch lp = false -> messageRenderer_set props = false ->
  js_set (sender_key <$> page) = Some k :: rest -> k <> ""%string -> is_Some (getUser lp st k) ->
  m ∈ page -> getUser lp st (sender_uuid m) = None ->
  fetchMessageSenders_request lp page st' = ([], st', Ok None) /\
  exists v it, render ctx props st' = Some v /\ it ∈ list_items v /\
    item_key it = timetoken m /\ author (item_body it) = Some "Unknown User"%string.
Proof.
  intros page lp st' Hr Hd Hc Hs Hk [u Hu] Hm Hun.
  assert (Hg : forall id, getUser lp st' id = getUser lp st id)
    by (intros; apply getUser_users, handleHistoryFetch_users).
  split.
  { rewrite request_run, Hs by done. simpl. by rewrite (proj2 (String.eqb_neq _ _) Hk), Hg, Hu. }
  assert (Hin : m ∈ messages st').
  { unfold st', js_exec.
    destruct (merge_history (messages st) page) as [|f l] eqn:He.
    - pose proof (merge_history_perm (messages st) page) as Hp. rewrite He in Hp.
      apply Permutation_nil in Hp. apply app_eq_nil in Hp as [_ Hp].
      rewrite Hp in Hm. set_solver.
    - rewrite (handleHistoryFetch_run_cons _ _ _ f l He). simpl. rewrite <-He.
      rewrite (merge_history_perm (messages st) page). set_solver. }
  unfold render. rewrite Hr. eexists _, (renderItem ctx props st' m).
  split_and!; [reflexivity| |done|].
  - apply list_elem_of_fmap_2, Hin.
  - simpl. unfold renderMessage. rewrite Hc. fold lp. by rewrite Hg, Hun.
Qed.

Lemma known_first_sender_renders_unknown_witness :
  let props := {| list_props := demo_props_users [demo_user "alice"]; theme := "light";
                  messageRenderer_set := false |} in
  let resp := demo_response [demo_from "alice" 1; demo_from "bob" 2] in
  let st' := js_exec (handleHistoryFetch demo_ctx resp) initial_state in
  fetchMessageSenders_request (list_props props) (page_of "demo" resp) st' = ([], st', Ok None) /\
  exists v it, render demo_ctx props st' = Some v /\ it ∈ list_items v /\
    item_key it = timetoken (demo_from "bob" 2) /\ author (item_body it) = Some "Unknown User"%string.
Proof.
  intros props resp st'.
  apply (known_first_sender_renders_unknown demo_ctx props resp initial_state "alice" [Some "bob"%string]);
    [reflexivity|reflexivity|reflexivity|reflexivity|discriminate|eexists; reflexivity| |reflexivity].
  simpl. set_solver.
Defined.

End ClassRender.
