(* ===== verification/HooksRender.v ===== *)
(** * What the hook [MessageList] renders (src/lib/src/message-list/message-list.tsx)

    The renderers of the hook component as values: [renderWelcomeMessage],
    [renderItem], [renderMessage], [renderReactions], [renderAttachment]
    and the component's returned tree, kept down to what they show (class
    names, keys, texts, image sources, the reaction chips with their counts
    and highlight, and the calls of the custom renderers with their props).
    The users are the value of [UsersMetaAtom], the theme the value of
    [ThemeAtom]; the time is [getTime] of [Clock]. *)

From Stdlib Require Import ZArith Lia String.
From stdpp Require Import base list strings sets.
From S2P Require Import Prelude Timetoken Message HooksList TypingIndicator Clock.

Module HooksRender.
Import HooksMessageList Clock.

(** [props.welcomeRenderer]: absent, [false], or an element. *)
Inductive welcome_renderer := WelcomeUndefined | WelcomeFalse | WelcomeElement.

(** The props the renderers read besides those of [HooksList]. *)
Record RenderProps := {
  list_props : MessageListProps;
  welcomeRenderer : welcome_renderer;
  messageRenderer_set : bool;
  bubbleRenderer_set : bool;
  filter : option (MessageListMessage -> bool);
}.

(** [MessageRendererProps]: [{ message, user, time, isOwn }]. *)
Record MessageRendererProps := {
  rp_isOwn : bool;
  rp_message : MessageListMessage;
  rp_time : string;
  rp_user : option MessageListUser;
}.

(** [renderAttachment]: the [img] of an image, the [a] of a link, an empty
    [div] for any other type. *)
Inductive attachment_view :=
| ImageView (src : option string)
| LinkView (href image icon name title description : option string)
| EmptyAttachment.

(** A reaction chip: the value, [pn-msg__reaction--active], [instances.length]. *)
Record reaction_view := { rv_reaction : string; rv_active : bool; rv_count : nat }.

Inductive bubble_view :=
| CustomBubble (p : MessageRendererProps)          (** [props.bubbleRenderer(...)] *)
| TextBubble (text : string) (atts : list attachment_view).

Inductive message_view :=
| CustomMessage (p : MessageRendererProps)         (** [props.messageRenderer(...)] *)
| DefaultMessage (avatar : option string) (author time : string) (bubble : bubble_view)
    (reactions : option (list reaction_view)).
    (** the avatar's [src] ([None]: the placeholder), [pn-msg__author],
        [pn-msg__time], the bubble, and [pn-msg__reactions] if rendered *)

(** [<div className={`pn-msg ${currentUserClass}`} key={message.timetoken}>],
    with the [pn-msg__actions] button when reactions are enabled. *)
Record item_view := {
  item_key : Z;
  item_class : string;
  item_body : message_view;
  item_actions : bool;
}.

Inductive welcome_view := WelcomeBot | WelcomeCustom.

Record list_view := {
  list_class : string;
  list_unread : option Z;
  list_spinner : bool;
  list_items : list item_view;
  list_welcome : option welcome_view;
  list_picker : option string;       (** the picker's [className], if rendered *)
}.

(** [renderWelcomeMessage()] *)
Definition renderWelcomeMessage (props : RenderProps) : option welcome_view :=
  match welcomeRenderer props with
  | WelcomeUndefined => Some WelcomeBot
  | WelcomeFalse => None
  | WelcomeElement => Some WelcomeCustom
  end.

(** [renderAttachment(attachment, key)] *)
Definition renderAttachment (a : Attachment) : attachment_view :=
  if String.eqb (att_type a) "image" then ImageView (att_image a)
  else if String.eqb (att_type a) "link" then
    LinkView (att_provider_url a) (att_image a) (att_icon a) (att_provider_name a)
      (att_title a) (att_description a)
  else EmptyAttachment.

(** [props.filter ? props.filter(message) : true] *)
Definition filtered (props : RenderProps) (m : MessageListMessage) : bool :=
  match filter props with Some f => f m | None => true end.

Section render.
Context `{TimeZone} (props : RenderProps) (me : string) (users : list MessageListUser).

(** [renderReactions(message)]: nothing without [actions.reaction]. *)
Definition renderReactions (m : MessageListMessage) : option (list reaction_view) :=
  match js_prop "reaction" (actions m) with
  | None => None
  | Some reactions =>
      Some ((fun '(reaction, instances) =>
               {| rv_reaction := reaction;
                  rv_active := bool_decide (is_Some (userReaction me instances));
                  rv_count := length instances |}) <$> reactions)
  end.

(** [users.find((u) => u.id === uuid)] *)
Definition getUser (id : string) : option MessageListUser :=
  List.find (fun u => String.eqb (user_id u) id) users.

Definition renderMessage (m : MessageListMessage) : message_view :=
  let uuid := sender_uuid m in
  let user := match sender m with Some u => Some u | None => getUser uuid end in
  let time := getTime (timetoken m) in
  let isOwn := String.eqb me uuid in
  let rprops := {| rp_isOwn := isOwn; rp_message := m; rp_time := time; rp_user := user |} in
  if messageRenderer_set props && filtered props m then CustomMessage rprops
  else
    DefaultMessage (user ≫= fun u => truthy_str (profileUrl u))
      (js_or_str (user ≫= user_name) uuid) time
      (if bubbleRenderer_set props && filtered props m then CustomBubble rprops
       else TextBubble (text m) (renderAttachment <$> default [] (attachments m)))
      (if enableReactions (list_props props) then renderReactions m else None).

Definition renderItem (m : MessageListMessage) : item_view := {|
  item_key := timetoken m;
  item_class := "pn-msg " ++ (if String.eqb me (sender_uuid m) then "pn-msg--own" else "");
  item_body := renderMessage m;
  item_actions := enableReactions (list_props props);
|}.

(** The returned tree; [theme] is [ThemeAtom]'s value.  The picker's class
    is [`pn-msg-list__emoji-picker ${!emojiPickerShown && "..."}`]: while
    the picker is shown, [false] is interpolated. *)
Definition render (theme : string) (st : ListState) : list_view := {|
  list_class := "pn-msg-list pn-msg-list--" ++ theme;
  list_unread := unread_badge st;
  list_spinner := spinner_shown (list_props props) st;
  list_items := renderItem <$> current_messages st;
  list_welcome := if welcome_shown st then renderWelcomeMessage props else None;
  list_picker :=
    if enableReactions (list_props props) then
      Some ("pn-msg-list__emoji-picker " ++
            (if emojiPickerShown st then "false" else "pn-msg-list__emoji-picker-hidden"))%string
    else None;
|}.
End render.

(** Default render props, and a message with the reactions ["+1"] of
    ["me"] and ["heart"] of ["bob"], for concrete runs. *)
Definition demo_render_props : RenderProps := {|
  list_props := demo_props; welcomeRenderer := WelcomeUndefined;
  messageRenderer_set := false; bubbleRenderer_set := false; filter := None;
|}.

Definition demo_two_reactions : MessageListMessage := {|
  channel := "demo"; text := "hello"; sender := None; attachments := None;
  timetoken := 7%Z; publisher := Some "alice"; uuid := None;
  actions := [("reaction", [("+1", [{| action_uuid := "me"; actionTimetoken := 8%Z |}]);
                            ("heart", [{| action_uuid := "bob"; actionTimetoken := 9%Z |}])])];
|}.

(** While the picker is shown its class ends in ["false"]: the template
    interpolates the value of [!emojiPickerShown && "..."]. *)
Lemma picker_class_shown `{TimeZone} props me users theme st :
  enableReactions (list_props props) = true -> emojiPickerShown st = true ->
  list_picker (render props me users theme st) = Some "pn-msg-list__emoji-picker false"%string.
Proof. intros He Hs. unfold render. simpl. by rewrite He, Hs. Qed.

(** ** Properties *)

(** C33: the reaction chips of a rendered message are the reaction values
    of the message, in order; each shows the number of users who reacted
    with it, and a click on it changes no state and removes the user's
    reaction when the chip is highlighted, adds one otherwise. *)
Theorem reaction_chips_click `{TimeZone} props me users m av au t b chips st :
  renderMessage props me users m = DefaultMessage av au t b (Some chips) ->
  NoDup (fst <$> reactions_of m) ->
  rv_reaction <$> chips = fst <$> reactions_of m /\
  Forall (fun c =>
    rv_count c = reaction_count m (rv_reaction c) /\
    js_exec (reactionClick me m (rv_reaction c)) st = st /\
    (rv_active c = true -> exists tk, js_effects (reactionClick me m (rv_reaction c)) st =
       [RemoveMessageAction (currentChannel st) (timetoken m) tk]) /\
    (rv_active c = false -> js_effects (reactionClick me m (rv_reaction c)) st =
       [AddMessageAction (currentChannel st) (Some (timetoken m)) (rv_reaction c)])) chips.
Proof.
  intros Hr Hnd.
  assert (Hrr : renderReactions me m = Some chips).
  { unfold renderMessage in Hr. destruct (_ && _); [done|].
    destruct (enableReactions _); congruence. }
  unfold renderReactions in Hrr. unfold reaction_count, reactions_of in *.
  destruct (js_prop "reaction" (actions m)) as [rs|] eqn:Hrs; [|done]. injection Hrr as <-. simpl in *.
  split.
  { rewrite <-list_fmap_compose. apply list_fmap_ext. by intros ? [k inst] _. }
  apply Forall_fmap, Forall_forall. intros [k inst] Hin. simpl.
  pose proof (js_prop_elem rs k inst Hnd Hin) as Hp.
  destruct (reactionClick_toggles me m k st) as [Hx He].
  unfold reactions_of in He. rewrite Hrs in He. simpl in He. rewrite Hp in He. simpl in He.
  rewrite Hp, He.
  split_and!; [done|done| |]; intros Ha; destruct (userReaction me inst) as [ur|].
  - by eexists.
  - by apply bool_decide_eq_true, is_Some_None in Ha.
  - apply bool_decide_eq_false in Ha. by destruct Ha; eexists.
  - done.
Qed.

Lemma reaction_chips_click_witness :
  let st := demo_state "demo" [demo_two_reactions] [] true in
  match renderMessage demo_render_props "me" [] demo_two_reactions with
  | DefaultMessage av au t b (Some chips) =>
      chips = [{| rv_reaction := "+1"; rv_active := true; rv_count := 1 |};
               {| rv_reaction := "heart"; rv_active := false; rv_count := 1 |}] /\
      (rv_reaction <$> chips = fst <$> reactions_of demo_two_reactions /\
       Forall (fun c =>
         rv_count c = reaction_count demo_two_reactions (rv_reaction c) /\
         js_exec (reactionClick "me" demo_two_reactions (rv_reaction c)) st = st /\
         (rv_active c = true -> exists tk, js_effects (reactionClick "me" demo_two_reactions (rv_reaction c)) st =
            [RemoveMessageAction (currentChannel st) (timetoken demo_two_reactions) tk]) /\
         (rv_active c = false -> js_effects (reactionClick "me" demo_two_reactions (rv_reaction c)) st =
            [AddMessageAction (currentChannel st) (Some (timetoken demo_two_reactions)) (rv_reaction c)]))
         chips)
  | _ => False
  end.
Proof.
  intros st.
  destruct (renderMessage demo_render_props "me" [] demo_two_reactions) as [|av au t b [chips|]] eqn:E;
    [vm_compute in E; discriminate| |vm_compute in E; discriminate].
  split; [vm_compute in E; injection E; intros; subst; reflexivity|].
  apply (reaction_chips_click demo_render_props "me" [] demo_two_reactions av au t b chips st E).
  apply (bool_decide_unpack _). vm_compute. reflexivity.
Defined.

End HooksRender.
