(* ===== verification/MetroConfig.v ===== *)
(** * The metro configuration of the React Native load tests
      (src/load-tests/react-native/metro.config.js)

    The configuration starts from expo's [getDefaultConfig(projectRoot)]
    and sets [watchFolders] to the workspace root and
    [resolver.nodeModulesPaths] to three directories, each computed by
    Node's [path.resolve].  [path.resolve] is modelled after Node's POSIX
    implementation ([lib/path.js]: the right-to-left scan for an absolute
    argument, ending with [process.cwd()], then [normalizeString]);
    [getDefaultConfig] is a parameter of the section, about which nothing
    is assumed. *)

From Stdlib Require Import String Ascii Lia.
From stdpp Require Import base list.
From S2P Require Import Prelude.

Module MetroConfig.
Local Open Scope string_scope.

(** ** Node's [path.posix] *)

Definition slash : ascii := "/".

(** The segments between the separators. *)
Fixpoint split_path (s : string) : list string :=
  match s with
  | EmptyString => [EmptyString]
  | String c s' =>
      let r := split_path s' in
      if Ascii.eqb c slash then EmptyString :: r
      else match r with seg :: r' => String c seg :: r' | [] => [String c EmptyString] end
  end.

Fixpoint join_path (segs : list string) : string :=
  match segs with
  | [] => EmptyString
  | [s] => s
  | s :: r => s ++ String slash (join_path r)
  end.

Fixpoint has_slash (s : string) : bool :=
  match s with EmptyString => false | String c s' => Ascii.eqb c slash || has_slash s' end.

(** [isAbsolute]: the first character is the separator. *)
Definition is_absolute (p : string) : bool :=
  match p with String c _ => Ascii.eqb c slash | EmptyString => false end.

(** One segment of [normalizeString]'s loop, on the reversed segments
    kept so far: empty and [.] segments are skipped, [..] removes the
    last segment unless that is [..] itself or there is none, in which
    case it is kept only when the path may go above the root. *)
Definition norm_step (allowAboveRoot : bool) (acc : list string) (seg : string) : list string :=
  if String.eqb seg "" || String.eqb seg "." then acc
  else if String.eqb seg ".." then
    match acc with
    | x :: r => if String.eqb x ".." then ".." :: acc else r
    | [] => if allowAboveRoot then [".."] else []
    end
  else seg :: acc.

(** [normalizeString(path, allowAboveRoot, "/", isPosixPathSeparator)], as
    its list of segments. *)
Definition normalizeString (allowAboveRoot : bool) (path : string) : list string :=
  rev (fold_left (norm_step allowAboveRoot) (split_path path) []).

(** The loop of [resolve]: from the last argument to the first, then
    [process.cwd()], prefixing each non-empty one, until one is absolute. *)
Fixpoint resolve_paths (paths : list string) (resolvedPath : string) : string * bool :=
  match paths with
  | [] => (resolvedPath, false)
  | p :: ps =>
      if String.eqb p "" then resolve_paths ps resolvedPath
      else
        let r := p ++ String slash resolvedPath in
        if is_absolute p then (r, true) else resolve_paths ps r
  end.

(** [path.resolve(...args)], with [cwd] the value of [process.cwd()]. *)
Definition resolve (cwd : string) (args : list string) : string :=
  let '(p, resolvedAbsolute) := resolve_paths (rev args ++ [cwd]) "" in
  let segs := normalizeString (negb resolvedAbsolute) p in
  if resolvedAbsolute then String slash (join_path segs)
  else match segs with [] => "." | _ => join_path segs end.

(** A segment of a normalised path: not empty, [.] or [..], no separator. *)
Definition normal_seg (s : string) : bool :=
  negb (String.eqb s "") && negb (String.eqb s ".") && negb (String.eqb s "..") && negb (has_slash s).

(** The absolute path with these segments. *)
Definition abs_path (ds : list string) : string := String slash (join_path ds).

(** ** The configuration *)

(** The fields the file reads or sets. *)
Record MetroConfig := {
  cfg_projectRoot : string;
  watchFolders : list string;
  nodeModulesPaths : list string;     (** [config.resolver.nodeModulesPaths] *)
}.

Section config.
Context (getDefaultConfig : string -> MetroConfig) (cwd __dirname : string).

(** [const workspaceRoot = path.resolve(__dirname, "../..")] *)
Definition workspaceRoot : string := resolve cwd [__dirname; "../.."].

(** [const projectRoot = __dirname] *)
Definition projectRoot : string := __dirname.

(** [module.exports]: the default configuration with the two fields set. *)
Definition config : MetroConfig :=
  let default := getDefaultConfig projectRoot in
  {| cfg_projectRoot := cfg_projectRoot default;
     watchFolders := [workspaceRoot];
     nodeModulesPaths := [resolve cwd [projectRoot; "node_modules"];
                          resolve cwd [workspaceRoot; "node_modules"];
                          resolve cwd [__dirname; "../common"]] |}.
End config.

(** ** Lemmas on paths *)

Definition normal_path (ds : list string) : Prop := Forall (fun s => normal_seg s = true) ds.

Lemma split_path_not_nil s : split_path s <> [].
Proof. destruct s; simpl; [done|]. case_match; [done|]. by case_match. Qed.

Lemma split_path_slash s1 s2 : split_path (s1 ++ String slash s2) = (split_path s1 ++ split_path s2)%list.
Proof.
  induction s1 as [|c s1 IH]; simpl; [done|]. rewrite IH.
  case_match; [done|]. pose proof (split_path_not_nil s1) as Hn.
  by destruct (split_path s1).
Qed.

Lemma split_path_no_slash s : has_slash s = false -> split_path s = [s].
Proof.
  induction s as [|c s IH]; simpl; [done|].
  intros [Hc Hs]%orb_false_iff. by rewrite Hc, IH.
Qed.

Lemma normal_seg_no_slash s : normal_seg s = true -> has_slash s = false.
Proof. unfold normal_seg. intros Hs. apply andb_prop in Hs as [_ Hs]. by apply negb_true_iff. Qed.

Lemma split_join ds : ds <> [] -> normal_path ds -> split_path (join_path ds) = ds.
Proof.
  induction ds as [|s [|s' ds] IH]; intros Hne Hn; [done| |].
  - invc Hn. simpl. by apply split_path_no_slash, normal_seg_no_slash.
  - invc Hn. change (split_path (s ++ String slash (join_path (s' :: ds))) = s :: s' :: ds).
    rewrite split_path_slash, IH by done. by rewrite split_path_no_slash by by apply normal_seg_no_slash.
Qed.

Lemma norm_step_normal b acc s : normal_seg s = true -> norm_step b acc s = s :: acc.
Proof.
  unfold normal_seg, norm_step. intros Hs.
  destruct (String.eqb s ""), (String.eqb s "."), (String.eqb s ".."); by simpl in *.
Qed.

Lemma fold_norm_normal b ds acc : normal_path ds -> fold_left (norm_step b) ds acc = (rev ds ++ acc)%list.
Proof.
  intros Hn. revert acc. induction Hn as [|s ds Hs _ IH]; intros acc; simpl; [done|].
  rewrite norm_step_normal, IH by done. by rewrite <-app_assoc.
Qed.

(** The segments of a joined normal path, including the empty one. *)
Lemma fold_norm_join b ds acc :
  normal_path ds -> fold_left (norm_step b) (split_path (join_path ds)) acc = (rev ds ++ acc)%list.
Proof.
  intros Hn. destruct ds as [|s ds]; [done|]. rewrite split_join by done. by apply fold_norm_normal.
Qed.

(** [..] on an absolute normal path removes its last segment, and nothing
    at the root. *)
Lemma norm_step_parent ds : normal_path ds -> norm_step false (rev ds) ".." = rev (removelast ds).
Proof.
  induction ds as [|x ds _] using rev_ind; intros Hn; [done|].
  rewrite rev_unit, removelast_last. apply Forall_app in Hn as [_ Hx]. invc Hx.
  unfold norm_step. simpl. unfold normal_seg in *.
  destruct (String.eqb x ".."); [|done]. by rewrite andb_false_r in *.
Qed.

Lemma normal_path_removelast ds : normal_path ds -> normal_path (removelast ds).
Proof.
  induction ds as [|x ds _] using rev_ind; [done|].
  rewrite removelast_last. by intros [? _]%Forall_app.
Qed.

Lemma normal_path_app ds ds' : normal_path ds -> normal_path ds' -> normal_path (ds ++ ds')%list.
Proof. apply Forall_app_2. Qed.

Lemma split_path_segments s : Forall (fun x => has_slash x = false) (split_path s).
Proof.
  induction s as [|c s IH]; simpl; [by repeat constructor|].
  destruct (Ascii.eqb c slash) eqn:Hc; [by constructor|].
  pose proof (split_path_not_nil s).
  destruct (split_path s) as [|seg r]; [done|].
  invc IH. constructor; [|done]. simpl. by rewrite Hc.
Qed.

Lemma norm_step_keeps acc s :
  normal_path acc -> has_slash s = false -> normal_path (norm_step false acc s).
Proof.
  intros Ha Hs. unfold norm_step.
  destruct (String.eqb s "") eqn:H1, (String.eqb s ".") eqn:H2; simpl; [done..|].
  destruct (String.eqb s "..") eqn:H3.
  - destruct acc as [|x r]; [constructor|]. invc Ha. unfold normal_seg in *.
    destruct (String.eqb x ".."); [|done]. by rewrite andb_false_r in *.
  - constructor; [|done]. unfold normal_seg. by rewrite H1, H2, H3, Hs.
Qed.

Lemma fold_norm_keeps segs acc :
  normal_path acc -> Forall (fun x => has_slash x = false) segs ->
  normal_path (fold_left (norm_step false) segs acc).
Proof.
  intros Ha Hs. revert acc Ha. induction Hs as [|x segs Hx _ IH]; intros acc Ha; simpl; [done|].
  by apply IH, norm_step_keeps.
Qed.

(** Some argument, or the cwd, is absolute: the scan ends there. *)
Lemma resolve_paths_abs ps r : Exists (fun p => is_absolute p = true) ps -> (resolve_paths ps r).2 = true.
Proof.
  revert r. induction ps as [|p ps IH]; intros r Hex; [by apply Exists_nil in Hex|]. simpl.
  destruct (String.eqb_spec p "") as [->|_].
  - apply Exists_cons in Hex as [Hp|Hex]; [done|]. by apply IH.
  - destruct (is_absolute p) eqn:Ha; [done|]. apply IH.
    apply Exists_cons in Hex as [Hp|Hex]; [congruence|done].
Qed.

(** Normalising an absolute normal path followed by more segments. *)
Lemma normalize_abs ds x :
  normal_path ds ->
  normalizeString false (abs_path ds ++ String slash x) =
  rev (fold_left (norm_step false) (split_path x) (rev ds)).
Proof.
  intros Hn. unfold normalizeString, abs_path. simpl.
  rewrite split_path_slash, fold_left_app, fold_norm_join by done. by rewrite app_nil_r.
Qed.

(** [path.resolve(d, rel)] for an absolute normal [d] and a relative
    [rel]: [d] followed by [rel]'s segments; the cwd is not read. *)
Lemma resolve_abs_rel cwd ds rel :
  normal_path ds -> rel <> "" -> is_absolute rel = false ->
  resolve cwd [abs_path ds; rel] = abs_path (rev (fold_left (norm_step false) (split_path rel) (rev ds))).
Proof.
  intros Hn Hr Ha. unfold resolve. simpl.
  rewrite (proj2 (String.eqb_neq _ _) Hr), Ha. simpl.
  change (String slash (join_path (normalizeString false (abs_path ds ++ String slash (rel ++ String slash "")))) =
          abs_path (rev (fold_left (norm_step false) (split_path rel) (rev ds)))).
  rewrite normalize_abs by done. by rewrite split_path_slash, fold_left_app.
Qed.

Lemma resolve_abs cwd ds : normal_path ds -> resolve cwd [abs_path ds] = abs_path ds.
Proof.
  intros Hn. unfold resolve. simpl.
  change (String slash (join_path (normalizeString false (abs_path ds ++ String slash ""))) = abs_path ds).
  rewrite normalize_abs by done.
  replace (fold_left _ (split_path "") (rev ds)) with (rev ds) by reflexivity.
  by rewrite rev_involutive.
Qed.

(** [..] twice, a name, [..] then a name, on an absolute normal path. *)
Lemma fold_parent_parent ds :
  normal_path ds ->
  rev (fold_left (norm_step false) (split_path "../..") (rev ds)) = removelast (removelast ds).
Proof.
  intros Hn. simpl. rewrite !norm_step_parent by auto using normal_path_removelast.
  apply rev_involutive.
Qed.

Lemma fold_child ds x :
  normal_seg x = true ->
  rev (fold_left (norm_step false) (split_path x) (rev ds)) = (ds ++ [x])%list.
Proof.
  intros Hx. rewrite split_path_no_slash by by apply normal_seg_no_slash. simpl.
  by rewrite norm_step_normal, <-rev_unit, rev_involutive.
Qed.

Lemma fold_sibling ds x :
  normal_path ds -> normal_seg x = true ->
  rev (fold_left (norm_step false) (split_path (".." ++ String slash x)) (rev ds)) = (removelast ds ++ [x])%list.
Proof.
  intros Hn Hx. rewrite split_path_slash, fold_left_app. simpl.
  rewrite norm_step_parent by done. by apply fold_child.
Qed.

(** With an absolute working directory, [path.resolve] returns an
    absolute normalised path, which resolving again leaves unchanged. *)
Lemma resolve_normal cwd args :
  is_absolute cwd = true ->
  exists ds, normal_path ds /\ resolve cwd args = abs_path ds /\
             resolve cwd [resolve cwd args] = resolve cwd args.
Proof.
  intros Hc.
  assert (Hab : (resolve_paths (rev args ++ [cwd]) "").2 = true).
  { apply resolve_paths_abs, Exists_app. right. by constructor. }
  destruct (resolve_paths _ _) as [p b] eqn:E. simpl in Hab. subst b.
  assert (Hr : resolve cwd args = abs_path (normalizeString false p)) by (unfold resolve; by rewrite E).
  assert (Hn : normal_path (normalizeString false p)).
  { apply Forall_rev, fold_norm_keeps; [constructor|apply split_path_segments]. }
  exists (normalizeString false p). rewrite Hr. split_and!; [done|done|]. by apply resolve_abs.
Qed.

(** Each step of [resolve]'s scan prefixes the path built so far. *)
Lemma resolve_paths_app ps x y :
  resolve_paths ps (x ++ y) = (((resolve_paths ps x).1 ++ y)%string, (resolve_paths ps x).2).
Proof.
  revert x. induction ps as [|p ps IH]; intros x; simpl; [done|].
  case_match; [apply IH|]. case_match.
  - simpl. by rewrite string_app_assoc.
  - change (p ++ String slash (x ++ y))%string with (p ++ (String slash x ++ y))%string.
    by rewrite <-string_app_assoc, IH.
Qed.

Lemma resolve_paths_suffix ps r :
  (resolve_paths ps r).2 = true -> exists P0, (resolve_paths ps r).1 = (P0 ++ String slash r)%string.
Proof.
  revert r. induction ps as [|p ps IH]; intros r; simpl; [done|].
  case_match; [apply IH|]. destruct (is_absolute p); [by exists p|].
  intros Hb. destruct (IH _ Hb) as [P0 ->]. exists (P0 ++ String slash p)%string.
  by rewrite string_app_assoc.
Qed.

Lemma norm_step_empty b acc : norm_step b acc "" = acc.
Proof. done. Qed.

(** [path.resolve(d)] and [path.resolve(d, rel)] for any [d] and a
    relative [rel]: [d] resolved against the cwd, followed by [rel]'s
    segments. *)
Lemma resolve_dir_rel cwd d rel :
  is_absolute cwd = true -> rel <> "" -> is_absolute rel = false ->
  let ds := normalizeString false (resolve_paths [d; cwd] "").1 in
  normal_path ds /\ resolve cwd [d] = abs_path ds /\
  resolve cwd [d; rel] = abs_path (rev (fold_left (norm_step false) (split_path rel) (rev ds))).
Proof.
  intros Hc Hr Ha ds.
  assert (Hab : (resolve_paths [d; cwd] "").2 = true).
  { apply resolve_paths_abs. right. by constructor. }
  destruct (resolve_paths_suffix _ _ Hab) as [P0 HP].
  assert (Hds : ds = rev (fold_left (norm_step false) (split_path P0) [])).
  { unfold ds, normalizeString. rewrite HP, split_path_slash, fold_left_app. done. }
  split_and!.
  - rewrite Hds. apply Forall_rev, fold_norm_keeps; [constructor|apply split_path_segments].
  - unfold resolve. change (rev [d] ++ [cwd])%list with [d; cwd].
    destruct (resolve_paths [d; cwd] "") as [P b]. simpl in Hab. by subst b.
  - unfold resolve. change (rev [d; rel] ++ [cwd])%list with [rel; d; cwd].
    change (resolve_paths [rel; d; cwd] "") with
      (if String.eqb rel "" then resolve_paths [d; cwd] ""
       else if is_absolute rel then ((rel ++ String slash "")%string, true)
       else resolve_paths [d; cwd] (rel ++ String slash "")).
    rewrite (proj2 (String.eqb_neq _ _) Hr), Ha.
    change (rel ++ String slash "")%string with ("" ++ (rel ++ String slash ""))%string.
    rewrite resolve_paths_app, Hab, HP. cbn [fst snd negb].
    unfold normalizeString. rewrite string_app_assoc.
    change (String slash "" ++ (rel ++ String slash ""))%string with (String slash (rel ++ String slash "")).
    rewrite !split_path_slash, !fold_left_app. rewrite Hds, rev_involutive. done.
Qed.

(** ** Properties *)

(** C34: for a [__dirname] that is an absolute normal path with segments
    [ds], the configuration watches the directory two levels up (the root
    when [ds] has fewer than two segments: [..] does not go above it) and
    resolves packages from, in this order, the project's [node_modules],
    the workspace root's [node_modules] and the sibling directory
    [common]; the working directory is never read, and the rest is expo's
    default configuration for the project root. *)
Theorem config_paths getDefaultConfig cwd ds :
  normal_path ds ->
  let root := removelast (removelast ds) in
  config getDefaultConfig cwd (abs_path ds) =
  {| cfg_projectRoot := cfg_projectRoot (getDefaultConfig (abs_path ds));
     watchFolders := [abs_path root];
     nodeModulesPaths := [abs_path (ds ++ ["node_modules"]); abs_path (root ++ ["node_modules"]);
                          abs_path (removelast ds ++ ["common"])] |}.
Proof.
  intros Hn root. unfold config, workspaceRoot, projectRoot.
  assert (Hr : resolve cwd [abs_path ds; "../.."] = abs_path root).
  { rewrite resolve_abs_rel by done. by rewrite fold_parent_parent. }
  assert (Hroot : normal_path root) by (do 2 apply normal_path_removelast; done).
  rewrite Hr, !resolve_abs_rel by done.
  rewrite !fold_child by done.
  change "../common" with (".." ++ String slash "common"). by rewrite fold_sibling.
Qed.

Lemma config_paths_witness :
  let ds := ["repo"; "load-tests"; "react-native"] in
  let dflt := fun p => {| cfg_projectRoot := p; watchFolders := []; nodeModulesPaths := [] |} in
  watchFolders (config dflt "/tmp" (abs_path ds)) = ["/repo"] /\
  nodeModulesPaths (config dflt "/tmp" (abs_path ds)) =
    ["/repo/load-tests/react-native/node_modules"; "/repo/node_modules"; "/repo/load-tests/common"] /\
  config dflt "/tmp" (abs_path ds) =
  {| cfg_projectRoot := cfg_projectRoot (dflt (abs_path ds));
     watchFolders := [abs_path (removelast (removelast ds))];
     nodeModulesPaths := [abs_path (ds ++ ["node_modules"]);
                          abs_path (removelast (removelast ds) ++ ["node_modules"]);
                          abs_path (removelast ds ++ ["common"])] |}.
Proof.
  intros ds dflt. split_and!; [reflexivity|reflexivity|].
  apply (config_paths dflt "/tmp" ds). by repeat constructor.
Defined.


(** C35: for every [__dirname], relative ones resolved against the
    working directory, the configuration is that of the directory
    [__dirname] resolves to: with [ds] its segments, the watched folder is
    two levels up and the module paths are, in this order, [ds]'s
    [node_modules], the workspace root's [node_modules] and the sibling
    [common]. *)
Theorem config_resolved getDefaultConfig cwd __dirname :
  is_absolute cwd = true ->
  exists ds, normal_path ds /\ resolve cwd [__dirname] = abs_path ds /\
  config getDefaultConfig cwd __dirname =
  {| cfg_projectRoot := cfg_projectRoot (getDefaultConfig __dirname);
     watchFolders := [abs_path (removelast (removelast ds))];
     nodeModulesPaths := [abs_path (ds ++ ["node_modules"]);
                          abs_path (removelast (removelast ds) ++ ["node_modules"]);
                          abs_path (removelast ds ++ ["common"])] |}.
Proof.
  intros Hc.
  destruct (resolve_dir_rel cwd __dirname "../.." Hc) as (Hn & Hd & H1); [done|done|].
  destruct (resolve_dir_rel cwd __dirname "node_modules" Hc) as (_ & _ & H2); [done|done|].
  destruct (resolve_dir_rel cwd __dirname "../common" Hc) as (_ & _ & H3); [done|done|].
  set (ds := normalizeString false _) in *.
  exists ds. split_and!; [done|done|].
  assert (Hroot : normal_path (removelast (removelast ds))) by (do 2 apply normal_path_removelast; done).
  unfold config, workspaceRoot, projectRoot.
  rewrite H1, H2, H3, fold_parent_parent, resolve_abs_rel by done.
  rewrite !fold_child by done.
  change "../common" with (".." ++ String slash "common"). by rewrite fold_sibling.
Qed.

Lemma config_resolved_witness :
  let dflt := fun p => {| cfg_projectRoot := p; watchFolders := []; nodeModulesPaths := [] |} in
  is_absolute "/work" = true /\
  nodeModulesPaths (config dflt "/work" "load-tests//./react-native") =
    ["/work/load-tests/react-native/node_modules"; "/work/node_modules"; "/work/load-tests/common"] /\
  exists ds, normal_path ds /\ resolve "/work" ["load-tests//./react-native"] = abs_path ds /\
  config dflt "/work" "load-tests//./react-native" =
  {| cfg_projectRoot := cfg_projectRoot (dflt "load-tests//./react-native");
     watchFolders := [abs_path (removelast (removelast ds))];
     nodeModulesPaths := [abs_path (ds ++ ["node_modules"]);
                          abs_path (removelast (removelast ds) ++ ["node_modules"]);
                          abs_path (removelast ds ++ ["common"])] |}.
Proof. intros dflt. split_and!; [reflexivity|reflexivity|]. by apply config_resolved. Defined.

End MetroConfig.
