(* ===== verification/StorybookPreview.v ===== *)
(** * The Storybook preview (src/.storybook/preview.js)

    The preview wraps every story in [ChatComponents] with the mock client,
    a fixed channel and the story's [theme] parameter ([dark] when it is
    absent or empty), makes every story arg whose name matches
    [argTypesRegex] an action, and orders the story tree by [storySort].
    The mock client is seen only by its identity; [ChatComponents] and
    Storybook's sorting are outside the sources. *)

From Stdlib Require Import String Ascii.
From stdpp Require Import base list.
From S2P Require Import Prelude.

Module StorybookPreview.
Local Open Scope string_scope.

(** [const pubnub = new PubNubMock()] *)
Definition pubnub : string := "PubNubMock".

(** What a decorator reads of the story context: [context.parameters.theme]. *)
Record StoryContext := { parameters_theme : option string }.

Record ChatComponentsProps := {
  cc_pubnub : string;
  cc_channel : string;
  cc_theme : string;
}.

(** [<ChatComponents {...}><Story /></ChatComponents>] *)
Record decorated := { provider_props : ChatComponentsProps; story : string }.

(** The one decorator of [decorators]. *)
Definition decorator (Story : string) (context : StoryContext) : decorated := {|
  provider_props := {| cc_pubnub := pubnub;
                       cc_channel := "space_ac4e67b98b34b44c4a39466e93e";
                       cc_theme := js_or_str (parameters_theme context) "dark" |};
  story := Story;
|}.

(** [[A-Z]] *)
Definition is_upper (c : ascii) : bool :=
  let n := nat_of_ascii c in (65 <=? n)%nat && (n <=? 90)%nat.

(** [/^on[A-Z].*/.test(name)]: the pattern is anchored at the start only,
    so [.*] accepts any rest. *)
Definition argTypesRegex (name : string) : bool :=
  match name with
  | String o (String n (String c _)) => Ascii.eqb o "o" && Ascii.eqb n "n" && is_upper c
  | _ => false
  end.

(** An entry of [storySort.order]: a title, or the order of the children
    of the title before it. *)
Inductive sort_entry := Title (s : string) | Children (order : list string).

Record Parameters := {
  actions_argTypesRegex : string -> bool;
  storySort_order : list sort_entry;
}.

(** [export const parameters] *)
Definition parameters : Parameters := {|
  actions_argTypesRegex := argTypesRegex;
  storySort_order := [Title "Introduction"; Title "Components";
                      Children ["Chat Components (Provider)"]; Title "Examples"];
|}.

(** The args Storybook makes actions. *)
Definition action_args (args : list string) : list string :=
  filter (fun a => actions_argTypesRegex parameters a = true) args.

(** The prop names of [ChannelListProps]
    (src/src/channel-list/channel-list.tsx) and of the two
    [MessageListProps]. *)
Definition channel_list_props : list string :=
  ["children"; "channels"; "sort"; "filter"; "channelRenderer"; "onChannelSwitched"].

Definition class_message_list_props : list string :=
  ["theme"; "disableUserFetch"; "users"; "disableHistoryFetch"; "messageRenderer"; "onMessage"; "onScroll"].

Definition hook_message_list_props : list string :=
  ["children"; "fetchMessages"; "enableReactions"; "welcomeRenderer"; "messageRenderer";
   "bubbleRenderer"; "filter"; "onScroll"].

(** ** Lemmas *)

(** Of the components' props, exactly the event callbacks become actions:
    the renderers, the sorter and the filter, also functions, do not. *)
Lemma story_actions :
  action_args channel_list_props = ["onChannelSwitched"] /\
  action_args class_message_list_props = ["onMessage"; "onScroll"] /\
  action_args hook_message_list_props = ["onScroll"].
Proof. split_and!; reflexivity. Qed.

End StorybookPreview.
