(* ===== verification/ReactNativeApp.v ===== *)
(** * The React Native getting-started sample (src/samples/getting-started-react-native/App.tsx)

    [App] returns a fixed tree: the safe-area provider and view, and a
    [KeyboardAvoidingView] whose [behavior] depends on [Platform.OS],
    around the sample's chat.  The tree is a value; the styles are the
    two [flex: 1] entries of [StyleSheet.create]. *)

From Stdlib Require Import String ZArith.
From stdpp Require Import base.
From S2P Require Import Prelude.

Module ReactNativeApp.
Local Open Scope string_scope.

(** A style of [StyleSheet.create]: its [flex]. *)
Record style := { flex : Z }.

(** [const styles = StyleSheet.create({ container, keyboardAvoidingViewContainer })] *)
Record styles_t := { container : style; keyboardAvoidingViewContainer : style }.

Definition styles : styles_t := {|
  container := {| flex := 1 |};
  keyboardAvoidingViewContainer := {| flex := 1 |};
|}.

Inductive app_view :=
| SafeAreaProvider (child : app_view)
| SafeAreaView (st : style) (child : app_view)
| KeyboardAvoidingView (st : style) (behavior : string) (child : app_view)
| GettingStartedReactNative.

(** [Platform.OS === "ios" ? "padding" : "height"] *)
Definition behavior (os : string) : string := if String.eqb os "ios" then "padding" else "height".

(** [App()] on a device whose [Platform.OS] is [os]. *)
Definition App (os : string) : app_view :=
  SafeAreaProvider
    (SafeAreaView (container styles)
       (KeyboardAvoidingView (keyboardAvoidingViewContainer styles) (behavior os)
          GettingStartedReactNative)).

End ReactNativeApp.
