(* ===== verification/LiveEventsApp.v ===== *)
(** * The live-events sample application (src/samples/live-events/src/index.tsx)

    [LiveEventChat] keeps the dark mode and the current event channel in
    state, besides the two panels of [LiveEventsLayout], reads the
    presence of the event channels through [usePresence], and renders
    [Chat] around the three views, to which it passes its state, the
    presence of the current channel and the setters.  The views are
    outside the sources: [ChannelsView] lists the channels it is given and
    calls [setCurrentChannel] with the one clicked, and [setDarkMode] from
    its switch; [ChatView] and [ChannelsView] open and close the panels
    (the events of [LiveEventsLayout]).

    The state after mount and after each event is [app_state];
    [app_reachable] is the set of states the events reach.  Rendering reads
    [currentChannel.id], which throws when the event list is empty
    ([channels[0]] is [undefined]): [render_app] returns the [TypeError]. *)

From Stdlib Require Import ZArith String.
From stdpp Require Import base list.
From S2P Require Import Prelude LiveEventsLayout.

Module LiveEventsApp.
Import LiveEventChat.
Local Open Scope string_scope.

(** [ChannelMetadataObject]: what the sample reads of an event channel. *)
Record ChannelMetadata := { ch_id : string; ch_name : string; ch_description : option string }.

(** A channel's value in [usePresence]'s result. *)
Record Presence := { occupancy : Z; occupants : list string }.

(** [new PubNub({ publishKey, subscribeKey, uuid })] *)
Record PubNubConfig := { publishKey : string; subscribeKey : string; uuid : string }.

(** The environment's keys or [""]; the uuid is [faker.internet.userName()]. *)
Definition pubnub_config (pub_key sub_key : option string) (userName : string) : PubNubConfig :=
  {| publishKey := js_or_str pub_key ""; subscribeKey := js_or_str sub_key ""; uuid := userName |}.

(** [usePresence({ channels: channels.map((ch) => ch.id) })]: the channels
    whose presence is read. *)
Definition presence_channels (channels : list ChannelMetadata) : list string := ch_id <$> channels.

Record app_state := {
  darkMode : bool;
  currentChannel : option ChannelMetadata;     (** [None]: [undefined] *)
  layout : option LiveEventChat.render * LiveEventChat.render;
}.

(** [useState(true)], [useState(channels[0])] and the panels at mount. *)
Definition initial_app (channels : list ChannelMetadata) (w0 : Z) : app_state :=
  {| darkMode := true; currentChannel := head channels; layout := mount w0 |}.

Inductive app_event :=
| ev_layout (e : LiveEventChat.event)       (** a resize or a panel toggled *)
| ev_set_current (ch : ChannelMetadata)     (** [setCurrentChannel(ch)] *)
| ev_set_dark (b : bool).                   (** [setDarkMode(b)] *)

Definition app_step (st : app_state) (e : app_event) : app_state :=
  match e with
  | ev_layout ev => {| darkMode := darkMode st; currentChannel := currentChannel st;
                       layout := LiveEventChat.step (layout st) ev |}
  | ev_set_current ch => {| darkMode := darkMode st; currentChannel := Some ch; layout := layout st |}
  | ev_set_dark b => {| darkMode := b; currentChannel := currentChannel st; layout := layout st |}
  end.

(** [ChannelsView] only offers the channels it is given. *)
Definition app_event_ok (channels : list ChannelMetadata) (e : app_event) : Prop :=
  match e with ev_set_current ch => ch ∈ channels | _ => True end.

Inductive app_reachable (channels : list ChannelMetadata) (w0 : Z) : app_state -> Prop :=
| app_reachable_init : app_reachable channels w0 (initial_app channels w0)
| app_reachable_step st e :
    app_reachable channels w0 st -> app_event_ok channels e -> app_reachable channels w0 (app_step st e).

(** The props of the three views. *)
Record ChannelsViewProps := {
  cv_channels : list ChannelMetadata;
  cv_channelsExpanded : bool;
  cv_darkMode : bool;
  cv_presence : list (string * Presence);
}.

Record StreamViewProps := { sv_channelOccupancy : option Z; sv_currentChannel : ChannelMetadata }.

Record ChatViewProps := {
  chv_channelOccupants : option (list string);
  chv_chatExpanded : bool;
  chv_darkMode : bool;
}.

Record app_view := {
  main_className : string;
  chat_currentChannel : string;
  chat_channels_prop : list string;
  channels_view : ChannelsViewProps;
  stream_view : StreamViewProps;
  chat_view : ChatViewProps;
}.

Definition type_error_id : string := "TypeError: Cannot read properties of undefined (reading 'id')".

(** A render of [LiveEventChat]: [presence[currentChannel.id]?.occupants]
    and [?.occupancy], then the returned tree. *)
Definition render_app (channels : list ChannelMetadata) (presence : list (string * Presence))
    (st : app_state) : result string app_view :=
  match currentChannel st with
  | None => Err type_error_id
  | Some cur =>
      let p := js_prop (ch_id cur) presence in
      let r := (layout st).2 in
      Ok {| main_className := main_class (darkMode st);
            chat_currentChannel := ch_id cur;
            chat_channels_prop := chat_channels (ch_id cur) (ch_id <$> channels);
            channels_view := {| cv_channels := channels; cv_channelsExpanded := channelsExpanded r;
                                cv_darkMode := darkMode st; cv_presence := presence |};
            stream_view := {| sv_channelOccupancy := occupancy <$> p; sv_currentChannel := cur |};
            chat_view := {| chv_channelOccupants := occupants <$> p; chv_chatExpanded := chatExpanded r;
                            chv_darkMode := darkMode st |} |}
  end.

(** Two event channels and their presence, for concrete runs. *)
Definition demo_channels : list ChannelMetadata :=
  [{| ch_id := "keynote"; ch_name := "Keynote"; ch_description := None |};
   {| ch_id := "workshop"; ch_name := "Workshop"; ch_description := None |}].

Definition demo_presence : list (string * Presence) :=
  [("keynote", {| occupancy := 2; occupants := ["ann"; "bo"] |});
   ("workshop", {| occupancy := 1; occupants := ["cy"] |})].

(** ** Lemmas *)

(** The current channel is undefined exactly when there are no event
    channels, and is otherwise one of them. *)
Lemma app_current_invariant channels w0 st :
  app_reachable channels w0 st ->
  (currentChannel st = None <-> channels = []) /\
  (forall cur, currentChannel st = Some cur -> cur ∈ channels).
Proof.
  induction 1 as [|st e _ [IHn IHc] He].
  - simpl. destruct channels as [|c l]; simpl; split; [done|done|done|].
    intros cur [= ->]. by left.
  - destruct e as [ev|ch|b]; simpl in *; [done| |done].
    split; [|by intros cur [= ->]]. split; [done|]. intros ->. by apply not_elem_of_nil in He.
Qed.

(** The layout the app keeps is always the last of a settled run of
    renders: mount settles, and an event either changes nothing or
    settles again. *)
Lemma app_layout_settled channels w0 st :
  app_reachable channels w0 st -> stable (layout st).1 (layout st).2 = true.
Proof.
  induction 1 as [|st e _ IH _]; [apply settle_stops|].
  destruct e as [ev|ch|b]; simpl; [|done|done].
  unfold LiveEventChat.step. destruct (event_state _ ev) as [w s].
  case_bool_decide; [done|apply settle_stops].
Qed.

(** With no event channels the first render throws. *)
Lemma empty_event_list_throws presence w0 :
  render_app [] presence (initial_app [] w0) = Err type_error_id.
Proof. done. Qed.

(** ** Properties *)

(** C36: in every state the sample reaches, its render succeeds exactly
    when the event list is not empty (otherwise reading
    [currentChannel.id] of [channels[0]] throws a [TypeError] at once and
    no event can repair it: [ChannelsView] has no channel to offer), and
    the stream view then shows one of the event channels. *)
Theorem app_render_ok_iff channels presence w0 st :
  app_reachable channels w0 st ->
  (is_ok (render_app channels presence st) = true <-> channels <> []) /\
  (forall v, render_app channels presence st = Ok v -> sv_currentChannel (stream_view v) ∈ channels).
Proof.
  intros Hr. destruct (app_current_invariant channels w0 st Hr) as [Hn Hc].
  unfold render_app. destruct (currentChannel st) as [cur|] eqn:E; simpl.
  - split; [split; [intros _ Hnil; by apply Hn in Hnil|done]|].
    intros v [= <-]. simpl. by apply Hc.
  - split; [|done]. split; [done|]. intros Hne. exfalso. by apply Hne, Hn.
Qed.

Lemma app_render_ok_iff_witness :
  let ws := {| ch_id := "workshop"; ch_name := "Workshop"; ch_description := None |} in
  let st := app_step (initial_app demo_channels 1200) (ev_set_current ws) in
  is_ok (render_app demo_channels demo_presence st) = true /\
  ((is_ok (render_app demo_channels demo_presence st) = true <-> demo_channels <> []) /\
   (forall v, render_app demo_channels demo_presence st = Ok v -> sv_currentChannel (stream_view v) ∈ demo_channels)).
Proof.
  intros ws st. split; [reflexivity|].
  apply (app_render_ok_iff demo_channels demo_presence 1200).
  apply app_reachable_step; [constructor|]. simpl. unfold demo_channels. rewrite !elem_of_cons. by right; left.
Defined.

(** C37: in every state the sample reaches, the panels it passes to
    [ChannelsView] and [ChatView] are those of a render on which neither
    layout effect changes anything: the views never show a layout the
    effects are about to undo. *)
Theorem app_panels_stable channels presence w0 st v :
  app_reachable channels w0 st -> render_app channels presence st = Ok v ->
  run_effects (layout st).1 (layout st).2 = (chv_chatExpanded (chat_view v), cv_channelsExpanded (channels_view v)).
Proof.
  intros Hr Hv. apply app_layout_settled, bool_decide_eq_true_1 in Hr. rewrite Hr.
  unfold render_app in Hv. destruct (currentChannel st); [|done]. by injection Hv as <-.
Qed.

Lemma app_panels_stable_witness :
  let st := app_step (initial_app demo_channels 1200) (ev_layout (ev_resize 800)) in
  exists v, render_app demo_channels demo_presence st = Ok v /\
    (chv_chatExpanded (chat_view v), cv_channelsExpanded (channels_view v)) = (true, false) /\
    run_effects (layout st).1 (layout st).2 = (chv_chatExpanded (chat_view v), cv_channelsExpanded (channels_view v)).
Proof.
  intros st. eexists. split; [reflexivity|]. split; [reflexivity|].
  apply (app_panels_stable demo_channels demo_presence 1200); [|reflexivity].
  apply app_reachable_step; [constructor|done].
Defined.

End LiveEventsApp.
